(** * Confound time-series generation (hypotmri)

    A shallow embedding of the confound pipelines of the repository:

    - [src/preproc/functional/s04_generate_confounds_nipy.py]  (module [Preproc]),
    - [src/experimental/s04_generate_confounds_nipy.py]        (module [Experimental]),
    - the framewise-displacement formula and the spike regressors of
      [src/experimental/s04_generate_confounds_old.py]         (module [Old]).

    Numbers are IEEE binary64 values ([PrimFloat.float]), so [nan] is the
    missing-value marker the scripts write as [n/a].  Python exceptions are
    values of [exn]; a function that may raise returns a [result].  What the
    external tools (nipype, nilearn, pandas' readers) hand back is read from
    an environment record.  The messages of the scripts' own [raise]
    statements are spelled out, except for the [repr] of a nipype outputs
    object that ends two of them; messages raised inside numpy, pandas and
    nilearn are abbreviated. *)

From Stdlib Require Import ZArith NArith List String Ascii Bool Lia.
From Stdlib Require Import Floats DecimalString.
From Stdlib Require DecimalZ DecimalPos DecimalFacts.
From Stdlib Require Import Sorting.Mergesort Sorting.Sorted Sorting.Permutation Orders.
Import ListNotations.

Local Open Scope string_scope.
Local Open Scope list_scope.

(** ** Python: exceptions, results, string formatting *)

Inductive exn : Type :=
| ValueError (msg : string)
| RuntimeError (msg : string)
| FileNotFoundError (msg : string)
| ZeroDivisionError (msg : string)
| OverflowError (msg : string)
| KeyError (key : string)
| IndexError (msg : string)
| InvalidIndexError (msg : string)
| EmptyDataError (msg : string).

Inductive result (A : Type) : Type :=
| Ok (a : A)
| Raise (e : exn).

Arguments Ok {A} a.
Arguments Raise {A} e.

Definition bind {A B : Type} (r : result A) (k : A -> result B) : result B :=
  match r with
  | Ok a => k a
  | Raise e => Raise e
  end.

Notation "x <- r ;; k" := (bind r (fun x => k))
  (at level 61, r at next level, right associativity).

Definition is_ok {A : Type} (r : result A) : bool :=
  match r with Ok _ => true | Raise _ => false end.

(** [f"{n}"] for an integer. *)
Definition str_of_Z (z : Z) : string := NilZero.string_of_int (Z.to_int z).
Definition str_of_nat (n : nat) : string := str_of_Z (Z.of_nat n).

(** [f"{i:02d}"]: decimal, padded with a zero to width two. *)
Definition fmt_02d (i : nat) : string :=
  if Nat.ltb i 10 then "0" ++ str_of_nat i else str_of_nat i.

(** [repr] of a tuple of integers, as [f"{mp.shape}"] prints it. *)
Definition str_of_shape (shape : list nat) : string :=
  match shape with
  | [] => "()"
  | [n] => "(" ++ str_of_nat n ++ ",)"
  | _ => "(" ++ String.concat ", " (map str_of_nat shape) ++ ")"
  end.

(** [c in names] on a list of strings. *)
Definition mem (c : string) (names : list string) : bool :=
  existsb (String.eqb c) names.

(** ** numpy: floats and arrays *)

Definition np_nan : float := nan.
Definition fzero : float := 0%float.

(** Python's conversion of an [int] to a [float] (round to nearest even). *)
Definition float_of_Z (z : Z) : float :=
  SF2Prim (binary_normalize prec emax z 0 false).
Definition float_of_nat (n : nat) : float := float_of_Z (Z.of_nat n).

(** [np.full((n,), v)] *)
Definition np_full (n : nat) (v : float) : list float := repeat v n.

(** [len(x)] as a Python integer. *)
Definition len {A : Type} (x : list A) : Z := Z.of_nat (List.length x).

(** [np.zeros_like(x)] followed by [dx[1:] = x[1:] - x[:-1]]. *)
Fixpoint diffs (prev : float) (xs : list float) : list float :=
  match xs with
  | [] => []
  | x :: rest => PrimFloat.sub x prev :: diffs x rest
  end.

Definition backward_diff (x : list float) : list float :=
  match x with
  | [] => []
  | x0 :: rest => fzero :: diffs x0 rest
  end.

(** [a ** 2] on an array. *)
Definition square (a : list float) : list float :=
  map (fun v => PrimFloat.mul v v) a.

(** An array as [np.loadtxt] can return it: 0-, 1- or 2-dimensional. *)
Inductive ndarray : Type :=
| Arr0 (v : float)
| Arr1 (xs : list float)
| Arr2 (n m : nat) (rows : list (list float)).

Definition shape (a : ndarray) : list nat :=
  match a with
  | Arr0 _ => []
  | Arr1 xs => [List.length xs]
  | Arr2 n m _ => [n; m]
  end.

Definition ndim (a : ndarray) : nat := List.length (shape a).

(** [a[:, j]] *)
Definition column (j : nat) (a : ndarray) : list float :=
  match a with
  | Arr2 _ _ rows => map (fun r => nth j r fzero) rows
  | _ => []
  end.

Definition is_nil {A : Type} (l : list A) : bool :=
  match l with [] => true | _ => false end.

(** The lines of a text file that hold numbers: blank lines are skipped. *)
Definition data_rows (lines : list (list float)) : list (list float) :=
  filter (fun r => negb (is_nil r)) lines.

(** [np.loadtxt(path)] with its defaults, on the lines of numbers of the
    file.  Rows of different widths are an error; the result is squeezed, so
    one row, or one column, gives a 1-D array and a single number a 0-D
    array; a file with no data gives an empty 1-D array. *)
Definition np_loadtxt (lines : list (list float)) : result ndarray :=
  match data_rows lines with
  | [] => Ok (Arr1 [])
  | r0 :: rest =>
      let m := List.length r0 in
      if forallb (fun r => Nat.eqb (List.length r) m) rest then
        match rest, r0 with
        | [], [v] => Ok (Arr0 v)
        | [], _ => Ok (Arr1 r0)
        | _, [_] => Ok (Arr1 (map (fun r => nth 0 r fzero) (r0 :: rest)))
        | _, _ => Ok (Arr2 (S (List.length rest)) m (r0 :: rest))
        end
      else Raise (ValueError "the number of columns changed")
  end.

(** A 2-D array of floats kept by columns: [C[:, j]] is [nth j m_cols]. *)
Record Matrix : Type := mkMatrix {
  m_nrows : nat;
  m_cols : list (list float)
}.

(** ** pandas: a table is its row count and its named columns, in order *)

Record DataFrame : Type := mkDF {
  nrows : nat;
  columns : list (string * list float)
}.

Definition names (df : DataFrame) : list string := map fst (columns df).
Definition ncols (df : DataFrame) : nat := List.length (columns df).

(** Every column of a table has as many entries as the table has rows. *)
Definition well_formed (df : DataFrame) : Prop :=
  Forall (fun kv => List.length (snd kv) = nrows df) (columns df).

Fixpoint lookup (c : string) (cols : list (string * list float)) : option (list float) :=
  match cols with
  | [] => None
  | (k, v) :: rest => if String.eqb c k then Some v else lookup c rest
  end.

(** [df[c]] for one label. *)
Definition getitem (df : DataFrame) (c : string) : result (list float) :=
  match lookup c (columns df) with
  | Some v => Ok v
  | None => Raise (KeyError c)
  end.

Fixpoint replace_col (c : string) (v : list float) (cols : list (string * list float))
  : list (string * list float) :=
  match cols with
  | [] => []
  | (k, old) :: rest =>
      if String.eqb c k then (k, v) :: replace_col c v rest
      else (k, old) :: replace_col c v rest
  end.

(** [df[c] = v] for a 1-D array [v]: the length must be the table's; an
    existing column keeps its place, a new one goes last. *)
Definition setitem (df : DataFrame) (c : string) (v : list float) : result DataFrame :=
  if Nat.eqb (List.length v) (nrows df) then
    if mem c (names df)
    then Ok (mkDF (nrows df) (replace_col c v (columns df)))
    else Ok (mkDF (nrows df) (columns df ++ [(c, v)]))
  else Raise (ValueError ("Length of values (" ++ str_of_nat (List.length v)
                          ++ ") does not match length of index ("
                          ++ str_of_nat (nrows df) ++ ")")).

(** [df[c] = None]: the scalar is broadcast; pandas reads [None] as missing. *)
Definition setitem_none (df : DataFrame) (c : string) : result DataFrame :=
  setitem df c (np_full (nrows df) np_nan).

(** [df[labels]] for a list of labels: the columns in the order asked. *)
Fixpoint select (cols : list (string * list float)) (labels : list string)
  : result (list (string * list float)) :=
  match labels with
  | [] => Ok []
  | c :: rest =>
      match lookup c cols with
      | Some v => tl <- select cols rest ;; Ok ((c, v) :: tl)
      | None => Raise (KeyError c)
      end
  end.

Definition getitem_list (df : DataFrame) (labels : list string) : result DataFrame :=
  cs <- select (columns df) labels ;; Ok (mkDF (nrows df) cs).

(** [pd.concat(frames, axis=1)] for frames over the same index. *)
Definition concat_axis1 (frames : list DataFrame) : DataFrame :=
  mkDF (match frames with [] => 0 | f :: _ => nrows f end)
       (flat_map columns frames).

(** ** The environment of one run

    Everything the scripts obtain from outside: the loaded images, the lines
    of the motion file, and what each external tool returned (or raised). *)

(** The value of an attribute of a nipype [outputs] object: a string, or
    anything else (nipype's [Undefined], [None], a list ...). *)
Inductive pyval : Type :=
| PStr (s : string)
| PUndefined.

Definition Outputs : Type := list (string * pyval).

Record Env : Type := mkEnv {
  (** [nib.load(args.bold).shape] and the frames of the volume, each one
      flattened over the voxel grid *)
  bold_shape : list nat;
  bold_frames : list (list float);
  (** the lines of numbers of [args.mcpar] *)
  mcpar_lines : list (list float);
  (** [resample_to_img(aseg, bold, "nearest")] cast to [int32] and flattened,
      or the exception raised on the way *)
  aseg_resampled : result (list Z);
  (** [scipy.ndimage.binary_dilation(mask, iterations=n)] *)
  binary_dilation : nat -> list bool -> list bool;
  (** [FramewiseDisplacement().run(...).outputs], [ComputeDVARS()...],
      and [CompCor()...] for a mask and a header prefix *)
  fd_run : result Outputs;
  dvars_run : result Outputs;
  cc_run : list bool -> string -> result Outputs;
  (** [os.path.exists], [pd.read_csv(path, ...)], and whether
      [np.loadtxt(path)] on an output file raises *)
  path_exists : string -> bool;
  read_csv : string -> result DataFrame;
  loadtxt_output : string -> result unit;
  (** nilearn's private [_cosine_drift] as the script imports and calls it:
      [None] when the import or the call raises *)
  nilearn_cosine_drift : float -> list float -> float -> option Matrix;
  (** [np.cos] on one number *)
  np_cos : float -> float
}.

Record Args : Type := mkArgs {
  tr : float;
  gm_dilate_iter : Z;
  acompcor_variance : float
}.

Record Masks : Type := mkMasks {
  brain_mask : list bool;
  wm_mask : list bool;
  csf_mask : list bool;
  wmcsf_mask : list bool
}.

(** ** Functions the two [s04_generate_confounds_nipy.py] scripts share

    ([aseg_to_masks], [load_mcflirt_par], [read_single_column_numeric],
    [pick_existing_output], [mean_signal] and [run_fd] are the same text in
    both files.) *)

Definition WM_LABELS : list Z := [2; 41]%Z.
Definition GM_CORTEX_LABELS : list Z := [3; 42]%Z.
Definition CSF_LABELS : list Z := [4; 43; 14; 15; 24]%Z.

(** [np.isin(aseg, labels)] *)
Definition isin (aseg : list Z) (labels : list Z) : list bool :=
  map (fun v => existsb (Z.eqb v) labels) aseg.

Definition zip_with {A B C : Type} (f : A -> B -> C) (a : list A) (b : list B) : list C :=
  map (fun p => f (fst p) (snd p)) (combine a b).

Definition aseg_to_masks (env : Env) (gm_dilate_iter : Z) : result Masks :=
  aseg <- aseg_resampled env ;;
  let brain := map (fun v => Z.ltb 0 v) aseg in
  let wm := isin aseg WM_LABELS in
  let gm := isin aseg GM_CORTEX_LABELS in
  let csf := isin aseg CSF_LABELS in
  let gm_dil := if Z.ltb 0 gm_dilate_iter
                then binary_dilation env (Z.to_nat gm_dilate_iter) gm else gm in
  let wm_clean := zip_with andb wm (map negb gm_dil) in
  let csf_clean := zip_with andb csf (map negb gm_dil) in
  let wmcsf := zip_with orb wm_clean csf_clean in
  Ok (mkMasks brain wm_clean csf_clean wmcsf).

(** [gm_dil] of [aseg_to_masks]: the cortex mask, dilated when
    [gm_dilate_iter > 0]. *)
Definition dilated_cortex (env : Env) (gm_dilate_iter : Z) (aseg : list Z) : list bool :=
  if Z.ltb 0 gm_dilate_iter
  then binary_dilation env (Z.to_nat gm_dilate_iter) (isin aseg GM_CORTEX_LABELS)
  else isin aseg GM_CORTEX_LABELS.

Definition load_mcflirt_par (lines : list (list float)) : result ndarray :=
  mp <- np_loadtxt lines ;;
  if negb (Nat.eqb (ndim mp) 2) || negb (Nat.eqb (nth 1 (shape mp) 0) 6)
  then Raise (ValueError ("Expected Nx6 motion params, got " ++ str_of_shape (shape mp)))
  else Ok mp.

(** [df.iloc[:, 0]] of the table read from [path]. *)
Definition read_single_column_numeric (env : Env) (path : string) : result (list float) :=
  if negb (path_exists env path)
  then Raise (FileNotFoundError ("Expected output file not found: " ++ path))
  else
    df <- read_csv env path ;;
    match columns df with
    | [] => Raise (IndexError "single positional indexer is out-of-bounds")
    | (_, v) :: _ => Ok v
    end.

(** [getattr(outputs, c)] when [hasattr(outputs, c)] and the value is a
    non-empty string. *)
Fixpoint getattr_str (outputs : Outputs) (c : string) : option string :=
  match outputs with
  | [] => None
  | (k, v) :: rest =>
      if String.eqb c k
      then match v with
           | PStr s => if String.eqb s "" then None else Some s
           | PUndefined => None
           end
      else getattr_str rest c
  end.

Fixpoint first_path (ok : string -> bool) (outputs : Outputs) (candidates : list string)
  : option string :=
  match candidates with
  | [] => None
  | c :: rest =>
      match getattr_str outputs c with
      | Some p => if ok p then Some p else first_path ok outputs rest
      | None => first_path ok outputs rest
      end
  end.

Definition pick_existing_output (env : Env) (outputs : Outputs) (candidates : list string)
  : option string :=
  match first_path (path_exists env) outputs candidates with
  | Some p => Some p
  | None => first_path (fun _ => true) outputs candidates
  end.

(** The voxels of one frame that the mask selects. *)
Definition masked (mask : list bool) (frame : list float) : list float :=
  map snd (filter fst (combine mask frame)).

Definition n_voxels (mask : list bool) : nat := List.length (filter (fun b => b) mask).

(** nilearn's [apply_mask(bold_img, mask_img)]: a (T, V) matrix, one row per
    frame, one column per voxel of the mask.  nilearn refuses a mask that
    selects no voxel. *)
Definition apply_mask (frames : list (list float)) (mask : list bool)
  : result (list (list float)) :=
  if Nat.eqb (n_voxels mask) 0
  then Raise (ValueError "The mask is invalid as it is empty")
  else Ok (map (masked mask) frames).

Definition fsum (xs : list float) : float := fold_left PrimFloat.add xs fzero.

(** [X.mean(axis=1)] on one row. *)
Definition row_mean (row : list float) : float :=
  PrimFloat.div (fsum row) (float_of_nat (List.length row)).

(** [shape[i]] of a tuple. *)
Definition shape_at (sh : list nat) (i : nat) : result nat :=
  match nth_error sh i with
  | Some n => Ok n
  | None => Raise (IndexError "tuple index out of range")
  end.

(** [X.shape[1]] is the number of voxels the mask selects. *)
Definition mean_signal (env : Env) (mask : list bool) : result (list float) :=
  X <- apply_mask (bold_frames env) mask ;;
  if Nat.eqb (n_voxels mask) 0
  then t <- shape_at (bold_shape env) 3 ;; Ok (np_full t np_nan)
  else Ok (map row_mean X).

Definition run_fd (env : Env) : result (list float) :=
  outputs <- fd_run env ;;
  match pick_existing_output env outputs ["out_file"; "fd_file"; "framewise_displacement"] with
  | None => Raise (RuntimeError "Could not locate FD output")
  | Some fd_path => read_single_column_numeric env fd_path
  end.

Definition read_if_path (env : Env) (p : option string) : result (option (list float)) :=
  match p with
  | Some path => v <- read_single_column_numeric env path ;; Ok (Some v)
  | None => Ok None
  end.

Definition motion_base : list string :=
  ["trans_x"; "trans_y"; "trans_z"; "rot_x"; "rot_y"; "rot_z"].

(** The six raw columns of [motion_df_from_mcflirt]: translations are
    columns 3..5 of the file, rotations columns 0..2. *)
Definition base_frame (mp : ndarray) : DataFrame :=
  mkDF (nth 0 (shape mp) 0)
       [ ("trans_x", column 3 mp); ("trans_y", column 4 mp); ("trans_z", column 5 mp);
         ("rot_x", column 0 mp); ("rot_y", column 1 mp); ("rot_z", column 2 mp) ].

Definition with_suffix (sfx : string) (cs : list string) : list string :=
  map (fun c => (c ++ sfx)%string) cs.

(** The names of a four-way expansion: raw, derivative, square, squared
    derivative. *)
Definition expansion_names (base : list string) : list string :=
  base ++ with_suffix "_derivative1" base ++ with_suffix "_power2" base
       ++ with_suffix "_derivative1_power2" base.

(** The two messages about the motion file. *)
Definition motion_rows_msg (n T : nat) : string :=
  "Motion rows (" ++ str_of_nat n ++ ") != BOLD timepoints (" ++ str_of_nat T ++ "). "
  ++ "If you dropped volumes, drop matching rows everywhere.".

Definition expected_Nx6_msg (sh : list nat) : string :=
  "Expected Nx6 motion params, got " ++ str_of_shape sh.


(** ** [src/preproc/functional/s04_generate_confounds_nipy.py] *)

Module Preproc.

Definition motion_df_from_mcflirt (lines : list (list float)) : result DataFrame :=
  mp <- load_mcflirt_par lines ;;
  let base := base_frame mp in
  let deriv := map (fun kv => (fst kv, backward_diff (snd kv))) (columns base) in
  let named (sfx : string) (cs : list (string * list float)) :=
    map (fun kv => ((fst kv ++ sfx)%string, snd kv)) cs in
  let power2 := map (fun kv => (fst kv, square (snd kv))) (columns base) in
  let deriv_power2 := map (fun kv => (fst kv, square (snd kv))) deriv in
  Ok (concat_axis1 [ base;
                     mkDF (nrows base) (named "_derivative1" deriv);
                     mkDF (nrows base) (named "_power2" power2);
                     mkDF (nrows base) (named "_derivative1_power2" deriv_power2) ]).

Definition run_dvars (env : Env) : result (option (list float) * option (list float)) :=
  outputs <- dvars_run env ;;
  let std_path := pick_existing_output env outputs ["out_std"; "std_file"; "std_out"] in
  let nstd_path := pick_existing_output env outputs ["out_nstd"; "nstd_file"; "nstd_out"] in
  dvars_std <- read_if_path env std_path ;;
  dvars_nstd <- read_if_path env nstd_path ;;
  Ok (dvars_std, dvars_nstd).

(** The table [pd.read_csv] gives for the components file; the array read
    by [np.loadtxt] just before is overwritten, and a table is never 1-D. *)
Definition run_compcor (env : Env) (mask : list bool) (header_prefix : string)
  : result DataFrame :=
  outputs <- cc_run env mask header_prefix ;;
  match pick_existing_output env outputs ["components_file"] with
  | None => Raise (RuntimeError "Could not locate CompCor components_file")
  | Some comp_path =>
      if negb (path_exists env comp_path)
      then Raise (RuntimeError "Could not locate CompCor components_file")
      else
        _ <- loadtxt_output env comp_path ;;
        read_csv env comp_path
  end.

(** The framewise-displacement step of [main]: a series one short is
    given a leading [0.0]. *)
Definition fd_column (T_bold : nat) (fd_vals : list float) : result (list float) :=
  if negb (Z.eqb (Z.of_nat T_bold) (len fd_vals)) then
    if Z.eqb (len fd_vals) (Z.of_nat T_bold - 1)
    then Ok (fzero :: fd_vals)
    else Raise (ValueError ("FD length (" ++ str_of_Z (len fd_vals)
                            ++ ") != BOLD timepoints (" ++ str_of_nat T_bold ++ ")."))
  else Ok fd_vals.

(** [np.r_[0.0, 0.0, x]]; a [None] there is one (missing) element. *)
Definition r_00 (x : option (list float)) : list float :=
  fzero :: fzero :: match x with Some v => v | None => [np_nan] end.

(** The DVARS step of [main]: when the non-standardized series is two
    short, both series get two leading [0.0]. *)
Definition dvars_columns (T_bold : nat) (dvars_std dvars_nstd : option (list float))
  : option (list float) * option (list float) :=
  match dvars_nstd with
  | Some nstd =>
      if Z.eqb (len nstd) (Z.of_nat T_bold - 2)
      then (Some (r_00 dvars_std), Some (r_00 dvars_nstd))
      else (dvars_std, dvars_nstd)
  | None => (dvars_std, dvars_nstd)
  end.

Definition setitem_opt (df : DataFrame) (c : string) (v : option (list float))
  : result DataFrame :=
  match v with
  | Some x => setitem df c x
  | None => setitem_none df c
  end.

(** [conf["dvars"] = dvars_nstd] and [conf["dvars_standardized"] = dvars_std]
    after that padding. *)
Definition dvars_step (T_bold : nat) (conf : DataFrame)
           (dvars_std dvars_nstd : option (list float)) : result DataFrame :=
  let padded := dvars_columns T_bold dvars_std dvars_nstd in
  conf <- setitem_opt conf "dvars" (snd padded) ;;
  setitem_opt conf "dvars_standardized" (fst padded).

(** [for i in range(acomp.shape[1]): conf[f"{prefix}_{i:02d}"] = acomp[:, i]]:
    [acomp] is a table, and a table indexed by [(slice, int)] raises. *)
Definition add_components (conf : DataFrame) (prefix : string) (acomp : DataFrame)
  : result DataFrame :=
  match columns acomp with
  | [] => Ok conf
  | _ :: _ => Raise (InvalidIndexError "(slice(None, None, None), 0)")
  end.

Definition main (env : Env) (args : Args) : result DataFrame :=
  T <- shape_at (bold_shape env) 3 ;;
  conf <- motion_df_from_mcflirt (mcpar_lines env) ;;
  if negb (Nat.eqb (nrows conf) T)
  then Raise (ValueError ("Motion rows (" ++ str_of_nat (nrows conf)
                          ++ ") != BOLD timepoints (" ++ str_of_nat T ++ "). "
                          ++ "If you dropped volumes, drop matching rows everywhere."))
  else
    masks <- aseg_to_masks env (gm_dilate_iter args) ;;
    fd_vals <- run_fd env ;;
    fd_vals <- fd_column T fd_vals ;;
    conf <- setitem conf "framewise_displacement" fd_vals ;;
    dv <- run_dvars env ;;
    conf <- dvars_step T conf (fst dv) (snd dv) ;;
    acomp_wm <- run_compcor env (wm_mask masks) "a_comp_cor_wm" ;;
    acomp_csf <- run_compcor env (csf_mask masks) "a_comp_cor_csf" ;;
    acomp_wmcsf <- run_compcor env (wmcsf_mask masks) "a_comp_cor" ;;
    conf <- add_components conf "a_comp_cor_wm" acomp_wm ;;
    conf <- add_components conf "a_comp_cor_csf" acomp_csf ;;
    conf <- add_components conf "a_comp_cor" acomp_wmcsf ;;
    gs <- mean_signal env (brain_mask masks) ;;
    conf <- setitem conf "global_signal" gs ;;
    wm <- mean_signal env (wm_mask masks) ;;
    conf <- setitem conf "white_matter" wm ;;
    csf <- mean_signal env (csf_mask masks) ;;
    setitem conf "csf" csf.

End Preproc.

(** ** [src/experimental/s04_generate_confounds_nipy.py] *)

Module StringOrder <: TotalLeBool.
Definition t := string.
Definition leb := String.leb.
Theorem leb_total : forall a1 a2, leb a1 a2 = true \/ leb a2 a1 = true.
Proof. exact String.leb_total. Qed.
End StringOrder.

Module StringSort := Sort StringOrder.

(** Python's [sorted] on a list of strings. *)
Definition sorted (l : list string) : list string := StringSort.sort l.

(** The order [sorted] sorts by. *)
Definition str_le (a b : string) : Prop := String.leb a b = true.

Module Experimental.

(** A loop [for c in columns: out[f(c)] = g(df[c])], as the dict
    comprehensions of [add_fmriprep_expansions] build their tables. *)
Fixpoint derive (df : DataFrame) (sfx : string) (g : list float -> list float)
         (base_cols : list string) : result (list (string * list float)) :=
  match base_cols with
  | [] => Ok []
  | c :: rest =>
      v <- getitem df c ;;
      tl <- derive df sfx g rest ;;
      Ok (((c ++ sfx)%string, g v) :: tl)
  end.

Definition add_fmriprep_expansions (df : DataFrame) (base_cols : list string)
  : result DataFrame :=
  let out := df in
  deriv <- derive out "_derivative1" backward_diff base_cols ;;
  power2 <- derive out "_power2" square base_cols ;;
  deriv_power2 <- derive out "_derivative1_power2"
                         (fun v => square (backward_diff v)) base_cols ;;
  Ok (concat_axis1 [ out; mkDF (nrows out) deriv; mkDF (nrows out) power2;
                     mkDF (nrows out) deriv_power2 ]).

Definition motion_df_from_mcflirt (lines : list (list float)) : result DataFrame :=
  mp <- load_mcflirt_par lines ;;
  add_fmriprep_expansions (base_frame mp) motion_base.

Definition enforce_length_1d (name : string) (x : option (list float)) (T : Z)
           (pad_value : float) : result (list float) :=
  match x with
  | None =>
      if Z.ltb T 0 then Raise (ValueError "negative dimensions are not allowed")
      else Ok (np_full (Z.to_nat T) np_nan)
  | Some x =>
      if Z.eqb (len x) T then Ok x
      else if Z.eqb (len x) (T - 1) || Z.eqb (len x) (T - 2) then
        let n_pad := (T - len x)%Z in
        Ok (np_full (Z.to_nat n_pad) pad_value ++ x)
      else Raise (ValueError (name ++ " length (" ++ str_of_Z (len x)
                              ++ ") != T (" ++ str_of_Z T
                              ++ "), T-1 (" ++ str_of_Z (T - 1)
                              ++ "), or T-2 (" ++ str_of_Z (T - 2) ++ ")."))
  end.

Definition run_dvars (env : Env) : result (option (list float) * option (list float)) :=
  outputs <- dvars_run env ;;
  let std_path := pick_existing_output env outputs ["out_std"; "std_file"; "std_out"] in
  let nstd_path :=
    pick_existing_output env outputs ["out_nstd"; "nstd_file"; "nstd_out"; "out_all"] in
  dvars_std <- read_if_path env std_path ;;
  dvars_nstd <- read_if_path env nstd_path ;;
  Ok (dvars_nstd, dvars_std).

(** [new_cols]: a column keeps a name that starts with [a_comp_cor_],
    any other is renamed after its position. *)
Fixpoint rename_from (i : nat) (cols : list (string * list float))
  : list (string * list float) :=
  match cols with
  | [] => []
  | (c, v) :: rest =>
      (if String.prefix "a_comp_cor_" c then c else ("a_comp_cor_" ++ fmt_02d i)%string, v)
        :: rename_from (S i) rest
  end.

Definition run_acompcor_single (env : Env) (wmcsf : list bool) : result DataFrame :=
  outputs <- cc_run env wmcsf "a_comp_cor" ;;
  match pick_existing_output env outputs ["components_file"] with
  | None => Raise (RuntimeError "Could not locate CompCor components_file")
  | Some comp_path =>
      if negb (path_exists env comp_path)
      then Raise (RuntimeError "Could not locate CompCor components_file")
      else
        comps <- read_csv env comp_path ;;
        Ok (mkDF (nrows comps) (rename_from 0 (columns comps)))
  end.

(** [np.nanstd(col)]: NaNs count as absent; the mean and the mean squared
    deviation are taken over the others. *)
Definition nanstd (col : list float) : float :=
  let arr := map (fun v => if PrimFloat.is_nan v then fzero else v) col in
  let cnt := float_of_nat (List.length (filter (fun v => negb (PrimFloat.is_nan v)) col)) in
  let avg := PrimFloat.div (fsum arr) cnt in
  let dev := map (fun v => if PrimFloat.is_nan v then fzero else PrimFloat.sub v avg) col in
  PrimFloat.sqrt (PrimFloat.div (fsum (square dev)) cnt).

(** [int(np.floor(x))] *)
Definition int_floor (x : float) : result Z :=
  match Prim2SF x with
  | S754_zero _ => Ok 0%Z
  | S754_infinity _ => Raise (OverflowError "cannot convert float infinity to integer")
  | S754_nan => Raise (ValueError "cannot convert float NaN to integer")
  | S754_finite s m e => Ok (Z.shiftl (if s then Z.neg m else Z.pos m) e)
  end.

Definition np_pi : float := 0x1.921fb54442d18p+1%float.
Definition two : float := 2%float.
Definition one : float := 1%float.
(** the literal [1e-12] *)
Definition tol : float := 0x1.19799812dea11p-40%float.

(** [scan_duration = T * float(tr)] *)
Definition scan_duration (T : nat) (tr : float) : float :=
  PrimFloat.mul (float_of_nat T) tr.

(** [2.0 * scan_duration / float(cutoff)] *)
Definition drift_ratio (T : nat) (tr cutoff : float) : float :=
  PrimFloat.div (PrimFloat.mul two (scan_duration T tr)) cutoff.

(** Number of terms of the fallback basis, [K = int(np.floor(...))]; Python
    raises on a division by zero. *)
Definition n_terms (T : nat) (tr cutoff : float) : result Z :=
  if PrimFloat.eqb cutoff fzero
  then Raise (ZeroDivisionError "float division by zero")
  else int_floor (drift_ratio T tr cutoff).

(** Column [k] of the fallback basis over the frames [n = 0 .. T-1]:
    [np.cos((np.pi * (2.0 * n + 1.0) * k) / (2.0 * T))]. *)
Definition dct_column (env : Env) (T : nat) (k : Z) : list float :=
  map (fun n : nat =>
         np_cos env
           (PrimFloat.div
              (PrimFloat.mul
                 (PrimFloat.mul np_pi
                    (PrimFloat.add (PrimFloat.mul two (float_of_nat n)) one))
                 (float_of_Z k))
              (PrimFloat.mul two (float_of_nat T))))
      (seq 0 T).

(** [range(1, K + 1)] *)
Definition range1 (K : Z) : list Z := map Z.of_nat (seq 1 (Z.to_nat K)).

(** The columns that pass [np.nanstd(C[:, j]) > 1e-12]. *)
Definition prune (cols : list (list float)) : list (list float) :=
  filter (fun col => PrimFloat.ltb tol (nanstd col)) cols.

(** [cosine_XX] names for [range(C.shape[1])]. *)
Definition cosine_names (n : nat) : list string :=
  map (fun i => ("cosine_" ++ fmt_02d i)%string) (seq 0 n).

(** A column is numerically constant when it fails that test. *)
Definition non_constant (col : list float) : Prop :=
  PrimFloat.ltb tol (nanstd col) = true.

(** The pruning and naming that end [cosine_drift_terms]. *)
Definition drift_frame (T : nat) (C : Matrix) : DataFrame :=
  match prune (m_cols C) with
  | [] => mkDF T []
  | kept => mkDF (m_nrows C) (combine (cosine_names (List.length kept)) kept)
  end.

(** [np.arange(T, dtype=float) * float(tr)] *)
Definition frame_times (T : nat) (tr : float) : list float :=
  map (fun n => PrimFloat.mul (float_of_nat n) tr) (seq 0 T).

(** The candidate columns of the fallback basis, [k = 1 .. K]. *)
Definition dct_columns (env : Env) (T : nat) (K : Z) : list (list float) :=
  map (dct_column env T) (range1 K).

Definition cosine_drift_terms (env : Env) (T : nat) (tr cutoff : float) : result DataFrame :=
  match nilearn_cosine_drift env tr (frame_times T tr) cutoff with
  | Some C => Ok (drift_frame T C)
  | None =>
      K <- n_terms T tr cutoff ;;
      if Z.ltb K 1 then Ok (mkDF T [])
      else Ok (drift_frame T (mkMatrix T (dct_columns env T K)))
  end.

(** [for c in src.columns: conf[c] = src[c].to_numpy(dtype=float)]; a label
    that occurs twice in [src] selects a 2-D block, which cannot be set as
    one column. *)
Fixpoint copy_columns (conf src : DataFrame) (cs : list string) : result DataFrame :=
  match cs with
  | [] => Ok conf
  | c :: rest =>
      if Nat.ltb 1 (count_occ string_dec (names src) c)
      then Raise (ValueError "Expected a 1D array, got an array with 2 dimensions")
      else
        v <- getitem src c ;;
        conf' <- setitem conf c v ;;
        copy_columns conf' src rest
  end.

Definition gs_base : list string := ["global_signal"; "white_matter"; "csf"].

(** [c.startswith("a_comp_cor_")] and [c.startswith("cosine_")] *)
Definition is_acomp (c : string) : bool := String.prefix "a_comp_cor_" c.
Definition is_cosine (c : string) : bool := String.prefix "cosine_" c.

(** The "fMRIPrep-ish ordering" of [main], on the column labels of [conf]. *)
Definition preferred (cols : list string) : list string :=
  let motion_deriv := with_suffix "_derivative1" motion_base in
  let motion_pow2 := with_suffix "_power2" motion_base in
  let motion_deriv_pow2 := with_suffix "_derivative1_power2" motion_base in
  let gs_deriv := with_suffix "_derivative1" gs_base in
  let gs_pow2 := with_suffix "_power2" gs_base in
  let gs_deriv_pow2 := with_suffix "_derivative1_power2" gs_base in
  let acomp_cols := sorted (filter is_acomp cols) in
  let cosine_cols := sorted (filter is_cosine cols) in
  motion_base ++ motion_deriv ++ motion_pow2 ++ motion_deriv_pow2 ++
  gs_base ++ gs_deriv ++ gs_pow2 ++ gs_deriv_pow2 ++
  ["framewise_displacement"; "dvars"; "std_dvars"] ++
  acomp_cols ++
  cosine_cols.

Definition remaining (cols : list string) : list string :=
  filter (fun c => negb (mem c (preferred cols))) cols.

Definition column_order (cols : list string) : list string :=
  preferred cols ++ remaining cols.

(** The columns with a fixed place. *)
Definition fixed_columns : list string :=
  expansion_names motion_base ++ expansion_names gs_base
  ++ ["framewise_displacement"; "dvars"; "std_dvars"].

(** A column that the preferred order places. *)
Definition classified (c : string) : bool :=
  mem c fixed_columns || is_acomp c || is_cosine c.

(** [conf] as it stands just before the ordering step. *)
Definition gather (env : Env) (args : Args) : result DataFrame :=
  if negb (Nat.eqb (List.length (bold_shape env)) 4)
  then Raise (ValueError "BOLD must be 4D.")
  else
    let T := nth 3 (bold_shape env) 0 in
    mp <- load_mcflirt_par (mcpar_lines env) ;;
    if negb (Nat.eqb (nth 0 (shape mp) 0) T)
    then Raise (ValueError ("Motion rows (" ++ str_of_nat (nth 0 (shape mp) 0)
                            ++ ") != BOLD timepoints (" ++ str_of_nat T ++ "). "
                            ++ "If you dropped volumes, drop matching rows everywhere."))
    else
      masks <- aseg_to_masks env (gm_dilate_iter args) ;;
      conf <- motion_df_from_mcflirt (mcpar_lines env) ;;
      gs <- mean_signal env (brain_mask masks) ;;
      conf <- setitem conf "global_signal" gs ;;
      wm <- mean_signal env (wm_mask masks) ;;
      conf <- setitem conf "white_matter" wm ;;
      csf <- mean_signal env (csf_mask masks) ;;
      conf <- setitem conf "csf" csf ;;
      conf <- add_fmriprep_expansions conf gs_base ;;
      fd_vals <- run_fd env ;;
      fd <- enforce_length_1d "framewise_displacement" (Some fd_vals) (Z.of_nat T) np_nan ;;
      conf <- setitem conf "framewise_displacement" fd ;;
      dv <- run_dvars env ;;
      dvars <- enforce_length_1d "dvars" (fst dv) (Z.of_nat T) np_nan ;;
      conf <- setitem conf "dvars" dvars ;;
      std_dvars <- enforce_length_1d "std_dvars" (snd dv) (Z.of_nat T) np_nan ;;
      conf <- setitem conf "std_dvars" std_dvars ;;
      acomps <- run_acompcor_single env (wmcsf_mask masks) ;;
      if negb (Nat.eqb (nrows acomps) T)
      then Raise (ValueError ("aCompCor rows (" ++ str_of_nat (nrows acomps)
                              ++ ") != BOLD timepoints (" ++ str_of_nat T ++ ")."))
      else
        conf <- copy_columns conf acomps (names acomps) ;;
        cos <- cosine_drift_terms env T (tr args) 128%float ;;
        copy_columns conf cos (names cos).

(** The table [main] writes. *)
Definition main (env : Env) (args : Args) : result DataFrame :=
  conf <- gather env args ;;
  getitem_list conf (column_order (names conf)).

End Experimental.

(** ** [src/experimental/s04_generate_confounds_old.py]: framewise displacement
       and spike regressors *)

Module Old.

Definition radius : float := 50%float.

(** [load_motion] on a [.par] file: the three rotation columns, which come
    first, are scaled by the head radius. *)
Definition load_motion (rows : list (list float)) : list (list float) :=
  map (fun r => map (fun v => PrimFloat.mul v radius) (firstn 3 r) ++ skipn 3 r) rows.

(** [motion.diff()]: the first row has no predecessor. *)
Fixpoint diff_rows (prev : list float) (rows : list (list float)) : list (list float) :=
  match rows with
  | [] => []
  | r :: rest => zip_with PrimFloat.sub r prev :: diff_rows r rest
  end.

Definition diff (rows : list (list float)) : list (list float) :=
  match rows with
  | [] => []
  | r :: rest => map (fun _ => np_nan) r :: diff_rows r rest
  end.

(** [.sum(1)]: missing entries are skipped. *)
Definition nansum (xs : list float) : float :=
  fsum (map (fun v => if PrimFloat.is_nan v then fzero else v) xs).

Definition fillna0 (v : float) : float := if PrimFloat.is_nan v then fzero else v.

(** [fd = motion.diff().abs().sum(1).fillna(0)] of [motion_metrics]. *)
Definition framewise_displacement (motion : list (list float)) : list float :=
  map (fun r => fillna0 (nansum (map PrimFloat.abs r))) (diff motion).

(** [np.where(outliers)[0]]: the positions that hold [True], counted from
    [i]. *)
Fixpoint where_true (i : nat) (flags : list bool) : list nat :=
  match flags with
  | [] => []
  | b :: rest => if b then i :: where_true (S i) rest else where_true (S i) rest
  end.

(** [spike = np.zeros(n); spike[idx] = 1] *)
Definition spike (n idx : nat) : list float :=
  map (fun j => if Nat.eqb j idx then 1%float else fzero) (seq 0 n).

(** [(fd > fd_thresh) | (dvars > dvars_thresh)] *)
Definition outliers (fd dvars : list float) (fd_thresh dvars_thresh : float) : list bool :=
  zip_with orb (map (fun v => PrimFloat.ltb fd_thresh v) fd)
               (map (fun v => PrimFloat.ltb dvars_thresh v) dvars).

(** [for i, idx in enumerate(...): df[f"motion_outlier_{i}"] = spike],
    from the counter [i] on. *)
Fixpoint add_spikes (df : DataFrame) (i : nat) (idxs : list nat) : result DataFrame :=
  match idxs with
  | [] => Ok df
  | idx :: rest =>
      df' <- setitem df ("motion_outlier_" ++ str_of_nat i) (spike (nrows df) idx) ;;
      add_spikes df' (S i) rest
  end.

(** [motion_metrics] on the loaded motion table and the series [dvars] that
    the DVARS helper returned: a table cannot be built from a series and an
    array of another length. *)
Definition motion_metrics (motion : list (list float)) (dvars : list float)
           (fd_thresh dvars_thresh : float) : result DataFrame :=
  let fd := framewise_displacement motion in
  if negb (Nat.eqb (List.length dvars) (List.length fd))
  then Raise (ValueError ("array length " ++ str_of_nat (List.length dvars)
                          ++ " does not match index length "
                          ++ str_of_nat (List.length fd)))
  else
    let df := mkDF (List.length fd) [("framewise_displacement", fd); ("dvars", dvars)] in
    add_spikes df 0 (where_true 0 (outliers fd dvars fd_thresh dvars_thresh)).

End Old.

(** ** A reference environment for concrete runs

    [ref_cos] stands for the platform's cosine when a run is evaluated: the
    argument is reduced to one period and a Maclaurin polynomial of degree 32
    is applied.  It differs from [np.cos] by rounding in the last digits only;
    the general theorems below hold for any [np_cos]. *)

Module Ref.

Definition two_pi : float := 0x1.921fb54442d18p+2%float.

Fixpoint horner (k : nat) (r2 acc : float) : float :=
  match k with
  | O => acc
  | S k' =>
      let d := float_of_nat ((2 * k - 1) * (2 * k)) in
      horner k' r2 (PrimFloat.sub 1%float (PrimFloat.mul (PrimFloat.div r2 d) acc))
  end.

Definition ref_cos (x : float) : float :=
  match Experimental.int_floor
          (PrimFloat.add (PrimFloat.div x two_pi) 0.5%float) with
  | Ok q =>
      let r := PrimFloat.sub x (PrimFloat.mul (float_of_Z q) two_pi) in
      horner 16 (PrimFloat.mul r r) 1%float
  | Raise _ => np_nan
  end.

Definition one_col (name : string) (v : list float) : DataFrame :=
  mkDF (List.length v) [(name, v)].

(** The tables read back from the tools' output files. *)
Definition files (path : string) : result DataFrame :=
  if String.eqb path "fd_power_2012.txt"
  then Ok (one_col "FramewiseDisplacement" [0.25; 0.5]%float)
  else if String.eqb path "dvars.std"
  then Ok (one_col "std_DVARS" [1.25; 1.5]%float)
  else if String.eqb path "dvars.nstd"
  then Ok (one_col "non-std_DVARS" [20; 24]%float)
  else if String.eqb path "components_file.txt"
  then Ok (mkDF 3 [ ("a_comp_cor_01", [0.5; -0.25; -0.25]%float);
                    ("a_comp_cor_00", [0.125; 0.25; -0.375]%float) ])
  else Raise (FileNotFoundError path).

(** [scipy.ndimage.binary_dilation] with its default structuring element on
    the 2 x 2 x 1 grid of the reference volume, flattened in C order: one
    iteration adds to a mask the face neighbours of its voxels (voxels 0 and
    3 are each adjacent to voxels 1 and 2). *)
Definition dilate_once (m : list bool) : list bool :=
  match m with
  | [a; b; c; d] => [a || b || c; b || a || d; c || a || d; d || b || c]
  | _ => m
  end.

Definition dilation (n : nat) (m : list bool) : list bool := Nat.iter n dilate_once m.

(** A run of three frames over four voxels (white matter, CSF, cortex,
    background), with tool outputs of the usual lengths: framewise
    displacement and DVARS one value short, two CompCor components.  It is
    run without dilation of the cortex mask ([args]), which would take the
    white-matter voxel away. *)
Definition env : Env :=
  {| bold_shape := [2; 2; 1; 3];
     bold_frames := [ [100; 200; 300; 0]; [102; 198; 303; 0]; [101; 202; 297; 0] ]%float;
     mcpar_lines := [ [0; 0; 0; 0; 0; 0];
                      [0.125; 0.25; 0; 0.5; 0.25; -0.5];
                      [0.25; 0.25; 0.125; 1.5; 0.5; -0.5] ]%float;
     aseg_resampled := Ok [2; 4; 3; 0]%Z;
     binary_dilation := dilation;
     fd_run := Ok [("out_file", PStr "fd_power_2012.txt")];
     dvars_run := Ok [ ("out_all", PUndefined);
                       ("out_nstd", PStr "dvars.nstd");
                       ("out_std", PStr "dvars.std") ];
     cc_run := fun _ _ => Ok [("components_file", PStr "components_file.txt")];
     path_exists := fun p => is_ok (files p);
     read_csv := files;
     loadtxt_output := fun _ => Raise (ValueError "could not convert string to float");
     nilearn_cosine_drift := fun _ _ _ => None;
     np_cos := ref_cos |}.

Definition args : Args :=
  {| tr := 30%float; gm_dilate_iter := 0; acompcor_variance := 0.5%float |}.

(** Fifty lines of motion parameters against a volume of 49 frames. *)
Definition env_50_49 : Env :=
  {| bold_shape := [2; 2; 1; 49];
     bold_frames := repeat [100; 200; 300; 0]%float 49;
     mcpar_lines := repeat [0; 0; 0; 0; 0; 0]%float 50;
     aseg_resampled := aseg_resampled env;
     binary_dilation := binary_dilation env;
     fd_run := fd_run env;
     dvars_run := dvars_run env;
     cc_run := cc_run env;
     path_exists := path_exists env;
     read_csv := read_csv env;
     loadtxt_output := loadtxt_output env;
     nilearn_cosine_drift := nilearn_cosine_drift env;
     np_cos := np_cos env |}.

(** A volume of two frames with a motion file of one line only. *)
Definition env_one_line : Env :=
  {| bold_shape := [2; 2; 1; 2];
     bold_frames := [ [100; 200; 300; 0]; [102; 198; 303; 0] ]%float;
     mcpar_lines := [ [0.125; 0.25; 0; 0.5; 0.25; -0.5] ]%float;
     aseg_resampled := aseg_resampled env;
     binary_dilation := binary_dilation env;
     fd_run := fd_run env;
     dvars_run := dvars_run env;
     cc_run := cc_run env;
     path_exists := path_exists env;
     read_csv := read_csv env;
     loadtxt_output := loadtxt_output env;
     nilearn_cosine_drift := nilearn_cosine_drift env;
     np_cos := np_cos env |}.

(** The reference run with a segmentation that is zero everywhere.  For a
    mask that selects no voxel the CompCor tool writes a components file
    without text: [np.loadtxt] returns an empty array for it, and
    [pd.read_csv] raises. *)
Definition env_zero_seg : Env :=
  {| bold_shape := bold_shape env;
     bold_frames := bold_frames env;
     mcpar_lines := mcpar_lines env;
     aseg_resampled := Ok [0; 0; 0; 0]%Z;
     binary_dilation := binary_dilation env;
     fd_run := fd_run env;
     dvars_run := dvars_run env;
     cc_run := fun mask prefix =>
                 if Nat.eqb (n_voxels mask) 0
                 then Ok [("components_file", PStr "components_empty_mask.txt")]
                 else cc_run env mask prefix;
     path_exists := fun p => String.eqb p "components_empty_mask.txt" || path_exists env p;
     read_csv := fun p => if String.eqb p "components_empty_mask.txt"
                          then Raise (EmptyDataError "No columns to parse from file")
                          else read_csv env p;
     loadtxt_output := fun p => if String.eqb p "components_empty_mask.txt"
                                then Ok tt
                                else loadtxt_output env p;
     nilearn_cosine_drift := nilearn_cosine_drift env;
     np_cos := np_cos env |}.

(** A volume of one frame with its one line of motion parameters. *)
Definition env_single_frame : Env :=
  {| bold_shape := [2; 2; 1; 1];
     bold_frames := [ [100; 200; 300; 0] ]%float;
     mcpar_lines := [ [0.125; 0.25; 0; 0.5; 0.25; -0.5] ]%float;
     aseg_resampled := aseg_resampled env;
     binary_dilation := binary_dilation env;
     fd_run := fd_run env;
     dvars_run := dvars_run env;
     cc_run := cc_run env;
     path_exists := path_exists env;
     read_csv := read_csv env;
     loadtxt_output := loadtxt_output env;
     nilearn_cosine_drift := nilearn_cosine_drift env;
     np_cos := np_cos env |}.

End Ref.

(** * Facts about tables *)

Section TableFacts.

Implicit Types (df : DataFrame) (c : string) (v : list float).

Lemma mem_In c l : mem c l = true <-> In c l.
Proof.
  unfold mem. rewrite existsb_exists. split.
  - intros (x & Hin & Heq). apply String.eqb_eq in Heq. now subst.
  - intros Hin. exists c. split; [assumption | apply String.eqb_refl].
Qed.

Lemma lookup_replace_col c c' v cols :
  lookup c' (replace_col c v cols) =
  if String.eqb c' c
  then match lookup c cols with Some _ => Some v | None => None end
  else lookup c' cols.
Proof.
  induction cols as [|[k old] rest IH]; simpl.
  - now destruct (String.eqb c' c).
  - destruct (String.eqb c k) eqn:Eck; simpl.
    + apply String.eqb_eq in Eck. subst k.
      destruct (String.eqb c' c) eqn:Ec'; [reflexivity | exact IH].
    + destruct (String.eqb c' k) eqn:Ec'k.
      * apply String.eqb_eq in Ec'k. subst k.
        rewrite String.eqb_sym, Eck. reflexivity.
      * exact IH.
Qed.

Lemma lookup_app c cols cols' :
  lookup c (cols ++ cols') =
  match lookup c cols with Some x => Some x | None => lookup c cols' end.
Proof.
  induction cols as [|[k old] rest IH]; simpl; [reflexivity|].
  now destruct (String.eqb c k).
Qed.

Lemma lookup_None_iff c cols : lookup c cols = None <-> ~ In c (map fst cols).
Proof.
  induction cols as [|[k old] rest IH]; simpl.
  - tauto.
  - destruct (String.eqb c k) eqn:E.
    + apply String.eqb_eq in E. subst. split; [discriminate | tauto].
    + apply String.eqb_neq in E. rewrite IH. split.
      * intros Hn [Hk | Hin]; [now apply E | now apply Hn].
      * tauto.
Qed.

Lemma names_replace_col c v cols : map fst (replace_col c v cols) = map fst cols.
Proof.
  induction cols as [|[k old] rest IH]; simpl; [reflexivity|].
  destruct (String.eqb c k); simpl; now rewrite IH.
Qed.

Lemma setitem_Ok df c v df' :
  setitem df c v = Ok df' ->
  List.length v = nrows df /\ nrows df' = nrows df /\
  names df' = (if mem c (names df) then names df else names df ++ [c]) /\
  lookup c (columns df') = Some v /\
  (forall c', c' <> c -> lookup c' (columns df') = lookup c' (columns df)).
Proof.
  unfold setitem.
  destruct (Nat.eqb (List.length v) (nrows df)) eqn:El; [|discriminate].
  apply Nat.eqb_eq in El.
  destruct (mem c (names df)) eqn:Em; intros H; inversion H; subst; clear H;
    unfold names; simpl.
  - repeat split; try assumption.
    + apply names_replace_col.
    + rewrite lookup_replace_col, String.eqb_refl.
      destruct (lookup c (columns df)) eqn:L; [reflexivity|].
      apply lookup_None_iff in L. apply mem_In in Em. contradiction.
    + intros c' Hne. rewrite lookup_replace_col.
      apply String.eqb_neq in Hne. now rewrite Hne.
  - assert (Hnot : lookup c (columns df) = None).
    { apply lookup_None_iff. intros Hin. apply mem_In in Hin.
      unfold names in Em. congruence. }
    repeat split; try assumption.
    + now rewrite map_app.
    + rewrite lookup_app, Hnot. simpl. now rewrite String.eqb_refl.
    + intros c' Hne. rewrite lookup_app.
      destruct (lookup c' (columns df)); [reflexivity|].
      simpl. apply String.eqb_neq in Hne. now rewrite Hne.
Qed.

Lemma setitem_length_mismatch df c v :
  List.length v <> nrows df ->
  setitem df c v =
  Raise (ValueError ("Length of values (" ++ str_of_nat (List.length v)
                     ++ ") does not match length of index ("
                     ++ str_of_nat (nrows df) ++ ")")).
Proof.
  intros H. unfold setitem. apply Nat.eqb_neq in H. now rewrite H.
Qed.

Lemma select_names cols labels cs :
  select cols labels = Ok cs -> map fst cs = labels.
Proof.
  revert cs. induction labels as [|c rest IH]; simpl; intros cs H.
  - now inversion H.
  - destruct (lookup c cols); [|discriminate].
    destruct (select cols rest) as [tl|e]; simpl in H; [|discriminate].
    inversion H; subst. simpl. f_equal. now apply IH.
Qed.

Lemma select_lengths cols labels cs n :
  Forall (fun kv => List.length (snd kv) = n) cols ->
  select cols labels = Ok cs ->
  Forall (fun kv => List.length (snd kv) = n) cs.
Proof.
  intros Hall. revert cs. induction labels as [|c rest IH]; simpl; intros cs H.
  - inversion H. constructor.
  - destruct (lookup c cols) eqn:L; [|discriminate].
    destruct (select cols rest) as [tl|e]; simpl in H; [|discriminate].
    inversion H; subst. constructor; [|now apply IH].
    simpl. clear -Hall L. induction cols as [|[k old] r IHc]; [discriminate|].
    simpl in L. inversion Hall; subst.
    destruct (String.eqb c k); [inversion L; now subst | now apply IHc].
Qed.

Lemma np_full_length n x : List.length (np_full n x) = n.
Proof. apply repeat_length. Qed.

Lemma len_nat {A : Type} (x : list A) (n : nat) :
  len x = Z.of_nat n <-> List.length x = n.
Proof. unfold len. lia. Qed.

End TableFacts.

Lemma bind_Ok {A B : Type} (r : result A) (k : A -> result B) (b : B) :
  bind r k = Ok b -> exists a, r = Ok a /\ k a = Ok b.
Proof. destruct r as [a|e]; simpl; [eauto | discriminate]. Qed.

(** One step through a successful run: a bind, or a guard that raises. *)
Ltac step H :=
  lazymatch type of H with
  | bind ?r ?k = Ok _ =>
      let a := fresh "a" in
      let Ha := fresh "Ha" in
      apply bind_Ok in H; destruct H as (a & Ha & H); cbv beta in H
  | (if ?c then Raise _ else _) = Ok _ =>
      let E := fresh "E" in
      destruct c eqn:E; [discriminate H|]
  end.

(** * The motion file: loading and the 24-column expansion *)

Section MotionFile.

Lemma load_mcflirt_par_bad lines a :
  np_loadtxt lines = Ok a ->
  ndim a <> 2 \/ nth 1 (shape a) 0 <> 6 ->
  load_mcflirt_par lines = Raise (ValueError (expected_Nx6_msg (shape a))).
Proof.
  intros L H. unfold load_mcflirt_par. rewrite L. simpl.
  assert (E : negb (Nat.eqb (ndim a) 2) || negb (Nat.eqb (nth 1 (shape a) 0) 6) = true).
  { apply orb_true_iff. destruct H as [H|H]; [left|right];
      apply negb_true_iff; now apply Nat.eqb_neq. }
  now rewrite E.
Qed.

(** One line of numbers is squeezed to fewer than two dimensions. *)
Lemma np_loadtxt_one_line row :
  np_loadtxt [row] = Ok (match row with [v] => Arr0 v | _ => Arr1 row end).
Proof.
  unfold np_loadtxt, data_rows. destruct row as [|v [|w rest]]; reflexivity.
Qed.

Lemma load_mcflirt_par_one_line row :
  load_mcflirt_par [row]
  = Raise (ValueError (expected_Nx6_msg
                         (match row with [_] => [] | _ => [List.length row] end))).
Proof.
  rewrite (load_mcflirt_par_bad [row] _ (np_loadtxt_one_line row)).
  - destruct row as [|v [|w rest]]; reflexivity.
  - left. destruct row as [|v [|w rest]]; cbv; lia.
Qed.

Lemma load_mcflirt_par_Nx6 lines :
  2 <= List.length (data_rows lines) ->
  Forall (fun r => List.length r = 6) (data_rows lines) ->
  load_mcflirt_par lines
  = Ok (Arr2 (List.length (data_rows lines)) 6 (data_rows lines)).
Proof.
  intros Hn Hall. unfold load_mcflirt_par, np_loadtxt.
  destruct (data_rows lines) as [|r0 [|r1 rest]] eqn:E; simpl in Hn; try lia.
  inversion Hall as [|? ? H0 Hrest]; subst.
  assert (Hf : forallb (fun r => Nat.eqb (List.length r) 6) (r1 :: rest) = true).
  { apply forallb_forall. intros r Hin. rewrite Forall_forall in Hrest.
    apply Nat.eqb_eq. now apply Hrest. }
  cbv zeta. rewrite H0, Hf.
  do 7 (destruct r0 as [|? r0]; try discriminate H0).
  reflexivity.
Qed.

(** A file the loader accepts has at least two lines of six numbers. *)
Lemma load_mcflirt_par_Ok lines mp :
  load_mcflirt_par lines = Ok mp ->
  mp = Arr2 (List.length (data_rows lines)) 6 (data_rows lines)
  /\ 2 <= List.length (data_rows lines)
  /\ Forall (fun r => List.length r = 6) (data_rows lines).
Proof.
  unfold load_mcflirt_par, np_loadtxt.
  destruct (data_rows lines) as [|r0 rest] eqn:E; [discriminate|].
  cbv zeta.
  destruct (forallb _ rest) eqn:Hf; [|discriminate].
  destruct rest as [|r1 rest].
  - destruct r0 as [|a0 [|a1 r0']]; discriminate.
  - destruct r0 as [|a0 [|a1 r0']]; try discriminate.
    unfold bind, ndim, shape.
    change (List.length [S (List.length (r1 :: rest)); List.length (a0 :: a1 :: r0')])
      with 2.
    change (nth 1 [S (List.length (r1 :: rest)); List.length (a0 :: a1 :: r0')] 0)
      with (List.length (a0 :: a1 :: r0')).
    change (negb (Nat.eqb 2 2)) with false. rewrite orb_false_l.
    destruct (Nat.eqb (List.length (a0 :: a1 :: r0')) 6) eqn:E6; [|discriminate].
    apply Nat.eqb_eq in E6. intros H. inversion H; subst; clear H.
    repeat split.
    + simpl in E6 |- *. now rewrite E6.
    + simpl. lia.
    + constructor; [exact E6|].
      apply Forall_forall. intros r Hin.
      rewrite forallb_forall in Hf. specialize (Hf r Hin).
      apply Nat.eqb_eq in Hf. lia.
Qed.

End MotionFile.

Section MotionGate.

Lemma shape_at_4 sh :
  List.length sh = 4 -> shape_at sh 3 = Ok (nth 3 sh 0).
Proof.
  intros H. do 5 (destruct sh as [|? sh]; try discriminate H). reflexivity.
Qed.

Lemma preproc_motion_df_raise lines e :
  load_mcflirt_par lines = Raise e ->
  Preproc.motion_df_from_mcflirt lines = Raise e.
Proof. intros H. unfold Preproc.motion_df_from_mcflirt. now rewrite H. Qed.

Lemma preproc_motion_df_nrows lines :
  2 <= List.length (data_rows lines) ->
  Forall (fun r => List.length r = 6) (data_rows lines) ->
  exists df, Preproc.motion_df_from_mcflirt lines = Ok df
             /\ nrows df = List.length (data_rows lines).
Proof.
  intros Hn Hall. unfold Preproc.motion_df_from_mcflirt.
  rewrite (load_mcflirt_par_Nx6 lines Hn Hall).
  eexists. split; reflexivity.
Qed.

(** Both [main]s stop at the loader's error. *)
Lemma mains_stop_at_loader env args e :
  List.length (bold_shape env) = 4 ->
  load_mcflirt_par (mcpar_lines env) = Raise e ->
  Preproc.main env args = Raise e /\ Experimental.main env args = Raise e.
Proof.
  intros H4 HL. split.
  - unfold Preproc.main. rewrite (shape_at_4 _ H4).
    unfold bind at 1. now rewrite (preproc_motion_df_raise _ _ HL).
  - unfold Experimental.main, Experimental.gather.
    rewrite H4, HL. reflexivity.
Qed.

(** Both [main]s stop at the row-count check. *)
Lemma mains_stop_at_row_check env args :
  List.length (bold_shape env) = 4 ->
  2 <= List.length (data_rows (mcpar_lines env)) ->
  Forall (fun r => List.length r = 6) (data_rows (mcpar_lines env)) ->
  List.length (data_rows (mcpar_lines env)) <> nth 3 (bold_shape env) 0 ->
  Preproc.main env args
  = Raise (ValueError (motion_rows_msg (List.length (data_rows (mcpar_lines env)))
                                       (nth 3 (bold_shape env) 0)))
  /\ Experimental.main env args
     = Raise (ValueError (motion_rows_msg (List.length (data_rows (mcpar_lines env)))
                                          (nth 3 (bold_shape env) 0))).
Proof.
  intros H4 Hn Hall Hne. apply Nat.eqb_neq in Hne. split.
  - unfold Preproc.main. rewrite (shape_at_4 _ H4).
    destruct (preproc_motion_df_nrows _ Hn Hall) as (df & Hdf & Hrows).
    unfold bind at 1. rewrite Hdf. unfold bind at 1.
    rewrite Hrows, Hne. reflexivity.
  - unfold Experimental.main, Experimental.gather.
    rewrite H4, (load_mcflirt_par_Nx6 _ Hn Hall).
    change (negb (Nat.eqb 4 4)) with false. cbv iota.
    unfold bind at 2.
    change (nth 0 (shape (Arr2 (List.length (data_rows (mcpar_lines env))) 6
                               (data_rows (mcpar_lines env)))) 0)
      with (List.length (data_rows (mcpar_lines env))).
    rewrite Hne. reflexivity.
Qed.

End MotionGate.

(** C10.  A motion file whose parsed array is not two-dimensional with six
    columns makes the loader raise the [ValueError] "Expected Nx6 ..."; a file
    of exactly one line parses as an array of fewer than two dimensions (one
    dimension when the line has six numbers), so the loader refuses it; and
    both pipelines stop with that error, before anything else is computed,
    on every run with a 4-D volume, also when the volume has one frame. *)
Theorem C10_loader_rejects_non_Nx6 :
  (forall lines a,
      np_loadtxt lines = Ok a ->
      ndim a <> 2 \/ nth 1 (shape a) 0 <> 6 ->
      load_mcflirt_par lines = Raise (ValueError (expected_Nx6_msg (shape a))))
  /\ (forall row, List.length row = 6 ->
                  np_loadtxt [row] = Ok (Arr1 row) /\ ndim (Arr1 row) = 1)
  /\ (forall env args lines a,
         mcpar_lines env = lines ->
         List.length (bold_shape env) = 4 ->
         np_loadtxt lines = Ok a ->
         ndim a <> 2 \/ nth 1 (shape a) 0 <> 6 ->
         Preproc.main env args = Raise (ValueError (expected_Nx6_msg (shape a)))
         /\ Experimental.main env args = Raise (ValueError (expected_Nx6_msg (shape a))))
  /\ (forall env args row,
         mcpar_lines env = [row] ->
         List.length row = 6 ->
         List.length (bold_shape env) = 4 ->
         Preproc.main env args = Raise (ValueError "Expected Nx6 motion params, got (6,)")
         /\ Experimental.main env args
            = Raise (ValueError "Expected Nx6 motion params, got (6,)")).
Proof.
  repeat split.
  - apply load_mcflirt_par_bad; assumption.
  - rewrite np_loadtxt_one_line.
    do 7 (destruct row as [|? row]; try discriminate H). reflexivity.
  - subst lines.
    now apply mains_stop_at_loader, load_mcflirt_par_bad.
  - subst lines.
    now apply mains_stop_at_loader, load_mcflirt_par_bad.
  - apply mains_stop_at_loader; [assumption|].
    rewrite H, load_mcflirt_par_one_line.
    do 7 (destruct row as [|? row]; try discriminate H0). reflexivity.
  - apply mains_stop_at_loader; [assumption|].
    rewrite H, load_mcflirt_par_one_line.
    do 7 (destruct row as [|? row]; try discriminate H0). reflexivity.
Qed.

(** C10 on a run of one frame, whose motion file has its one line. *)
Lemma C10_loader_rejects_non_Nx6_witness :
  nth 3 (bold_shape Ref.env_single_frame) 0 = 1
  /\ Preproc.main Ref.env_single_frame Ref.args
     = Raise (ValueError "Expected Nx6 motion params, got (6,)")
  /\ Experimental.main Ref.env_single_frame Ref.args
     = Raise (ValueError "Expected Nx6 motion params, got (6,)").
Proof.
  split; [reflexivity|].
  destruct C10_loader_rejects_non_Nx6 as (_ & _ & _ & H).
  apply (H Ref.env_single_frame Ref.args [0.125; 0.25; 0; 0.5; 0.25; -0.5]%float);
    reflexivity.
Defined.

(** C3 (as amended).  On every run with a 4-D volume of T frames whose motion
    file has N >= 2 lines of six numbers and N <> T, both pipelines stop with
    the [ValueError] "Motion rows (N) != BOLD timepoints (T). ...", which
    names both counts, and no table is returned. *)
Theorem C3_motion_rows_mismatch :
  forall env args,
    List.length (bold_shape env) = 4 ->
    2 <= List.length (data_rows (mcpar_lines env)) ->
    Forall (fun r => List.length r = 6) (data_rows (mcpar_lines env)) ->
    List.length (data_rows (mcpar_lines env)) <> nth 3 (bold_shape env) 0 ->
    Preproc.main env args
    = Raise (ValueError
               ("Motion rows (" ++ str_of_nat (List.length (data_rows (mcpar_lines env)))
                ++ ") != BOLD timepoints (" ++ str_of_nat (nth 3 (bold_shape env) 0)
                ++ "). If you dropped volumes, drop matching rows everywhere."))
    /\ Experimental.main env args
       = Raise (ValueError
                  ("Motion rows (" ++ str_of_nat (List.length (data_rows (mcpar_lines env)))
                   ++ ") != BOLD timepoints (" ++ str_of_nat (nth 3 (bold_shape env) 0)
                   ++ "). If you dropped volumes, drop matching rows everywhere.")).
Proof.
  intros env args H4 Hn Hall Hne.
  exact (mains_stop_at_row_check env args H4 Hn Hall Hne).
Qed.

(** C3 on fifty lines of motion parameters against 49 frames. *)
Lemma C3_motion_rows_mismatch_witness :
  Preproc.main Ref.env_50_49 Ref.args
  = Raise (ValueError ("Motion rows (50) != BOLD timepoints (49). "
                       ++ "If you dropped volumes, drop matching rows everywhere."))
  /\ Experimental.main Ref.env_50_49 Ref.args
     = Raise (ValueError ("Motion rows (50) != BOLD timepoints (49). "
                          ++ "If you dropped volumes, drop matching rows everywhere.")).
Proof.
  apply (C3_motion_rows_mismatch Ref.env_50_49 Ref.args).
  - reflexivity.
  - vm_compute. lia.
  - vm_compute. repeat constructor.
  - vm_compute. lia.
Defined.

(** C3 as stated fails when the motion file has a single line: against a
    volume of two frames the row count (1) differs from T (2), yet the error
    is the loader's, and its message names neither count. *)
Lemma C3_single_line_file_reports_shape :
  List.length (data_rows (mcpar_lines Ref.env_one_line)) = 1
  /\ nth 3 (bold_shape Ref.env_one_line) 0 = 2
  /\ Preproc.main Ref.env_one_line Ref.args
     = Raise (ValueError "Expected Nx6 motion params, got (6,)")
  /\ Experimental.main Ref.env_one_line Ref.args
     = Raise (ValueError "Expected Nx6 motion params, got (6,)").
Proof. repeat split. Qed.

Section MotionExpansion.

Lemma backward_diff_length x : List.length (backward_diff x) = List.length x.
Proof.
  destruct x as [|x0 rest]; [reflexivity|]. simpl. f_equal.
  revert x0. induction rest as [|y rest IH]; intros x0; simpl; [reflexivity|].
  now rewrite IH.
Qed.

Lemma square_length x : List.length (square x) = List.length x.
Proof. apply length_map. Qed.

(** The derivative of a non-empty series starts with an exact zero, and so
    does its square. *)
Lemma backward_diff_first x :
  x <> [] ->
  nth_error (backward_diff x) 0 = Some fzero
  /\ nth_error (square (backward_diff x)) 0 = Some fzero.
Proof.
  destruct x as [|x0 rest]; [congruence|]. intros _. split; reflexivity.
Qed.

Lemma motion_df_value lines :
  2 <= List.length (data_rows lines) ->
  Forall (fun r => List.length r = 6) (data_rows lines) ->
  let mp := Arr2 (List.length (data_rows lines)) 6 (data_rows lines) in
  let raw := columns (base_frame mp) in
  let df :=
    mkDF (List.length (data_rows lines))
         (raw
            ++ map (fun kv => ((fst kv ++ "_derivative1")%string, backward_diff (snd kv))) raw
            ++ map (fun kv => ((fst kv ++ "_power2")%string, square (snd kv))) raw
            ++ map (fun kv => ((fst kv ++ "_derivative1_power2")%string,
                               square (backward_diff (snd kv)))) raw) in
  Preproc.motion_df_from_mcflirt lines = Ok df
  /\ Experimental.motion_df_from_mcflirt lines = Ok df.
Proof.
  intros Hn Hall mp raw df.
  unfold Preproc.motion_df_from_mcflirt, Experimental.motion_df_from_mcflirt.
  rewrite (load_mcflirt_par_Nx6 lines Hn Hall).
  split; reflexivity.
Qed.

End MotionExpansion.

(** C2 (as amended).  For every motion file of T >= 2 lines of six numbers,
    [motion_df_from_mcflirt] (the same table in both pipelines) has T rows and
    24 columns of T entries each: the six raw columns, then their backward
    first differences, their squares and the squares of the differences,
    under the names [c], [c_derivative1], [c_power2], [c_derivative1_power2];
    the first row of every derivative column, and of its square, is exactly
    zero. *)
Theorem C2_motion_expansion :
  forall lines,
    2 <= List.length (data_rows lines) ->
    Forall (fun r => List.length r = 6) (data_rows lines) ->
    exists df,
      Preproc.motion_df_from_mcflirt lines = Ok df
      /\ Experimental.motion_df_from_mcflirt lines = Ok df
      /\ nrows df = List.length (data_rows lines)
      /\ ncols df = 24
      /\ names df = expansion_names motion_base
      /\ Forall (fun kv => List.length (snd kv) = List.length (data_rows lines)) (columns df)
      /\ (forall c raw,
             getitem (base_frame (Arr2 (List.length (data_rows lines)) 6 (data_rows lines))) c
             = Ok raw ->
             getitem df c = Ok raw
             /\ getitem df (c ++ "_derivative1") = Ok (backward_diff raw)
             /\ getitem df (c ++ "_power2") = Ok (square raw)
             /\ getitem df (c ++ "_derivative1_power2") = Ok (square (backward_diff raw))
             /\ nth_error (backward_diff raw) 0 = Some fzero
             /\ nth_error (square (backward_diff raw)) 0 = Some fzero).
Proof.
  intros lines Hn Hall.
  destruct (motion_df_value lines Hn Hall) as [HP HE].
  eexists. split; [exact HP|]. split; [exact HE|].
  split; [reflexivity|]. split; [reflexivity|]. split; [reflexivity|].
  split.
  - repeat constructor; simpl;
      rewrite ?square_length, ?backward_diff_length; apply length_map.
  - intros c raw Hc.
    assert (Hne : forall j, column j (Arr2 (List.length (data_rows lines)) 6 (data_rows lines)) <> []).
    { intros j. unfold column. destruct (data_rows lines); simpl in *; [lia | discriminate]. }
    unfold getitem in Hc. simpl in Hc.
    repeat match type of Hc with
           | context [String.eqb c ?k] =>
               let E := fresh "E" in
               destruct (String.eqb c k) eqn:E;
               [ apply String.eqb_eq in E; subst c; inversion Hc; subst raw;
                 repeat split; try reflexivity; apply backward_diff_first; apply Hne
               | ]
           end.
    discriminate Hc.
Qed.

(** C2 on the motion file of the reference run (three lines). *)
Lemma C2_motion_expansion_witness :
  exists df,
    Preproc.motion_df_from_mcflirt (mcpar_lines Ref.env) = Ok df
    /\ Experimental.motion_df_from_mcflirt (mcpar_lines Ref.env) = Ok df
    /\ nrows df = 3 /\ ncols df = 24
    /\ getitem df "trans_x_derivative1" = Ok [0; 0.5; 1]%float.
Proof.
  destruct (C2_motion_expansion (mcpar_lines Ref.env)) as (df & HP & HE & Hr & Hc & _).
  - vm_compute. lia.
  - vm_compute. repeat constructor.
  - exists df. repeat split; try assumption.
    assert (E : Ok df = Preproc.motion_df_from_mcflirt (mcpar_lines Ref.env))
      by (symmetry; exact HP).
    vm_compute in E. inversion E. reflexivity.
Defined.

(** C2 as stated fails for T = 1: a motion file of one line is refused by the
    loader, so no table is produced in either pipeline. *)
Lemma C2_single_frame_is_refused :
  List.length (data_rows [[0.125; 0.25; 0; 0.5; 0.25; -0.5]%float]) = 1
  /\ Preproc.motion_df_from_mcflirt [[0.125; 0.25; 0; 0.5; 0.25; -0.5]%float]
     = Raise (ValueError "Expected Nx6 motion params, got (6,)")
  /\ Experimental.motion_df_from_mcflirt [[0.125; 0.25; 0; 0.5; 0.25; -0.5]%float]
     = Raise (ValueError "Expected Nx6 motion params, got (6,)").
Proof. repeat split. Qed.

(** * Mean signal within a mask *)

(** C6.  For a 4-D volume of T frames and a mask that selects a voxel, the
    mean series is returned and has length T.  For a mask that selects no
    voxel, the call of nilearn's [apply_mask] raises its [ValueError] before
    the branch that would return T NaNs is reached: no series is returned. *)
Theorem C6_mean_signal_empty_mask_raises :
  (forall env mask T,
      shape_at (bold_shape env) 3 = Ok T ->
      List.length (bold_frames env) = T ->
      n_voxels mask <> 0 ->
      exists series, mean_signal env mask = Ok series /\ List.length series = T)
  /\ (forall env mask,
         n_voxels mask = 0 ->
         mean_signal env mask = Raise (ValueError "The mask is invalid as it is empty"))
  /\ mean_signal Ref.env [false; false; false; false]
     = Raise (ValueError "The mask is invalid as it is empty")
  /\ mean_signal Ref.env [true; false; false; false] = Ok [100; 102; 101]%float.
Proof.
  split; [|split; [|split]].
  - intros env mask T Hshape Hframes Hv. unfold mean_signal, apply_mask.
    apply Nat.eqb_neq in Hv. rewrite Hv. cbn [bind].
    eexists. split; [reflexivity|]. now rewrite !length_map.
  - intros env mask Hv. unfold mean_signal, apply_mask. now rewrite Hv.
  - reflexivity.
  - vm_compute. reflexivity.
Qed.

(** * Series lengths: DVARS and framewise displacement *)

Section DvarsLength.

Import Experimental.

Lemma enforce_exact name x (T : nat) pad :
  len x = Z.of_nat T -> enforce_length_1d name (Some x) (Z.of_nat T) pad = Ok x.
Proof.
  intros H. unfold enforce_length_1d. apply Z.eqb_eq in H. now rewrite H.
Qed.

Lemma enforce_short name x (T : nat) pad :
  len x = (Z.of_nat T - 1)%Z \/ len x = (Z.of_nat T - 2)%Z ->
  enforce_length_1d name (Some x) (Z.of_nat T) pad
  = Ok (np_full (T - List.length x) pad ++ x)
  /\ List.length (np_full (T - List.length x) pad ++ x) = T.
Proof.
  intros H. unfold enforce_length_1d.
  assert (Hne : Z.eqb (len x) (Z.of_nat T) = false) by (apply Z.eqb_neq; lia).
  rewrite Hne.
  assert (Hor : Z.eqb (len x) (Z.of_nat T - 1) || Z.eqb (len x) (Z.of_nat T - 2) = true).
  { apply orb_true_iff. destruct H; [left | right]; now apply Z.eqb_eq. }
  rewrite Hor. unfold len in *.
  replace (Z.to_nat (Z.of_nat T - Z.of_nat (List.length x))) with (T - List.length x) by lia.
  split; [reflexivity|].
  rewrite length_app, np_full_length. lia.
Qed.

Lemma enforce_other name x (T : nat) pad :
  len x <> Z.of_nat T -> len x <> (Z.of_nat T - 1)%Z -> len x <> (Z.of_nat T - 2)%Z ->
  enforce_length_1d name (Some x) (Z.of_nat T) pad
  = Raise (ValueError (name ++ " length (" ++ str_of_Z (len x)
                       ++ ") != T (" ++ str_of_Z (Z.of_nat T)
                       ++ "), T-1 (" ++ str_of_Z (Z.of_nat T - 1)
                       ++ "), or T-2 (" ++ str_of_Z (Z.of_nat T - 2) ++ ").")).
Proof.
  intros H0 H1 H2. unfold enforce_length_1d.
  apply Z.eqb_neq in H0, H1, H2. now rewrite H0, H1, H2.
Qed.

Lemma enforce_none name (T : nat) pad :
  enforce_length_1d name None (Z.of_nat T) pad = Ok (np_full T np_nan).
Proof.
  unfold enforce_length_1d.
  assert (H : Z.ltb (Z.of_nat T) 0 = false) by (apply Z.ltb_ge; lia).
  now rewrite H, Nat2Z.id.
Qed.

Lemma enforce_Ok_length name x (T : nat) pad y :
  enforce_length_1d name x (Z.of_nat T) pad = Ok y -> List.length y = T.
Proof.
  destruct x as [x|].
  - destruct (Z.eq_dec (len x) (Z.of_nat T)) as [E|E].
    + rewrite enforce_exact by exact E. intros H; inversion H; subst.
      now apply len_nat.
    + destruct (Z.eq_dec (len x) (Z.of_nat T - 1)) as [E1|E1].
      { destruct (enforce_short name x T pad (or_introl E1)) as [-> L].
        intros H; inversion H; now subst. }
      destruct (Z.eq_dec (len x) (Z.of_nat T - 2)) as [E2|E2].
      { destruct (enforce_short name x T pad (or_intror E2)) as [-> L].
        intros H; inversion H; now subst. }
      rewrite enforce_other by assumption. discriminate.
  - rewrite enforce_none. intros H; inversion H. apply np_full_length.
Qed.

Lemma dvars_columns_pad (T : nat) std nstd :
  len nstd = (Z.of_nat T - 2)%Z ->
  Preproc.dvars_columns T std (Some nstd)
  = (Some (Preproc.r_00 std), Some (fzero :: fzero :: nstd)).
Proof.
  intros H. unfold Preproc.dvars_columns. apply Z.eqb_eq in H. now rewrite H.
Qed.

Lemma dvars_columns_keep (T : nat) std nstd :
  len nstd <> (Z.of_nat T - 2)%Z ->
  Preproc.dvars_columns T std (Some nstd) = (std, Some nstd).
Proof.
  intros H. unfold Preproc.dvars_columns. apply Z.eqb_neq in H. now rewrite H.
Qed.

End DvarsLength.

Section FramewiseDisplacement.

(** The first row of [diff] is all NaN, so its NaN-skipping sum is zero. *)
Lemma nansum_all_nan (r : list float) :
  Old.nansum (map PrimFloat.abs (map (fun _ => np_nan) r)) = fzero.
Proof.
  unfold Old.nansum, fsum. rewrite !map_map.
  assert (H : forall acc, acc = fzero ->
            fold_left PrimFloat.add
              (map (fun _ : float =>
                      if PrimFloat.is_nan (PrimFloat.abs np_nan) then fzero
                      else PrimFloat.abs np_nan) r) acc = fzero).
  { induction r as [|x r IH]; intros acc Hacc; simpl; [exact Hacc|].
    apply IH. subst acc. reflexivity. }
  now apply H.
Qed.

Lemma old_fd_first motion :
  motion <> [] ->
  nth_error (Old.framewise_displacement motion) 0 = Some fzero.
Proof.
  destruct motion as [|r rest]; [congruence|]. intros _.
  unfold Old.framewise_displacement, Old.diff. simpl.
  now rewrite nansum_all_nan.
Qed.

Lemma old_fd_length motion :
  List.length (Old.framewise_displacement motion) = List.length motion.
Proof.
  unfold Old.framewise_displacement. rewrite length_map.
  destruct motion as [|r rest]; [reflexivity|]. simpl. f_equal.
  revert r. induction rest as [|r' rest IH]; intros r; simpl; [reflexivity|].
  now rewrite IH.
Qed.

Lemma fd_column_cases (T : nat) fd :
  (len fd = Z.of_nat T -> Preproc.fd_column T fd = Ok fd)
  /\ (len fd = (Z.of_nat T - 1)%Z -> Preproc.fd_column T fd = Ok (fzero :: fd))
  /\ (len fd <> Z.of_nat T -> len fd <> (Z.of_nat T - 1)%Z ->
      Preproc.fd_column T fd
      = Raise (ValueError ("FD length (" ++ str_of_Z (len fd)
                           ++ ") != BOLD timepoints (" ++ str_of_nat T ++ ").")))
  /\ (forall y, Preproc.fd_column T fd = Ok y -> List.length y = T).
Proof.
  unfold Preproc.fd_column.
  destruct (Z.eqb (Z.of_nat T) (len fd)) eqn:E0.
  - apply Z.eqb_eq in E0. simpl. repeat split; try (intros; lia || reflexivity).
    intros y H. inversion H; subst. unfold len in E0. lia.
  - apply Z.eqb_neq in E0. simpl.
    destruct (Z.eqb (len fd) (Z.of_nat T - 1)) eqn:E1.
    + apply Z.eqb_eq in E1. repeat split; try (intros; lia || reflexivity).
      intros y H. inversion H; subst. unfold len in E1. simpl. lia.
    + apply Z.eqb_neq in E1. repeat split; try (intros; lia || reflexivity).
      intros y H. discriminate H.
Qed.

End FramewiseDisplacement.

(** * The cosine drift basis *)

Section DriftBasis.

Import Experimental.

Lemma combine_snd {A B : Type} (a : list A) (b : list B) :
  List.length a = List.length b -> map snd (combine a b) = b.
Proof.
  revert b. induction a as [|x a IH]; intros [|y b] H; simpl in *;
    try discriminate; [reflexivity|].
  f_equal. apply IH. lia.
Qed.

Lemma combine_fst {A B : Type} (a : list A) (b : list B) :
  List.length a = List.length b -> map fst (combine a b) = a.
Proof.
  revert b. induction a as [|x a IH]; intros [|y b] H; simpl in *;
    try discriminate; [reflexivity|].
  f_equal. apply IH. lia.
Qed.

Lemma cosine_names_length n : List.length (cosine_names n) = n.
Proof. unfold cosine_names. now rewrite length_map, length_seq. Qed.


Lemma prune_length cols : List.length (prune cols) <= List.length cols.
Proof. apply filter_length_le. Qed.

Lemma prune_all cols : Forall non_constant cols -> prune cols = cols.
Proof.
  unfold prune. induction cols as [|c cols IH]; intros H; [reflexivity|].
  inversion H as [|? ? Hc Hrest]; subst. simpl.
  unfold non_constant in Hc. rewrite Hc. f_equal. now apply IH.
Qed.

(** The table built from a candidate matrix: the kept columns, in order,
    under consecutive names. *)
Lemma drift_frame_spec T C :
  map snd (columns (drift_frame T C)) = prune (m_cols C)
  /\ names (drift_frame T C) = cosine_names (List.length (prune (m_cols C)))
  /\ ncols (drift_frame T C) = List.length (prune (m_cols C))
  /\ nrows (drift_frame T C)
     = (if is_nil (prune (m_cols C)) then T else m_nrows C).
Proof.
  unfold drift_frame, names, ncols.
  destruct (prune (m_cols C)) as [|c kept] eqn:E; [repeat split|].
  cbn [columns nrows is_nil].
  assert (L : List.length (cosine_names (List.length (c :: kept)))
              = List.length (c :: kept)) by apply cosine_names_length.
  repeat split.
  - now apply combine_snd.
  - now apply combine_fst.
  - rewrite length_combine, L. apply Nat.min_id.
Qed.

Lemma range1_length K : List.length (range1 K) = Z.to_nat K.
Proof. unfold range1. now rewrite length_map, length_seq. Qed.

Lemma dct_columns_length env T K : List.length (dct_columns env T K) = Z.to_nat K.
Proof. unfold dct_columns. now rewrite length_map, range1_length. Qed.

Lemma cosine_drift_terms_fallback env T tr cutoff K :
  nilearn_cosine_drift env tr (frame_times T tr) cutoff = None ->
  n_terms T tr cutoff = Ok K ->
  cosine_drift_terms env T tr cutoff
  = Ok (if Z.ltb K 1 then mkDF T []
        else drift_frame T (mkMatrix T (dct_columns env T K))).
Proof.
  intros Hn HK. unfold cosine_drift_terms. rewrite Hn, HK. simpl.
  now destruct (Z.ltb K 1).
Qed.





End DriftBasis.

(** C4 (as amended).  On the fallback path (nilearn's helper unavailable),
    with K = floor(2*T*TR/cutoff) computed without error, the builder
    returns a basis of T rows; it generates K candidate columns and keeps
    those that are not numerically constant, under consecutive names, so it
    has at most K columns, exactly K when no candidate is numerically
    constant, and none (an empty basis, not an error) when K < 1.  With the
    reference cosine, T=100, TR=2, cutoff=128 gives K = 3 and three columns,
    and T=10, TR=2, cutoff=128 gives K = 0 and no column. *)
Theorem C4_drift_column_count :
  (forall env T tr cutoff K,
      nilearn_cosine_drift env tr (Experimental.frame_times T tr) cutoff = None ->
      Experimental.n_terms T tr cutoff = Ok K ->
      exists df,
        Experimental.cosine_drift_terms env T tr cutoff = Ok df
        /\ nrows df = T
        /\ map snd (columns df) = Experimental.prune (Experimental.dct_columns env T K)
        /\ names df = Experimental.cosine_names (ncols df)
        /\ (Z.of_nat (ncols df) <= Z.max 0 K)%Z
        /\ ((K < 1)%Z -> df = mkDF T [])
        /\ (Forall Experimental.non_constant (Experimental.dct_columns env T K) ->
            Z.of_nat (ncols df) = Z.max 0 K))
  /\ Experimental.n_terms 100 2 128 = Ok 3%Z
  /\ bind (Experimental.cosine_drift_terms Ref.env 100 2 128) (fun df => Ok (names df))
     = Ok ["cosine_00"; "cosine_01"; "cosine_02"]
  /\ Experimental.n_terms 10 2 128 = Ok 0%Z
  /\ Experimental.cosine_drift_terms Ref.env 10 2 128 = Ok (mkDF 10 []).
Proof.
  split; [|split; [|split; [|split]]; vm_compute; reflexivity].
  intros env T tr cutoff K Hn HK.
  rewrite (cosine_drift_terms_fallback env T tr cutoff K Hn HK).
  destruct (Z.ltb K 1) eqn:E.
  - apply Z.ltb_lt in E. exists (mkDF T []).
    assert (Hnil : Experimental.dct_columns env T K = []).
    { apply length_zero_iff_nil. rewrite dct_columns_length. lia. }
    rewrite Hnil. repeat split; simpl; lia.
  - apply Z.ltb_ge in E.
    destruct (drift_frame_spec T (mkMatrix T (Experimental.dct_columns env T K)))
      as (Hsnd & Hnames & Hncols & Hrows).
    cbn [m_cols m_nrows] in *.
    eexists. split; [reflexivity|]. repeat split.
    + rewrite Hrows. now destruct (is_nil _).
    + exact Hsnd.
    + now rewrite Hnames, Hncols.
    + rewrite Hncols.
      pose proof (prune_length (Experimental.dct_columns env T K)) as L.
      rewrite dct_columns_length in L. lia.
    + intros Hlt. lia.
    + intros Hall. rewrite Hncols, (prune_all _ Hall), dct_columns_length. lia.
Qed.

(** C4 on T=100, TR=2, cutoff=128 in the reference environment. *)
Lemma C4_drift_column_count_witness :
  exists df,
    Experimental.cosine_drift_terms Ref.env 100 2 128 = Ok df
    /\ nrows df = 100
    /\ (Z.of_nat (ncols df) <= 3)%Z.
Proof.
  destruct C4_drift_column_count as (H & _).
  destruct (H Ref.env 100 2%float 128%float 3%Z)
    as (df & Hdf & Hrows & _ & _ & Hle & _).
  - reflexivity.
  - vm_compute; reflexivity.
  - exists df. split; [exact Hdf|]. split; [exact Hrows | exact Hle].
Defined.

(** C4 as stated fails for T = 1: with TR=100 and cutoff=128 the formula
    gives floor(2*1*100/128) = 1, but the single candidate column has one
    entry, hence no spread, and is pruned; the basis has no column. *)
Lemma C4_single_frame_basis_is_pruned :
  Experimental.n_terms 1 100 128 = Ok 1%Z
  /\ Experimental.cosine_drift_terms Ref.env 1 100 128 = Ok (mkDF 1 []).
Proof. split; vm_compute; reflexivity. Qed.




(** * CompCor: what the extractor adds to the external run *)

Section CompCor.





(** The preproc [main] indexes each components table as an array; it
    can only run to its end when the three tables have no column. *)
Lemma preproc_main_components env args table :
  Preproc.main env args = Ok table ->
  exists masks wm csf wmcsf,
    aseg_to_masks env (gm_dilate_iter args) = Ok masks
    /\ Preproc.run_compcor env (wm_mask masks) "a_comp_cor_wm" = Ok wm
    /\ Preproc.run_compcor env (csf_mask masks) "a_comp_cor_csf" = Ok csf
    /\ Preproc.run_compcor env (wmcsf_mask masks) "a_comp_cor" = Ok wmcsf
    /\ columns wm = [] /\ columns csf = [] /\ columns wmcsf = [].
Proof.
  unfold Preproc.main. intros H. repeat step H.
  exists a1, a7, a8, a9.
  unfold Preproc.add_components in Ha10, Ha11, Ha12.
  destruct (columns a7); [|discriminate Ha10].
  destruct (columns a8); [|discriminate Ha11].
  destruct (columns a9); [|discriminate Ha12].
  repeat split; assumption.
Qed.

End CompCor.




(** * The order of the columns of the table *)

Section ColumnOrder.

Import Experimental.

Lemma sorted_Sorted l : Sorted str_le (sorted l).
Proof. exact (StringSort.Sorted_sort l). Qed.

Lemma sorted_In c l : In c (sorted l) <-> In c l.
Proof.
  pose proof (StringSort.Permuted_sort l) as P. split; intros H.
  - apply Permutation_sym in P. exact (Permutation_in c P H).
  - exact (Permutation_in c P H).
Qed.

Lemma string_compare_trans : forall a b c : string,
  String.compare a b <> Gt -> String.compare b c <> Gt -> String.compare a c <> Gt.
Proof.
  induction a as [|x a IH]; intros b c Hab Hbc.
  - destruct c; simpl; discriminate.
  - destruct b as [|y b]; [simpl in Hab; congruence|].
    destruct c as [|z c]; [simpl in Hbc; congruence|].
    simpl in *. unfold Ascii.compare in *.
    destruct (N.compare_spec (N_of_ascii x) (N_of_ascii y)) as [Exy|Lxy|Gxy];
      destruct (N.compare_spec (N_of_ascii y) (N_of_ascii z)) as [Eyz|Lyz|Gyz];
      try congruence.
    + rewrite Exy, Eyz, N.compare_refl. now apply (IH b c).
    + rewrite Exy. apply N.compare_lt_iff in Lyz. rewrite Lyz. discriminate.
    + rewrite <- Eyz. apply N.compare_lt_iff in Lxy. rewrite Lxy. discriminate.
    + assert (L : (N_of_ascii x < N_of_ascii z)%N) by lia.
      apply N.compare_lt_iff in L. rewrite L. discriminate.
Qed.

Lemma str_le_trans a b c : str_le a b -> str_le b c -> str_le a c.
Proof.
  unfold str_le, String.leb. intros Hab Hbc.
  pose proof (string_compare_trans a b c) as T.
  destruct (String.compare a b); destruct (String.compare b c);
    destruct (String.compare a c); try reflexivity; try discriminate;
    exfalso; apply T; congruence.
Qed.

Lemma str_le_refl a : str_le a a.
Proof. destruct (String.leb_total a a); assumption. Qed.

(** A list of names has one sorted arrangement only. *)
Lemma sorted_unique : forall l l',
  Sorted str_le l -> Sorted str_le l' -> Permutation l l' -> l = l'.
Proof.
  intros l l' Hl Hl'.
  apply Sorted_StronglySorted in Hl; [|exact str_le_trans].
  apply Sorted_StronglySorted in Hl'; [|exact str_le_trans].
  revert l' Hl'. induction Hl as [|a l1 Hl1 IH Ha]; intros l' Hl' P.
  - apply Permutation_nil in P. now subst.
  - destruct Hl' as [|b l1' Hl1' Hb].
    + apply Permutation_sym, Permutation_nil in P. discriminate.
    + assert (Hab : str_le a b).
      { assert (Hin : In b (a :: l1))
          by (apply (Permutation_in b (Permutation_sym P)); now left).
        destruct Hin as [->|Hin]; [apply str_le_refl|].
        rewrite Forall_forall in Ha. now apply Ha. }
      assert (Hba : str_le b a).
      { assert (Hin : In a (b :: l1')) by (apply (Permutation_in a P); now left).
        destruct Hin as [->|Hin]; [apply str_le_refl|].
        rewrite Forall_forall in Hb. now apply Hb. }
      assert (E : a = b) by (apply String.leb_antisym; assumption).
      subst b. f_equal. apply IH; [assumption|].
      exact (Permutation_cons_inv P).
Qed.

Lemma filter_Permutation {A : Type} (f : A -> bool) l l' :
  Permutation l l' -> Permutation (filter f l) (filter f l').
Proof.
  induction 1; simpl.
  - constructor.
  - destruct (f x); [now constructor | assumption].
  - destruct (f x), (f y); try reflexivity; try apply perm_swap.
  - etransitivity; eassumption.
Qed.

Lemma sorted_Permutation l l' : Permutation l l' -> sorted l = sorted l'.
Proof.
  intros P. apply sorted_unique; try apply sorted_Sorted.
  pose proof (StringSort.Permuted_sort l) as P1.
  pose proof (StringSort.Permuted_sort l') as P2.
  unfold sorted.
  eapply Permutation_trans; [apply Permutation_sym; exact P1|].
  eapply Permutation_trans; [exact P|exact P2].
Qed.

Lemma preferred_eq cols :
  preferred cols
  = fixed_columns ++ sorted (filter is_acomp cols) ++ sorted (filter is_cosine cols).
Proof. reflexivity. Qed.

(** The preferred order does not depend on the order in which the columns
    were met. *)
Lemma preferred_Permutation cols cols' :
  Permutation cols cols' -> preferred cols = preferred cols'.
Proof.
  intros P. rewrite !preferred_eq.
  now rewrite (sorted_Permutation _ _ (filter_Permutation is_acomp _ _ P)),
              (sorted_Permutation _ _ (filter_Permutation is_cosine _ _ P)).
Qed.

Lemma classified_in_preferred cols c :
  In c cols -> classified c = true -> mem c (preferred cols) = true.
Proof.
  intros Hin Hc. apply mem_In. rewrite preferred_eq.
  unfold classified in Hc. apply orb_true_iff in Hc. destruct Hc as [Hc|Hc].
  - apply orb_true_iff in Hc. destruct Hc as [Hc|Hc].
    + apply in_or_app. left. now apply mem_In.
    + apply in_or_app. right. apply in_or_app. left.
      apply (proj2 (sorted_In _ _)). apply filter_In. now split.
  - apply in_or_app. right. apply in_or_app. right.
    apply (proj2 (sorted_In _ _)). apply filter_In. now split.
Qed.

Lemma remaining_nil cols :
  Forall (fun c => classified c = true) cols -> remaining cols = [].
Proof.
  intros Hall. unfold remaining.
  assert (H : forall l, (forall c, In c l -> In c cols) ->
                        filter (fun c => negb (mem c (preferred cols))) l = []).
  { induction l as [|c l IH]; intros Hsub; [reflexivity|].
    assert (E : mem c (preferred cols) = true).
    { apply classified_in_preferred; [apply Hsub; now left|].
      rewrite Forall_forall in Hall. apply Hall. apply Hsub. now left. }
    cbn [filter]. rewrite E. cbn [negb].
    apply IH. intros c' Hc'. apply Hsub. now right. }
  apply H. auto.
Qed.

(** The labels of the table [main] returns are the ordered labels of
    [conf]. *)
Lemma main_names env args table :
  main env args = Ok table ->
  exists conf, gather env args = Ok conf
               /\ names table = column_order (names conf)
               /\ nrows table = nrows conf.
Proof.
  unfold main. intros H. apply bind_Ok in H. destruct H as (conf & Hg & Hsel).
  exists conf. split; [exact Hg|].
  unfold getitem_list in Hsel. apply bind_Ok in Hsel.
  destruct Hsel as (cs & Hcs & Heq). inversion Heq; subst.
  split; [|reflexivity]. unfold names. simpl. now apply select_names in Hcs.
Qed.

Local Abbreviation cl := (fun c : string => classified c = true).

Lemma prefix_app s t : String.prefix s (s ++ t)%string = true.
Proof.
  induction s as [|a s IH]; simpl.
  - now destruct t.
  - destruct (ascii_dec a a) as [_|n]; [exact IH | now contradiction n].
Qed.

Lemma setitem_classified df c v df' :
  setitem df c v = Ok df' -> classified c = true ->
  Forall cl (names df) -> Forall cl (names df').
Proof.
  intros H Hc Hall. apply setitem_Ok in H. destruct H as (_ & _ & Hn & _).
  rewrite Hn. destruct (mem c (names df)); [exact Hall|].
  apply Forall_app. split; [exact Hall | now constructor].
Qed.

Lemma derive_names df sfx g cols l :
  derive df sfx g cols = Ok l -> map fst l = with_suffix sfx cols.
Proof.
  revert l. induction cols as [|c cols IH]; intros l H.
  - inversion H. reflexivity.
  - cbn [derive] in H. step H. step H. inversion H; subst.
    cbn [map fst with_suffix]. f_equal. now apply IH.
Qed.

Lemma add_fmriprep_expansions_names df cols df' :
  add_fmriprep_expansions df cols = Ok df' ->
  names df' = names df ++ with_suffix "_derivative1" cols ++ with_suffix "_power2" cols
                       ++ with_suffix "_derivative1_power2" cols.
Proof.
  unfold add_fmriprep_expansions. intros H. step H. step H. step H.
  inversion H; subst. unfold names, concat_axis1. cbn [columns flat_map].
  rewrite !map_app.
  apply derive_names in Ha, Ha0, Ha1. rewrite Ha, Ha0, Ha1.
  cbn [map]. now rewrite app_nil_r.
Qed.

Lemma motion_df_names lines df :
  motion_df_from_mcflirt lines = Ok df -> names df = expansion_names motion_base.
Proof.
  unfold motion_df_from_mcflirt. intros H. step H.
  apply add_fmriprep_expansions_names in H. rewrite H. reflexivity.
Qed.

Lemma copy_columns_classified src cs : forall conf conf',
  copy_columns conf src cs = Ok conf' ->
  Forall cl cs -> Forall cl (names conf) -> Forall cl (names conf').
Proof.
  induction cs as [|c cs IH]; intros conf conf' H Hcs Hall.
  - inversion H; now subst.
  - cbn [copy_columns] in H. inversion Hcs; subst.
    destruct (Nat.ltb 1 (count_occ string_dec (names src) c)); [discriminate H|].
    step H. step H.
    apply (IH a0 conf' H); [assumption|].
    now apply (setitem_classified conf c a a0).
Qed.

Lemma rename_from_acomp cols : forall i,
  Forall (fun c => is_acomp c = true) (map fst (rename_from i cols)).
Proof.
  induction cols as [|[c v] cols IH]; intros i; [constructor|].
  cbn [rename_from map fst]. constructor; [|apply IH].
  unfold is_acomp. destruct (String.prefix "a_comp_cor_" c) eqn:E; [exact E|].
  apply prefix_app.
Qed.

Lemma run_acompcor_single_names env mask acomps :
  run_acompcor_single env mask = Ok acomps ->
  Forall (fun c => is_acomp c = true) (names acomps).
Proof.
  unfold run_acompcor_single. intros H. step H.
  destruct (pick_existing_output env a ["components_file"]) as [p|]; [|discriminate H].
  step H. step H. inversion H; subst. apply rename_from_acomp.
Qed.

Lemma cosine_names_cosine n : Forall (fun c => is_cosine c = true) (cosine_names n).
Proof.
  unfold cosine_names. apply Forall_forall. intros c H.
  apply in_map_iff in H. destruct H as (i & <- & _). apply prefix_app.
Qed.

Lemma cosine_drift_terms_names env T tr cutoff cos :
  cosine_drift_terms env T tr cutoff = Ok cos ->
  Forall (fun c => is_cosine c = true) (names cos).
Proof.
  unfold cosine_drift_terms.
  destruct (nilearn_cosine_drift env tr (frame_times T tr) cutoff) as [C|].
  - intros H; inversion H; subst.
    rewrite (proj1 (proj2 (drift_frame_spec T C))). apply cosine_names_cosine.
  - intros H. step H. destruct (Z.ltb a 1); inversion H; subst.
    + constructor.
    + rewrite (proj1 (proj2 (drift_frame_spec T _))). apply cosine_names_cosine.
Qed.

(** Every column gathered by [main] has a place in the preferred order. *)
Lemma gather_classified env args conf :
  gather env args = Ok conf -> Forall cl (names conf).
Proof.
  unfold gather. intros H. repeat step H.
  assert (H1 : Forall cl (names a1)).
  { rewrite (motion_df_names _ _ Ha1). repeat constructor. }
  assert (H7 : Forall cl (names a7)).
  { apply (setitem_classified _ _ _ _ Ha7 eq_refl).
    apply (setitem_classified _ _ _ _ Ha5 eq_refl).
    exact (setitem_classified _ _ _ _ Ha3 eq_refl H1). }
  assert (H8 : Forall cl (names a8)).
  { rewrite (add_fmriprep_expansions_names _ _ _ Ha8).
    apply Forall_app. split; [exact H7 | repeat constructor]. }
  assert (H16 : Forall cl (names a16)).
  { apply (setitem_classified _ _ _ _ Ha16 eq_refl).
    apply (setitem_classified _ _ _ _ Ha14 eq_refl).
    exact (setitem_classified _ _ _ _ Ha11 eq_refl H8). }
  assert (H18 : Forall cl (names a18)).
  { apply (copy_columns_classified _ _ _ _ Ha18); [|exact H16].
    apply run_acompcor_single_names in Ha17.
    revert Ha17. apply Forall_impl. intros c Hc. unfold classified.
    rewrite Hc. now rewrite orb_true_r. }
  apply (copy_columns_classified _ _ _ _ H); [|exact H18].
  apply cosine_drift_terms_names in Ha19.
  revert Ha19. apply Forall_impl. intros c Hc. unfold classified.
  rewrite Hc. now rewrite orb_true_r.
Qed.

End ColumnOrder.

Section TableInvariant.

Import Experimental.

Lemma lookup_length c cols n v :
  Forall (fun kv : string * list float => List.length (snd kv) = n) cols ->
  lookup c cols = Some v -> List.length v = n.
Proof.
  induction cols as [|[k old] rest IH]; intros Hall H; [discriminate|].
  simpl in H. inversion Hall; subst.
  destruct (String.eqb c k); [inversion H; now subst | now apply IH].
Qed.

Lemma replace_col_length c v cols n :
  List.length v = n ->
  Forall (fun kv : string * list float => List.length (snd kv) = n) cols ->
  Forall (fun kv : string * list float => List.length (snd kv) = n) (replace_col c v cols).
Proof.
  intros Hv. induction cols as [|[k old] rest IH]; intros Hall; [constructor|].
  inversion Hall; subst. simpl.
  destruct (String.eqb c k); constructor; auto.
Qed.

Lemma setitem_well_formed df c v df' :
  setitem df c v = Ok df' -> well_formed df ->
  well_formed df' /\ nrows df' = nrows df.
Proof.
  unfold setitem, well_formed. intros H Hwf.
  destruct (Nat.eqb (List.length v) (nrows df)) eqn:E; [|discriminate H].
  apply Nat.eqb_eq in E.
  destruct (mem c (names df)); inversion H; subst; simpl; split; try reflexivity.
  - now apply replace_col_length.
  - apply Forall_app. split; [exact Hwf | now repeat constructor].
Qed.

Lemma derive_lengths df sfx g cols l :
  (forall v, List.length (g v) = List.length v) ->
  well_formed df ->
  derive df sfx g cols = Ok l ->
  Forall (fun kv => List.length (snd kv) = nrows df) l.
Proof.
  intros Hg Hwf. revert l. induction cols as [|c cols IH]; intros l H.
  - inversion H. constructor.
  - cbn [derive] in H. step H. step H. inversion H; subst.
    constructor; [|now apply IH].
    simpl. rewrite Hg. unfold getitem in Ha.
    destruct (lookup c (columns df)) eqn:L; [|discriminate Ha].
    inversion Ha; subst. exact (lookup_length _ _ _ _ Hwf L).
Qed.

Lemma add_fmriprep_expansions_well_formed df cols df' :
  add_fmriprep_expansions df cols = Ok df' -> well_formed df ->
  well_formed df' /\ nrows df' = nrows df.
Proof.
  unfold add_fmriprep_expansions. intros H Hwf. step H. step H. step H.
  inversion H; subst. split; [|reflexivity].
  unfold well_formed, concat_axis1. cbn [columns nrows flat_map].
  rewrite app_nil_r.
  repeat (apply Forall_app; split); try exact Hwf.
  - exact (derive_lengths _ _ _ _ _ backward_diff_length Hwf Ha).
  - exact (derive_lengths _ _ _ _ _ square_length Hwf Ha0).
  - refine (derive_lengths _ _ _ _ _ _ Hwf Ha1).
    intros v. now rewrite square_length, backward_diff_length.
Qed.

Lemma motion_df_well_formed lines df :
  motion_df_from_mcflirt lines = Ok df ->
  well_formed df
  /\ forall mp, load_mcflirt_par lines = Ok mp -> nrows df = nth 0 (shape mp) 0.
Proof.
  unfold motion_df_from_mcflirt. intros H. step H.
  assert (Hb : well_formed (base_frame a)).
  { apply load_mcflirt_par_Ok in Ha. destruct Ha as (-> & _ & _).
    unfold well_formed, base_frame. cbn [columns nrows shape nth].
    repeat constructor; apply length_map. }
  destruct (add_fmriprep_expansions_well_formed _ _ _ H Hb) as [Hwf Hn].
  split; [exact Hwf|]. intros mp Hmp. rewrite Hn.
  rewrite Ha in Hmp. inversion Hmp; subst. reflexivity.
Qed.

Lemma copy_columns_well_formed src cs : forall conf conf',
  copy_columns conf src cs = Ok conf' -> well_formed conf ->
  well_formed conf' /\ nrows conf' = nrows conf.
Proof.
  induction cs as [|c cs IH]; intros conf conf' H Hwf.
  - inversion H; subst. now split.
  - cbn [copy_columns] in H.
    destruct (Nat.ltb 1 (count_occ string_dec (names src) c)); [discriminate H|].
    step H. step H.
    destruct (setitem_well_formed _ _ _ _ Ha0 Hwf) as [Hwf0 Hn0].
    destruct (IH a0 conf' H Hwf0) as [Hwf' Hn']. split; [exact Hwf' | congruence].
Qed.

Lemma gather_well_formed env args conf :
  gather env args = Ok conf ->
  well_formed conf /\ nrows conf = nth 3 (bold_shape env) 0.
Proof.
  unfold gather. intros H. repeat step H.
  destruct (motion_df_well_formed _ _ Ha1) as [W1 N1]. specialize (N1 a Ha).
  apply negb_false_iff, Nat.eqb_eq in E0.
  destruct (setitem_well_formed _ _ _ _ Ha3 W1) as [W3 N3].
  destruct (setitem_well_formed _ _ _ _ Ha5 W3) as [W5 N5].
  destruct (setitem_well_formed _ _ _ _ Ha7 W5) as [W7 N7].
  destruct (add_fmriprep_expansions_well_formed _ _ _ Ha8 W7) as [W8 N8].
  destruct (setitem_well_formed _ _ _ _ Ha11 W8) as [W11 N11].
  destruct (setitem_well_formed _ _ _ _ Ha14 W11) as [W14 N14].
  destruct (setitem_well_formed _ _ _ _ Ha16 W14) as [W16 N16].
  destruct (copy_columns_well_formed _ _ _ _ Ha18 W16) as [W18 N18].
  destruct (copy_columns_well_formed _ _ _ _ H W18) as [W N].
  split; [exact W | congruence].
Qed.

(** The table the experimental [main] writes has T rows, and every one of
    its columns has T entries. *)
Lemma main_well_formed env args table :
  main env args = Ok table ->
  well_formed table /\ nrows table = nth 3 (bold_shape env) 0.
Proof.
  unfold main. intros H. step H.
  destruct (gather_well_formed _ _ _ Ha) as [W N].
  unfold getitem_list in H. step H. inversion H; subst.
  split; [|exact N]. unfold well_formed. cbn [columns nrows].
  exact (select_lengths _ _ _ _ W Ha0).
Qed.

(** Each column with a fixed place is in the table, with T entries. *)
Lemma main_fixed_column env args table c :
  main env args = Ok table ->
  In c fixed_columns ->
  exists v, getitem table c = Ok v
            /\ List.length v = nth 3 (bold_shape env) 0.
Proof.
  intros H Hc.
  destruct (main_well_formed _ _ _ H) as [W N].
  destruct (main_names _ _ _ H) as (conf & _ & Hn & _).
  assert (Hin : In c (names table)).
  { rewrite Hn. unfold column_order. rewrite preferred_eq.
    apply in_or_app. left. apply in_or_app. now left. }
  unfold getitem. destruct (lookup c (columns table)) as [v|] eqn:L.
  - exists v. split; [reflexivity|].
    rewrite <- N. exact (lookup_length _ _ _ _ W L).
  - apply lookup_None_iff in L. contradiction.
Qed.

End TableInvariant.

(** C5.  The ordering step puts the columns of the gathered table in a
    fixed order: the motion columns (raw, derivative, squared, squared
    derivative), the global, white-matter and CSF mean signals with the same
    four-way expansion, framewise displacement, DVARS (raw, standardized),
    the component-noise columns sorted by name, the drift-basis columns
    sorted by name, and last any column of none of these kinds, in the order
    met; apart from these last, the order does not depend on the order in
    which the columns were met.  Every table the experimental [main] writes
    has its columns in that order, and it has no column of the last kind. *)
Theorem C5_column_order :
  (forall cols,
      Experimental.column_order cols
      = expansion_names motion_base ++ expansion_names Experimental.gs_base
        ++ ["framewise_displacement"; "dvars"; "std_dvars"]
        ++ sorted (filter Experimental.is_acomp cols)
        ++ sorted (filter Experimental.is_cosine cols)
        ++ filter (fun c => negb (mem c (Experimental.preferred cols))) cols
      /\ Sorted str_le (sorted (filter Experimental.is_acomp cols))
      /\ Permutation (filter Experimental.is_acomp cols)
                     (sorted (filter Experimental.is_acomp cols))
      /\ Sorted str_le (sorted (filter Experimental.is_cosine cols))
      /\ Permutation (filter Experimental.is_cosine cols)
                     (sorted (filter Experimental.is_cosine cols)))
  /\ (forall cols cols',
         Permutation cols cols' ->
         Experimental.preferred cols = Experimental.preferred cols')
  /\ (forall env args table,
         Experimental.main env args = Ok table ->
         exists conf,
           Experimental.gather env args = Ok conf
           /\ names table = Experimental.column_order (names conf)
           /\ Experimental.remaining (names conf) = []
           /\ names table
              = expansion_names motion_base ++ expansion_names Experimental.gs_base
                ++ ["framewise_displacement"; "dvars"; "std_dvars"]
                ++ sorted (filter Experimental.is_acomp (names conf))
                ++ sorted (filter Experimental.is_cosine (names conf))).
Proof.
  split; [|split].
  - intros cols. split; [|split; [|split; [|split]]].
    + unfold Experimental.column_order. rewrite preferred_eq.
      unfold Experimental.remaining, Experimental.fixed_columns.
      now rewrite <- !app_assoc.
    + apply sorted_Sorted.
    + apply StringSort.Permuted_sort.
    + apply sorted_Sorted.
    + apply StringSort.Permuted_sort.
  - apply preferred_Permutation.
  - intros env args table H.
    destruct (main_names env args table H) as (conf & Hg & Hn & _).
    exists conf. split; [exact Hg|]. split; [exact Hn|].
    pose proof (remaining_nil _ (gather_classified env args conf Hg)) as Hr.
    split; [exact Hr|].
    rewrite Hn. unfold Experimental.column_order.
    rewrite Hr, app_nil_r, preferred_eq. unfold Experimental.fixed_columns.
    now rewrite <- !app_assoc.
Qed.

(** C5 on the reference run, where the tool lists the second component
    before the first. *)
Lemma C5_column_order_witness :
  exists table,
    Experimental.main Ref.env Ref.args = Ok table
    /\ skipn 36 (names table)
       = [ "framewise_displacement"; "dvars"; "std_dvars";
           "a_comp_cor_00"; "a_comp_cor_01"; "cosine_00" ]
    /\ exists conf,
        Experimental.gather Ref.env Ref.args = Ok conf
        /\ skipn 39 (names conf) = [ "a_comp_cor_01"; "a_comp_cor_00"; "cosine_00" ]
        /\ names table = Experimental.column_order (names conf).
Proof.
  assert (Em : exists table, Ok table = Experimental.main Ref.env Ref.args).
  { vm_compute. eexists. reflexivity. }
  destruct Em as (table & Em). exists table. split; [now symmetry|].
  destruct (proj2 (proj2 C5_column_order) Ref.env Ref.args table (eq_sym Em))
    as (conf & Hg & Hn & _).
  split.
  - vm_compute in Em. inversion Em. reflexivity.
  - exists conf. split; [exact Hg|]. split; [|exact Hn].
    assert (Eg : Ok conf = Experimental.gather Ref.env Ref.args) by now symmetry.
    vm_compute in Eg. inversion Eg. reflexivity.
Defined.

(** * The table the experimental [main] writes, column by column *)

Section WrittenTable.

Import Experimental.

Lemma not_In_mem c l : mem c l = false -> ~ In c l.
Proof. intros H Hin. apply mem_In in Hin. congruence. Qed.

Lemma setitem_new df c v df' :
  setitem df c v = Ok df' -> mem c (names df) = false ->
  columns df' = columns df ++ [(c, v)].
Proof.
  unfold setitem. intros H Hm. rewrite Hm in H.
  destruct (Nat.eqb (List.length v) (nrows df)); [|discriminate H].
  now inversion H.
Qed.

Lemma copy_columns_count src cs : forall conf conf',
  copy_columns conf src cs = Ok conf' ->
  forall c, In c cs -> count_occ string_dec (names src) c <= 1.
Proof.
  induction cs as [|c0 cs IH]; intros conf conf' H c Hc; [contradiction|].
  cbn [copy_columns] in H.
  destruct (Nat.ltb 1 (count_occ string_dec (names src) c0)) eqn:E; [discriminate H|].
  step H. step H. destruct Hc as [<-|Hc].
  - apply Nat.ltb_ge in E. exact E.
  - exact (IH _ _ H c Hc).
Qed.

(** A table whose columns could all be copied has no repeated label. *)
Lemma copy_columns_NoDup conf src conf' :
  copy_columns conf src (names src) = Ok conf' -> NoDup (names src).
Proof.
  intros H. apply (NoDup_count_occ string_dec). intros c.
  destruct (in_dec string_dec c (names src)) as [Hin|Hn].
  - exact (copy_columns_count _ _ _ _ H c Hin).
  - apply (count_occ_not_In string_dec) in Hn. lia.
Qed.

Lemma copy_columns_append src cs : forall conf conf',
  copy_columns conf src cs = Ok conf' ->
  NoDup cs -> (forall c, In c cs -> ~ In c (names conf)) ->
  exists vs, List.length vs = List.length cs
             /\ columns conf' = columns conf ++ combine cs vs
             /\ forall c, In c cs -> lookup c (combine cs vs) = lookup c (columns src).
Proof.
  induction cs as [|c0 cs IH]; intros conf conf' H Hnd Hnew.
  - inversion H; subst. exists []. rewrite app_nil_r. repeat split. intros c [].
  - cbn [copy_columns] in H.
    destruct (Nat.ltb 1 (count_occ string_dec (names src) c0)); [discriminate H|].
    step H. step H. inversion Hnd as [|? ? Hn0 Hnd']; subst.
    assert (Hm : mem c0 (names conf) = false).
    { apply not_true_is_false. intros Hm. apply mem_In in Hm.
      exact (Hnew c0 (or_introl eq_refl) Hm). }
    pose proof (setitem_new _ _ _ _ Ha0 Hm) as Hc0.
    destruct (IH a0 conf' H Hnd') as (vs & Hl & Hcols & Hlk).
    { intros c Hc Hin. unfold names in Hin. rewrite Hc0, map_app in Hin.
      apply in_app_or in Hin. destruct Hin as [Hin|[<-|[]]].
      - exact (Hnew c (or_intror Hc) Hin).
      - contradiction. }
    exists (a :: vs). split; [simpl; now rewrite Hl|]. split.
    + rewrite Hcols, Hc0, <- app_assoc. reflexivity.
    + intros c Hc. simpl. destruct (String.eqb c c0) eqn:E.
      * apply String.eqb_eq in E. subst c0. unfold getitem in Ha.
        destruct (lookup c (columns src)); [now inversion Ha | discriminate Ha].
      * destruct Hc as [->|Hc]; [now rewrite String.eqb_refl in E | now apply Hlk].
Qed.

Lemma select_lookup cols labels cs :
  select cols labels = Ok cs ->
  forall c, In c labels -> lookup c cs = lookup c cols /\ lookup c cols <> None.
Proof.
  revert cs. induction labels as [|c0 rest IH]; intros cs H c Hc; [contradiction|].
  simpl in H. destruct (lookup c0 cols) as [v|] eqn:L; [|discriminate H].
  step H. inversion H; subst. simpl.
  destruct (String.eqb c c0) eqn:E.
  - apply String.eqb_eq in E. subst c0. rewrite L. split; [reflexivity | discriminate].
  - destruct Hc as [->|Hc]; [now rewrite String.eqb_refl in E|].
    exact (IH _ Ha c Hc).
Qed.

(** As a map from labels to columns, the table written is the table
    gathered. *)
Lemma main_lookup env args table :
  main env args = Ok table ->
  exists conf, gather env args = Ok conf
               /\ forall c, lookup c (columns table) = lookup c (columns conf).
Proof.
  intros H. pose proof (main_names _ _ _ H) as (conf & Hg & Hn & _).
  exists conf. split; [exact Hg|]. intros c.
  unfold main in H. rewrite Hg in H. simpl in H. unfold getitem_list in H. step H.
  inversion H; subst. cbn [columns].
  destruct (in_dec string_dec c (column_order (names conf))) as [Hin|Hn'].
  - exact (proj1 (select_lookup _ _ _ Ha c Hin)).
  - assert (L1 : lookup c a = None).
    { apply lookup_None_iff. now rewrite (select_names _ _ _ Ha). }
    rewrite L1. symmetry. apply lookup_None_iff. intros Hc. apply Hn'.
    unfold column_order. apply in_or_app. left. apply mem_In.
    apply classified_in_preferred; [exact Hc|].
    pose proof (gather_classified _ _ _ Hg) as Hall.
    rewrite Forall_forall in Hall. now apply Hall.
Qed.

End WrittenTable.

Section GatheredTable.

Import Experimental.

Lemma setitem_append df c v df' l :
  setitem df c v = Ok df' -> names df = l -> mem c l = false ->
  columns df' = columns df ++ [(c, v)] /\ names df' = l ++ [c].
Proof.
  intros H Hl Hm. subst l. pose proof (setitem_new _ _ _ _ H Hm) as Hc.
  split; [exact Hc|]. unfold names. now rewrite Hc, map_app.
Qed.

Lemma lookup_app_new c cols cols' :
  mem c (map fst cols) = false -> lookup c (cols ++ cols') = lookup c cols'.
Proof.
  intros H. rewrite lookup_app.
  now rewrite (proj2 (lookup_None_iff c cols) (not_In_mem _ _ H)).
Qed.

Lemma fixed_columns_kind c :
  In c fixed_columns -> is_acomp c = false /\ is_cosine c = false.
Proof.
  intros H.
  assert (E : forallb (fun c => negb (is_acomp c) && negb (is_cosine c)) fixed_columns
              = true) by (vm_compute; reflexivity).
  rewrite forallb_forall in E. specialize (E c H).
  apply andb_true_iff in E. destruct E as [E1 E2].
  now rewrite negb_true_iff in E1, E2.
Qed.

Lemma acomp_not_cosine c : is_acomp c = true -> is_cosine c = false.
Proof.
  unfold is_acomp, is_cosine. destruct c as [|a c]; [discriminate|].
  cbn [String.prefix]. destruct (ascii_dec "a" a) as [<-|]; [|discriminate].
  intros _. reflexivity.
Qed.

Lemma combine_from_lookup (cols : list (string * list float)) : forall vs,
  NoDup (map fst cols) -> List.length vs = List.length cols ->
  (forall c, In c (map fst cols) ->
             lookup c (combine (map fst cols) vs) = lookup c cols) ->
  combine (map fst cols) vs = cols.
Proof.
  induction cols as [|[k v] cols IH]; intros vs Hnd Hl Hlk; [reflexivity|].
  destruct vs as [|v0 vs]; [discriminate Hl|].
  cbn [map fst combine] in *. inversion Hnd as [|? ? Hk Hnd']; subst.
  pose proof (Hlk k (or_introl eq_refl)) as H0. cbn [lookup] in H0.
  rewrite String.eqb_refl in H0. inversion H0; subst. f_equal.
  apply IH; [exact Hnd' | simpl in Hl; lia|].
  intros c Hc. specialize (Hlk c (or_intror Hc)). cbn [lookup] in Hlk.
  destruct (String.eqb c k) eqn:E; [|exact Hlk].
  apply String.eqb_eq in E. subst. contradiction.
Qed.

(** Copying every column of a table with new, distinct labels appends the
    table. *)
Lemma copy_columns_all conf src conf' :
  copy_columns conf src (names src) = Ok conf' ->
  (forall c, In c (names src) -> ~ In c (names conf)) ->
  NoDup (names src) /\ columns conf' = columns conf ++ columns src.
Proof.
  intros H Hnew. pose proof (copy_columns_NoDup _ _ _ H) as Hnd.
  split; [exact Hnd|].
  destruct (copy_columns_append _ _ _ _ H Hnd Hnew) as (vs & Hl & Hc & Hlk).
  rewrite Hc. f_equal. unfold names in *. apply combine_from_lookup; try assumption.
  now rewrite length_map in Hl.
Qed.

(** The three mean signals and their expansions, as [main] lays them out. *)
Lemma signal_columns_derive (df : DataFrame) gs wm csf sfx g :
  getitem df "global_signal" = Ok gs ->
  getitem df "white_matter" = Ok wm ->
  getitem df "csf" = Ok csf ->
  derive df sfx g gs_base
  = Ok (map (fun kv => ((fst kv ++ sfx)%string, g (snd kv)))
            [("global_signal", gs); ("white_matter", wm); ("csf", csf)]).
Proof.
  intros H1 H2 H3. unfold gs_base. cbn [derive]. rewrite H1, H2, H3. reflexivity.
Qed.

Lemma gather_columns env args conf :
  gather env args = Ok conf ->
  exists masks df gs wm csf fd_vals fd dv dvars std_dvars acomps cos,
    aseg_to_masks env (gm_dilate_iter args) = Ok masks
    /\ motion_df_from_mcflirt (mcpar_lines env) = Ok df
    /\ mean_signal env (brain_mask masks) = Ok gs
    /\ mean_signal env (wm_mask masks) = Ok wm
    /\ mean_signal env (csf_mask masks) = Ok csf
    /\ run_fd env = Ok fd_vals
    /\ enforce_length_1d "framewise_displacement" (Some fd_vals)
                         (Z.of_nat (nth 3 (bold_shape env) 0)) np_nan = Ok fd
    /\ run_dvars env = Ok dv
    /\ enforce_length_1d "dvars" (fst dv) (Z.of_nat (nth 3 (bold_shape env) 0)) np_nan
       = Ok dvars
    /\ enforce_length_1d "std_dvars" (snd dv) (Z.of_nat (nth 3 (bold_shape env) 0)) np_nan
       = Ok std_dvars
    /\ run_acompcor_single env (wmcsf_mask masks) = Ok acomps
    /\ nrows acomps = nth 3 (bold_shape env) 0
    /\ cosine_drift_terms env (nth 3 (bold_shape env) 0) (tr args) 128 = Ok cos
    /\ NoDup (names acomps) /\ NoDup (names cos)
    /\ columns conf
       = (columns df
          ++ (let s := [("global_signal", gs); ("white_matter", wm); ("csf", csf)] in
              s ++ map (fun kv => ((fst kv ++ "_derivative1")%string,
                                   backward_diff (snd kv))) s
                ++ map (fun kv => ((fst kv ++ "_power2")%string, square (snd kv))) s
                ++ map (fun kv => ((fst kv ++ "_derivative1_power2")%string,
                                   square (backward_diff (snd kv)))) s)
          ++ [("framewise_displacement", fd); ("dvars", dvars); ("std_dvars", std_dvars)])
         ++ columns acomps ++ columns cos.
Proof.
  unfold gather. intros H. repeat step H.
  exists a0, a1, a2, a4, a6, a9, a10, a12, a13, a15, a17, a19.
  apply negb_false_iff, Nat.eqb_eq in E1.
  pose proof (motion_df_names _ _ Ha1) as N1.
  destruct (setitem_append _ _ _ _ _ Ha3 N1 eq_refl) as [C3 N3].
  destruct (setitem_append _ _ _ _ _ Ha5 N3 eq_refl) as [C5 N5].
  destruct (setitem_append _ _ _ _ _ Ha7 N5 eq_refl) as [C7 N7].
  assert (M1 : forall c, In c gs_base -> mem c (map fst (columns a1)) = false).
  { fold (names a1). rewrite N1. intros c Hc. simpl in Hc.
    destruct Hc as [<-|[<-|[<-|[]]]]; reflexivity. }
  assert (G1 : getitem a7 "global_signal" = Ok a2).
  { unfold getitem. rewrite C7, C5, C3, <- !app_assoc.
    rewrite lookup_app_new by (apply M1; simpl; auto). reflexivity. }
  assert (G2 : getitem a7 "white_matter" = Ok a4).
  { unfold getitem. rewrite C7, C5, C3, <- !app_assoc.
    rewrite lookup_app_new by (apply M1; simpl; auto). reflexivity. }
  assert (G3 : getitem a7 "csf" = Ok a6).
  { unfold getitem. rewrite C7, C5, C3, <- !app_assoc.
    rewrite lookup_app_new by (apply M1; simpl; auto). reflexivity. }
  pose proof (add_fmriprep_expansions_names _ _ _ Ha8) as N8. rewrite N7 in N8.
  assert (C8 : columns a8
               = columns a7
                 ++ map (fun kv => ((fst kv ++ "_derivative1")%string, backward_diff (snd kv)))
                        [("global_signal", a2); ("white_matter", a4); ("csf", a6)]
                 ++ map (fun kv => ((fst kv ++ "_power2")%string, square (snd kv)))
                        [("global_signal", a2); ("white_matter", a4); ("csf", a6)]
                 ++ map (fun kv => ((fst kv ++ "_derivative1_power2")%string,
                                    square (backward_diff (snd kv))))
                        [("global_signal", a2); ("white_matter", a4); ("csf", a6)]).
  { unfold add_fmriprep_expansions in Ha8.
    rewrite (signal_columns_derive a7 a2 a4 a6 _ backward_diff G1 G2 G3) in Ha8.
    rewrite (signal_columns_derive a7 a2 a4 a6 _ square G1 G2 G3) in Ha8.
    rewrite (signal_columns_derive a7 a2 a4 a6 _
               (fun v => square (backward_diff v)) G1 G2 G3) in Ha8.
    cbn [bind] in Ha8. inversion Ha8. unfold concat_axis1. cbn [columns flat_map].
    now rewrite app_nil_r. }
  destruct (setitem_append _ _ _ _ _ Ha11 N8 eq_refl) as [C11 N11].
  destruct (setitem_append _ _ _ _ _ Ha14 N11 eq_refl) as [C14 N14].
  destruct (setitem_append _ _ _ _ _ Ha16 N14 eq_refl) as [C16 N16].
  assert (F16 : names a16 = fixed_columns) by (rewrite N16; reflexivity).
  pose proof (run_acompcor_single_names _ _ _ Ha17) as K17.
  pose proof (cosine_drift_terms_names _ _ _ _ _ Ha19) as K19.
  rewrite Forall_forall in K17, K19.
  destruct (copy_columns_all _ _ _ Ha18) as [D17 C18].
  { intros c Hc Hin. rewrite F16 in Hin.
    destruct (fixed_columns_kind c Hin) as [Hf _]. rewrite (K17 c Hc) in Hf.
    discriminate. }
  destruct (copy_columns_all _ _ _ H) as [D19 C].
  { intros c Hc Hin. unfold names in Hin. rewrite C18, map_app in Hin.
    apply in_app_or in Hin. destruct Hin as [Hin|Hin].
    - fold (names a16) in Hin. rewrite F16 in Hin.
      destruct (fixed_columns_kind c Hin) as [_ Hf]. rewrite (K19 c Hc) in Hf.
      discriminate.
    - pose proof (acomp_not_cosine c (K17 c Hin)) as Hf. rewrite (K19 c Hc) in Hf.
      discriminate. }
  repeat (split; [assumption|]).
  rewrite C, C18, C16, C14, C11, C8, C7, C5, C3. cbv zeta.
  rewrite <- !app_assoc. reflexivity.
Qed.

End GatheredTable.

Section WrittenMetrics.

(** The motion-quality columns of the table written are the tool series
    after the length rule. *)
Lemma written_motion_metrics :
  forall env args table,
    Experimental.main env args = Ok table ->
    exists outputs fd_vals nstd std fd dvars std_dvars,
      run_fd env = Ok fd_vals
      /\ dvars_run env = Ok outputs
      /\ read_if_path env (pick_existing_output env outputs
                             ["out_nstd"; "nstd_file"; "nstd_out"; "out_all"]) = Ok nstd
      /\ read_if_path env (pick_existing_output env outputs
                             ["out_std"; "std_file"; "std_out"]) = Ok std
      /\ Experimental.enforce_length_1d "framewise_displacement" (Some fd_vals)
           (Z.of_nat (nth 3 (bold_shape env) 0)) np_nan = Ok fd
      /\ Experimental.enforce_length_1d "dvars" nstd
           (Z.of_nat (nth 3 (bold_shape env) 0)) np_nan = Ok dvars
      /\ Experimental.enforce_length_1d "std_dvars" std
           (Z.of_nat (nth 3 (bold_shape env) 0)) np_nan = Ok std_dvars
      /\ getitem table "framewise_displacement" = Ok fd
      /\ getitem table "dvars" = Ok dvars
      /\ getitem table "std_dvars" = Ok std_dvars.
Proof.
  intros env args table H.
  destruct (main_lookup _ _ _ H) as (conf & Hg & Hlk).
  destruct (gather_columns _ _ _ Hg)
    as (masks & df & gs & wm & csf & fd_vals & fd & dv & dvars & std_dvars & acomps & cos
        & _ & Hdf & _ & _ & _ & Hfd & Efd & Hdv & Edv & Estd & _ & _ & _ & _ & _ & Hc).
  unfold Experimental.run_dvars in Hdv. step Hdv. step Hdv. step Hdv.
  inversion Hdv; subst dv. cbn [fst snd] in Edv, Estd.
  exists a, fd_vals, a1, a0, fd, dvars, std_dvars.
  repeat (split; [assumption|]).
  assert (M : forall c, mem c (names df) = false ->
                        lookup c (columns table)
                        = lookup c ([("global_signal", gs); ("white_matter", wm);
                                     ("csf", csf)]
                                    ++ map (fun kv => ((fst kv ++ "_derivative1")%string,
                                                       backward_diff (snd kv)))
                                           [("global_signal", gs); ("white_matter", wm);
                                            ("csf", csf)]
                                    ++ map (fun kv => ((fst kv ++ "_power2")%string,
                                                       square (snd kv)))
                                           [("global_signal", gs); ("white_matter", wm);
                                            ("csf", csf)]
                                    ++ map (fun kv => ((fst kv ++ "_derivative1_power2")%string,
                                                       square (backward_diff (snd kv))))
                                           [("global_signal", gs); ("white_matter", wm);
                                            ("csf", csf)]
                                    ++ [("framewise_displacement", fd); ("dvars", dvars);
                                        ("std_dvars", std_dvars)]
                                    ++ columns acomps ++ columns cos)).
  { intros c Hm. rewrite Hlk, Hc. cbv zeta. rewrite <- !app_assoc.
    now apply lookup_app_new. }
  rewrite (motion_df_names _ _ Hdf) in M.
  unfold getitem. rewrite !M by reflexivity. repeat split.
Qed.

End WrittenMetrics.

(** * DVARS and framewise displacement in the table *)

(** C1 (as amended).  In the experimental pipeline every DVARS series goes
    through [enforce_length_1d]: a series of length T is used as it is, one of
    length T-1 or T-2 gets its missing leading frames filled with NaN, any
    other length raises the length-mismatch [ValueError], an absent series
    becomes T NaNs, and whatever is handed on has length T; the [dvars]
    and [std_dvars] columns of every table it writes are the series of the
    DVARS run after that rule, with NaN as the filler, and have T entries.
    In the preproc
    pipeline a series two short is padded with two leading zeros, no other
    length is padded, and a series whose length is neither T nor T-2
    (T-1 included) is refused by the table with a [ValueError]. *)
Theorem C1_dvars_length_policy :
  (forall (name : string) (x : list float) (T : nat),
      (len x = Z.of_nat T ->
       Experimental.enforce_length_1d name (Some x) (Z.of_nat T) np_nan = Ok x)
      /\ (len x = (Z.of_nat T - 1)%Z \/ len x = (Z.of_nat T - 2)%Z ->
          Experimental.enforce_length_1d name (Some x) (Z.of_nat T) np_nan
          = Ok (np_full (T - List.length x) np_nan ++ x))
      /\ (len x <> Z.of_nat T -> len x <> (Z.of_nat T - 1)%Z ->
          len x <> (Z.of_nat T - 2)%Z ->
          exists msg,
            Experimental.enforce_length_1d name (Some x) (Z.of_nat T) np_nan
            = Raise (ValueError msg))
      /\ Experimental.enforce_length_1d name None (Z.of_nat T) np_nan
         = Ok (np_full T np_nan)
      /\ (forall o y,
             Experimental.enforce_length_1d name o (Z.of_nat T) np_nan = Ok y ->
             List.length y = T))
  /\
  (forall (T : nat) (conf : DataFrame) (std : option (list float)) (nstd : list float),
      nrows conf = T ->
      (len nstd = (Z.of_nat T - 2)%Z ->
       snd (Preproc.dvars_columns T std (Some nstd)) = Some (fzero :: fzero :: nstd))
      /\ (len nstd <> (Z.of_nat T - 2)%Z ->
          Preproc.dvars_columns T std (Some nstd) = (std, Some nstd))
      /\ (len nstd <> Z.of_nat T -> len nstd <> (Z.of_nat T - 2)%Z ->
          exists msg,
            Preproc.dvars_step T conf std (Some nstd) = Raise (ValueError msg)))
  /\
  (forall env args table,
      Experimental.main env args = Ok table ->
      exists dv dvars std_dvars,
        Experimental.run_dvars env = Ok dv
        /\ Experimental.enforce_length_1d "dvars" (fst dv)
             (Z.of_nat (nth 3 (bold_shape env) 0)) np_nan = Ok dvars
        /\ Experimental.enforce_length_1d "std_dvars" (snd dv)
             (Z.of_nat (nth 3 (bold_shape env) 0)) np_nan = Ok std_dvars
        /\ getitem table "dvars" = Ok dvars
        /\ getitem table "std_dvars" = Ok std_dvars
        /\ List.length dvars = nth 3 (bold_shape env) 0
        /\ List.length std_dvars = nth 3 (bold_shape env) 0).
Proof.
  split; [|split].
  - intros name x T. repeat split.
    + apply enforce_exact.
    + intros H. now destruct (enforce_short name x T np_nan H).
    + intros H0 H1 H2. eexists. now apply enforce_other.
    + apply enforce_none.
    + intros o y. apply enforce_Ok_length.
  - intros T conf std nstd Hrows. repeat split.
    + intros H. now rewrite dvars_columns_pad.
    + apply dvars_columns_keep.
    + intros H0 H2. unfold Preproc.dvars_step.
      rewrite dvars_columns_keep by exact H2. simpl.
      rewrite setitem_length_mismatch.
      * eexists. reflexivity.
      * rewrite Hrows. unfold len in H0. lia.
  - intros env args table H.
    destruct (written_motion_metrics env args table H)
      as (outputs & fd_vals & nstd & std & fd & dvars & std_dvars
          & _ & Hrun & Hnstd & Hstd & _ & Ed & Es & _ & Gd & Gs).
    exists (nstd, std), dvars, std_dvars. cbn [fst snd].
    split; [|split; [exact Ed|split; [exact Es|split; [exact Gd|split; [exact Gs|]]]]].
    + unfold Experimental.run_dvars. rewrite Hrun. cbn [bind].
      rewrite Hstd. cbn [bind]. rewrite Hnstd. reflexivity.
    + split; [exact (enforce_Ok_length _ _ _ _ _ Ed) | exact (enforce_Ok_length _ _ _ _ _ Es)].
Qed.

(** C1, on a run of three frames: a series of two values gets one leading
    NaN in the experimental pipeline, whose table holds it that way, and is
    refused by the preproc one. *)
Lemma C1_dvars_length_policy_witness :
  Experimental.enforce_length_1d "dvars" (Some [20; 24]%float) 3 np_nan
  = Ok ([np_nan; 20; 24]%float)
  /\ (exists msg,
         Preproc.dvars_step 3 (mkDF 3 [("trans_x", [0; 0.5; 1.5]%float)])
                            (Some [1.25; 1.5]%float) (Some [20; 24]%float)
         = Raise (ValueError msg))
  /\ exists table,
      Experimental.main Ref.env Ref.args = Ok table
      /\ Experimental.run_dvars Ref.env
         = Ok (Some [20; 24]%float, Some [1.25; 1.5]%float)
      /\ getitem table "dvars" = Ok [np_nan; 20; 24]%float
      /\ getitem table "std_dvars" = Ok [np_nan; 1.25; 1.5]%float.
Proof.
  destruct C1_dvars_length_policy as (E & P & M). split; [|split].
  - destruct (E "dvars" [20; 24]%float 3%nat) as (_ & H & _).
    apply H. left. reflexivity.
  - destruct (P 3%nat (mkDF 3 [("trans_x", [0; 0.5; 1.5]%float)])
                (Some [1.25; 1.5]%float) [20; 24]%float eq_refl) as (_ & _ & H).
    apply H; unfold len; simpl; lia.
  - assert (Em : exists table, Ok table = Experimental.main Ref.env Ref.args).
    { vm_compute. eexists. reflexivity. }
    destruct Em as (table & Em). exists table. split; [now symmetry|].
    destruct (M Ref.env Ref.args table (eq_sym Em))
      as (dv & dvars & std_dvars & Hdv & Ed & Es & Gd & Gs & _).
    vm_compute in Hdv. inversion Hdv; subst dv. cbn [fst snd] in Ed, Es.
    vm_compute in Ed. inversion Ed; subst dvars.
    vm_compute in Es. inversion Es; subst std_dvars.
    split; [reflexivity|]. split; [exact Gd | exact Gs].
Defined.

(** C1 as stated fails in the preproc pipeline: on a run of three frames a
    DVARS series of one value is handed to the table with two leading zeros,
    and a zero is not the missing-value marker. *)
Lemma C1_preproc_pads_with_zeros :
  Preproc.dvars_step 3 (mkDF 3 [("trans_x", [0; 0.5; 1.5]%float)])
                     (Some [1.5]%float) (Some [24]%float)
  = Ok (mkDF 3 [ ("trans_x", [0; 0.5; 1.5]%float);
                 ("dvars", [0; 0; 24]%float);
                 ("dvars_standardized", [0; 0; 1.5]%float) ])
  /\ PrimFloat.is_nan 0%float = false
  /\ PrimFloat.is_nan np_nan = true.
Proof. repeat split. Qed.

(** C8 (as amended).  The framewise-displacement column has length T in
    every pipeline.  In the preproc pipeline a series of T values is used as
    it is, one of T-1 values gets a leading 0.0, so that the first frame is
    zero, and any other length raises a [ValueError]; in the old script the
    first frame is exactly zero.  In the experimental pipeline a series of
    T-1 (or T-2) values is padded with NaN, so that the first frame is the
    missing-value marker; the [framewise_displacement] column of every
    table that pipeline writes has T entries. *)
Theorem C8_framewise_displacement_first_frame :
  (forall (T : nat) (fd : list float),
      (len fd = Z.of_nat T -> Preproc.fd_column T fd = Ok fd)
      /\ (len fd = (Z.of_nat T - 1)%Z -> Preproc.fd_column T fd = Ok (fzero :: fd))
      /\ (len fd <> Z.of_nat T -> len fd <> (Z.of_nat T - 1)%Z ->
          exists msg, Preproc.fd_column T fd = Raise (ValueError msg))
      /\ (forall y, Preproc.fd_column T fd = Ok y -> List.length y = T))
  /\ (forall (T : nat) (fd : list float),
         (len fd = (Z.of_nat T - 1)%Z ->
          Experimental.enforce_length_1d "framewise_displacement" (Some fd)
                                         (Z.of_nat T) np_nan
          = Ok (np_nan :: fd))
         /\ (len fd = (Z.of_nat T - 2)%Z ->
             Experimental.enforce_length_1d "framewise_displacement" (Some fd)
                                            (Z.of_nat T) np_nan
             = Ok (np_nan :: np_nan :: fd))
         /\ (forall y,
                Experimental.enforce_length_1d "framewise_displacement" (Some fd)
                                               (Z.of_nat T) np_nan = Ok y ->
                List.length y = T))
  /\ (forall motion : list (list float),
         List.length (Old.framewise_displacement motion) = List.length motion
         /\ (motion <> [] ->
             nth_error (Old.framewise_displacement motion) 0 = Some fzero))
  /\ (forall env args table,
         Experimental.main env args = Ok table ->
         exists fd,
           getitem table "framewise_displacement" = Ok fd
           /\ List.length fd = nth 3 (bold_shape env) 0).
Proof.
  split; [|split; [|split]].
  - intros T fd. destruct (fd_column_cases T fd) as (H0 & H1 & H2 & H3).
    repeat split; try assumption.
    intros Ha Hb. eexists. now apply H2.
  - intros T fd. repeat split.
    + intros H. destruct (enforce_short "framewise_displacement" fd T np_nan (or_introl H))
        as [-> _].
      replace (T - List.length fd) with 1 by (unfold len in H; lia). reflexivity.
    + intros H. destruct (enforce_short "framewise_displacement" fd T np_nan (or_intror H))
        as [-> _].
      replace (T - List.length fd) with 2 by (unfold len in H; lia). reflexivity.
    + intros y. apply enforce_Ok_length.
  - intros motion. split; [apply old_fd_length | apply old_fd_first].
  - intros env args table H.
    apply (main_fixed_column env args table "framewise_displacement" H).
    apply mem_In. reflexivity.
Qed.

(** C8 on a run of three frames with two displacement values. *)
Lemma C8_framewise_displacement_first_frame_witness :
  Preproc.fd_column 3 [0.25; 0.5]%float = Ok [0; 0.25; 0.5]%float
  /\ Experimental.enforce_length_1d "framewise_displacement" (Some [0.25; 0.5]%float)
                                    3 np_nan
     = Ok [np_nan; 0.25; 0.5]%float
  /\ nth_error (Old.framewise_displacement
                  (Old.load_motion (mcpar_lines Ref.env))) 0 = Some 0%float.
Proof.
  destruct C8_framewise_displacement_first_frame as (P & E & O & _).
  split; [|split].
  - destruct (P 3 [0.25; 0.5]%float) as (_ & H & _). apply H. reflexivity.
  - destruct (E 3 [0.25; 0.5]%float) as (H & _). apply H. reflexivity.
  - destruct (O (Old.load_motion (mcpar_lines Ref.env))) as (_ & H).
    apply H. discriminate.
Defined.

(** C8 as stated fails in the experimental pipeline: on the reference run
    (three frames, two displacement values from the tool) the table is
    written with NaN as the first framewise displacement. *)
Lemma C8_experimental_first_frame_is_missing :
  bind (Experimental.main Ref.env Ref.args)
       (fun table => getitem table "framewise_displacement")
  = Ok [np_nan; 0.25; 0.5]%float
  /\ PrimFloat.is_nan np_nan = true.
Proof. split; vm_compute; reflexivity. Qed.

(** * Tissue masks *)

Section TissueMasks.

Lemma nth_zip_with_andb a : forall b i,
  nth i (zip_with andb a b) false = nth i a false && nth i b false.
Proof.
  unfold zip_with. induction a as [|x a IH]; intros b i.
  - simpl. now destruct i.
  - destruct b as [|y b]; simpl.
    + destruct i; simpl; now rewrite andb_false_r.
    + destruct i; simpl; [reflexivity | apply IH].
Qed.

Lemma nth_zip_with_orb a : forall b i,
  List.length a = List.length b ->
  nth i (zip_with orb a b) false = nth i a false || nth i b false.
Proof.
  unfold zip_with. induction a as [|x a IH]; intros b i H.
  - destruct b; [|discriminate]. simpl. now destruct i.
  - destruct b as [|y b]; [discriminate|]. simpl in *.
    destruct i; simpl; [reflexivity | apply IH; lia].
Qed.

Lemma zip_with_length {A B C : Type} (f : A -> B -> C) a b :
  List.length (zip_with f a b) = Nat.min (List.length a) (List.length b).
Proof. unfold zip_with. now rewrite length_map, length_combine. Qed.

Lemma nth_isin aseg labels i :
  nth i (isin aseg labels) false = true ->
  exists v, nth_error aseg i = Some v /\ In v labels.
Proof.
  unfold isin. revert i. induction aseg as [|a aseg IH]; intros i H.
  - destruct i; discriminate.
  - destruct i; simpl in *.
    + exists a. split; [reflexivity|].
      apply existsb_exists in H. destruct H as (x & Hin & E).
      apply Z.eqb_eq in E. now subst.
    + now apply IH.
Qed.

Lemma nth_isin_false aseg labels i v :
  nth_error aseg i = Some v -> ~ In v labels -> nth i (isin aseg labels) false = false.
Proof.
  unfold isin. revert i. induction aseg as [|a aseg IH]; intros i H Hn.
  - destruct i; discriminate.
  - destruct i; simpl in *.
    + inversion H; subst. apply not_true_is_false. intros E.
      apply existsb_exists in E. destruct E as (x & Hin & E).
      apply Z.eqb_eq in E. subst. contradiction.
    + now apply IH.
Qed.

Lemma nth_positive aseg i v :
  nth_error aseg i = Some v -> nth i (map (fun v => Z.ltb 0 v) aseg) false = Z.ltb 0 v.
Proof.
  revert i. induction aseg as [|a aseg IH]; intros i H.
  - destruct i; discriminate.
  - destruct i; simpl in *; [now inversion H | now apply IH].
Qed.

Lemma nth_map_negb l : forall i,
  nth i (map negb l) false = true -> nth i l false = false.
Proof.
  induction l as [|x l IH]; intros i H.
  - destruct i; discriminate.
  - destruct i; simpl in *; [now destruct x | now apply IH].
Qed.

Lemma n_voxels_zero mask :
  (forall b, In b mask -> b = false) -> n_voxels mask = 0.
Proof.
  unfold n_voxels. induction mask as [|b mask IH]; intros H; [reflexivity|].
  simpl. rewrite (H b (or_introl eq_refl)). apply IH. intros b' Hb'. apply H. now right.
Qed.

Lemma isin_none aseg labels b :
  (forall v, In v aseg -> ~ In v labels) -> In b (isin aseg labels) -> b = false.
Proof.
  unfold isin. intros H Hb. apply in_map_iff in Hb. destruct Hb as (v & <- & Hv).
  apply not_true_is_false. intros E. apply existsb_exists in E.
  destruct E as (x & Hin & E). apply Z.eqb_eq in E. subst. exact (H _ Hv Hin).
Qed.

Lemma zip_with_andb_none a b x :
  (forall y, In y a -> y = false) -> In x (zip_with andb a b) -> x = false.
Proof.
  unfold zip_with. intros H Hx. apply in_map_iff in Hx.
  destruct Hx as ([y z] & <- & Hin). apply in_combine_l in Hin.
  simpl. now rewrite (H y Hin).
Qed.

Lemma zip_with_orb_none a b x :
  (forall y, In y a -> y = false) -> (forall y, In y b -> y = false) ->
  In x (zip_with orb a b) -> x = false.
Proof.
  unfold zip_with. intros Ha Hb Hx. apply in_map_iff in Hx.
  destruct Hx as ([y z] & <- & Hin).
  pose proof (in_combine_l _ _ _ _ Hin) as Hy.
  pose proof (in_combine_r _ _ _ _ Hin) as Hz.
  simpl. now rewrite (Ha y Hy), (Hb z Hz).
Qed.

Lemma masks_of_absent_labels :
  forall env it aseg m,
    aseg_resampled env = Ok aseg ->
    aseg_to_masks env it = Ok m ->
    ((forall v, In v aseg -> ~ In v WM_LABELS) -> n_voxels (wm_mask m) = 0)
    /\ ((forall v, In v aseg -> ~ In v CSF_LABELS) -> n_voxels (csf_mask m) = 0)
    /\ ((forall v, In v aseg -> ~ In v WM_LABELS /\ ~ In v CSF_LABELS) ->
        n_voxels (wmcsf_mask m) = 0)
    /\ ((forall v, In v aseg -> (v <= 0)%Z) -> n_voxels (brain_mask m) = 0).
Proof.
  intros env it aseg m Ha Hm. unfold aseg_to_masks in Hm. rewrite Ha in Hm.
  simpl in Hm. inversion Hm; subst; clear Hm. cbn [wm_mask csf_mask brain_mask wmcsf_mask].
  repeat split.
  - intros H. apply n_voxels_zero. intros b. apply zip_with_andb_none.
    intros y. now apply isin_none.
  - intros H. apply n_voxels_zero. intros b. apply zip_with_andb_none.
    intros y. now apply isin_none.
  - intros H. apply n_voxels_zero. intros b. apply zip_with_orb_none.
    + intros y. apply zip_with_andb_none. intros z. apply isin_none.
      intros v Hv. now apply H.
    + intros y. apply zip_with_andb_none. intros z. apply isin_none.
      intros v Hv. now apply H.
  - intros H. apply n_voxels_zero. intros b Hb. apply in_map_iff in Hb.
    destruct Hb as (v & <- & Hv). apply Z.ltb_ge. now apply H.
Qed.

End TissueMasks.

(** X1.  The masks [aseg_to_masks] builds: no voxel is in both the
    white-matter and the CSF mask; neither mask holds a voxel of the
    (dilated) cortex mask; both lie inside the brain mask; and the combined
    mask is their union, voxel by voxel.  This holds for every segmentation
    and whatever the dilation returns. *)
Theorem X1_masks_are_exclusive :
  forall env it aseg m,
    aseg_resampled env = Ok aseg ->
    aseg_to_masks env it = Ok m ->
    forall i,
      (nth i (wm_mask m) false = true -> nth i (csf_mask m) false = false)
      /\ (nth i (wm_mask m) false = true -> nth i (dilated_cortex env it aseg) false = false)
      /\ (nth i (csf_mask m) false = true -> nth i (dilated_cortex env it aseg) false = false)
      /\ (nth i (wm_mask m) false = true -> nth i (brain_mask m) false = true)
      /\ (nth i (csf_mask m) false = true -> nth i (brain_mask m) false = true)
      /\ nth i (wmcsf_mask m) false = nth i (wm_mask m) false || nth i (csf_mask m) false.
Proof.
  intros env it aseg m Ha Hm i. unfold aseg_to_masks in Hm. rewrite Ha in Hm.
  simpl in Hm. inversion Hm; subst; clear Hm. cbn [wm_mask csf_mask brain_mask wmcsf_mask].
  fold (dilated_cortex env it aseg).
  rewrite !nth_zip_with_andb.
  assert (Hwm : nth i (isin aseg WM_LABELS) false = true ->
                nth i (isin aseg CSF_LABELS) false = false
                /\ nth i (map (fun v => Z.ltb 0 v) aseg) false = true).
  { intros H. apply nth_isin in H. destruct H as (v & Hv & Hin). split.
    - apply (nth_isin_false _ _ _ v Hv). intros Hc.
      unfold WM_LABELS, CSF_LABELS in *. simpl in Hin, Hc. lia.
    - rewrite (nth_positive _ _ v Hv). unfold WM_LABELS in Hin. simpl in Hin.
      apply Z.ltb_lt. lia. }
  assert (Hcsf : nth i (isin aseg CSF_LABELS) false = true ->
                 nth i (map (fun v => Z.ltb 0 v) aseg) false = true).
  { intros H. apply nth_isin in H. destruct H as (v & Hv & Hin).
    rewrite (nth_positive _ _ v Hv). unfold CSF_LABELS in Hin. simpl in Hin.
    apply Z.ltb_lt. lia. }
  repeat split.
  - intros H. apply andb_true_iff in H. destruct H as [H _].
    destruct (Hwm H) as [-> _]. reflexivity.
  - intros H. apply andb_true_iff in H. destruct H as [_ H]. now apply nth_map_negb.
  - intros H. apply andb_true_iff in H. destruct H as [_ H]. now apply nth_map_negb.
  - intros H. apply andb_true_iff in H. destruct H as [H _]. now apply Hwm.
  - intros H. apply andb_true_iff in H. destruct H as [H _]. now apply Hcsf.
  - rewrite nth_zip_with_orb; [now rewrite !nth_zip_with_andb|].
    rewrite !zip_with_length. unfold isin. now rewrite !length_map.
Qed.

Lemma X1_masks_are_exclusive_witness :
  aseg_resampled Ref.env = Ok [2; 4; 3; 0]%Z
  /\ dilated_cortex Ref.env 1 [2; 4; 3; 0]%Z = [true; false; true; true]
  /\ aseg_to_masks Ref.env 1
     = Ok (mkMasks [true; true; true; false] [false; false; false; false]
                   [false; true; false; false] [false; true; false; false])
  /\ (nth 1 [false; false; false; false] false = true ->
      nth 1 [false; true; false; false] false = false)
  /\ (nth 1 [false; false; false; false] false = true ->
      nth 1 (dilated_cortex Ref.env 1 [2; 4; 3; 0]%Z) false = false)
  /\ (nth 1 [false; true; false; false] false = true ->
      nth 1 (dilated_cortex Ref.env 1 [2; 4; 3; 0]%Z) false = false)
  /\ (nth 1 [false; false; false; false] false = true ->
      nth 1 [true; true; true; false] false = true)
  /\ (nth 1 [false; true; false; false] false = true ->
      nth 1 [true; true; true; false] false = true)
  /\ nth 1 [false; true; false; false] false
     = nth 1 [false; false; false; false] false || nth 1 [false; true; false; false] false.
Proof.
  split; [reflexivity|]. split; [reflexivity|]. split; [reflexivity|].
  exact (X1_masks_are_exclusive Ref.env 1 [2; 4; 3; 0]%Z
           (mkMasks [true; true; true; false] [false; false; false; false]
                    [false; true; false; false] [false; true; false; false])
           eq_refl eq_refl 1).
Defined.

(** X2.  A tissue mask is empty when its labels are absent, whatever the
    dilation does: with no white-matter label in the segmentation the
    white-matter mask selects no voxel, likewise for CSF, with neither the
    combined mask is empty, and with no positive label the brain mask is
    empty. *)
Theorem X2_masks_of_absent_labels_are_empty :
  forall env it aseg m,
    aseg_resampled env = Ok aseg ->
    aseg_to_masks env it = Ok m ->
    ((forall v, In v aseg -> ~ In v WM_LABELS) -> n_voxels (wm_mask m) = 0)
    /\ ((forall v, In v aseg -> ~ In v CSF_LABELS) -> n_voxels (csf_mask m) = 0)
    /\ ((forall v, In v aseg -> ~ In v WM_LABELS /\ ~ In v CSF_LABELS) ->
        n_voxels (wmcsf_mask m) = 0)
    /\ ((forall v, In v aseg -> (v <= 0)%Z) -> n_voxels (brain_mask m) = 0).
Proof. exact masks_of_absent_labels. Qed.

Lemma X2_masks_of_absent_labels_are_empty_witness :
  exists m,
    aseg_to_masks Ref.env_zero_seg 1 = Ok m
    /\ n_voxels (wm_mask m) = 0 /\ n_voxels (csf_mask m) = 0
    /\ n_voxels (wmcsf_mask m) = 0 /\ n_voxels (brain_mask m) = 0.
Proof.
  eexists. split; [reflexivity|].
  destruct (X2_masks_of_absent_labels_are_empty Ref.env_zero_seg 1 [0; 0; 0; 0]%Z _
              eq_refl eq_refl) as (H1 & H2 & H3 & H4).
  assert (Hz : forall v : Z, In v [0; 0; 0; 0]%Z -> v = 0%Z).
  { intros v Hv. simpl in Hv. intuition congruence. }
  split; [|split; [|split]].
  - apply H1. intros v Hv. rewrite (Hz v Hv). cbv. intuition discriminate.
  - apply H2. intros v Hv. rewrite (Hz v Hv). cbv. intuition discriminate.
  - apply H3. intros v Hv. rewrite (Hz v Hv). cbv. intuition discriminate.
  - apply H4. intros v Hv. rewrite (Hz v Hv). lia.
Defined.

(** * Locating a tool's output file *)

Section OutputPaths.

Lemma getattr_str_nonempty outputs c p :
  getattr_str outputs c = Some p -> p <> "".
Proof.
  induction outputs as [|[k v] rest IH]; simpl; [discriminate|].
  destruct (String.eqb c k); [|exact IH].
  destruct v as [s|]; [|discriminate].
  destruct (String.eqb s "") eqn:E; [discriminate|].
  intros H. inversion H; subst. now apply String.eqb_neq.
Qed.

Lemma first_path_Some ok outputs candidates p :
  first_path ok outputs candidates = Some p ->
  ok p = true /\ exists c, In c candidates /\ getattr_str outputs c = Some p.
Proof.
  induction candidates as [|c rest IH]; simpl; [discriminate|].
  destruct (getattr_str outputs c) as [q|] eqn:G.
  - destruct (ok q) eqn:Eq.
    + intros H. inversion H; subst. split; [exact Eq|]. exists c. auto.
    + intros H. destruct (IH H) as (Hok & c' & Hin & Hg). split; [exact Hok|].
      exists c'. auto.
  - intros H. destruct (IH H) as (Hok & c' & Hin & Hg). split; [exact Hok|].
    exists c'. auto.
Qed.

Lemma first_path_None ok outputs candidates :
  first_path ok outputs candidates = None <->
  forall c p, In c candidates -> getattr_str outputs c = Some p -> ok p = false.
Proof.
  induction candidates as [|c rest IH]; simpl.
  - split; [intros _ c p [] | reflexivity].
  - destruct (getattr_str outputs c) as [q|] eqn:G.
    + destruct (ok q) eqn:Eq.
      * split; [discriminate|]. intros H. specialize (H c q (or_introl eq_refl) G).
        congruence.
      * rewrite IH. split.
        -- intros H c' p [<-|Hin] Hg; [congruence | now apply (H c' p)].
        -- intros H c' p Hin Hg. apply (H c' p); auto.
    + rewrite IH. split.
      * intros H c' p [<-|Hin] Hg; [congruence | now apply (H c' p)].
      * intros H c' p Hin Hg. apply (H c' p); auto.
Qed.

Lemma pick_existing_output_None env outputs candidates :
  pick_existing_output env outputs candidates = None
  <-> forall c, In c candidates -> getattr_str outputs c = None.
Proof.
  unfold pick_existing_output.
  destruct (first_path (path_exists env) outputs candidates) as [q|] eqn:F.
  - split; [discriminate|]. intros H.
    destruct (first_path_Some _ _ _ _ F) as (_ & c & Hin & Hg).
    rewrite (H c Hin) in Hg. discriminate.
  - rewrite first_path_None. split.
    + intros H c Hin. destruct (getattr_str outputs c) as [p|] eqn:G; [|reflexivity].
      discriminate (H c p Hin G).
    + intros H c p Hin Hg. rewrite (H c Hin) in Hg. discriminate.
Qed.

End OutputPaths.

(** X3.  What [pick_existing_output] returns is always the value of one of
    the candidate attributes, a non-empty string; and as soon as one
    candidate names a file that exists, the path returned exists, even when
    an earlier candidate names one that does not. *)
Theorem X3_pick_existing_output_sound :
  forall env outputs candidates p,
    pick_existing_output env outputs candidates = Some p ->
    p <> ""
    /\ (exists c, In c candidates /\ getattr_str outputs c = Some p)
    /\ ((exists c q, In c candidates /\ getattr_str outputs c = Some q
                     /\ path_exists env q = true) ->
        path_exists env p = true).
Proof.
  intros env outputs candidates p H. unfold pick_existing_output in H.
  destruct (first_path (path_exists env) outputs candidates) as [q|] eqn:F.
  - inversion H; subst. destruct (first_path_Some _ _ _ _ F) as (Hok & c & Hin & Hg).
    split; [exact (getattr_str_nonempty _ _ _ Hg)|].
    split; [exists c; auto | intros _; exact Hok].
  - destruct (first_path_Some _ _ _ _ H) as (_ & c & Hin & Hg).
    split; [exact (getattr_str_nonempty _ _ _ Hg)|].
    split; [exists c; auto|].
    intros (c' & q & Hin' & Hg' & Hq).
    rewrite (proj1 (first_path_None _ _ _) F c' q Hin' Hg') in Hq. discriminate.
Qed.

Lemma X3_pick_existing_output_sound_witness :
  pick_existing_output Ref.env
    [("out_file", PStr "missing.txt"); ("fd_file", PStr "fd_power_2012.txt")]
    ["out_file"; "fd_file"; "framewise_displacement"] = Some "fd_power_2012.txt"
  /\ "fd_power_2012.txt" <> ""
  /\ (exists c, In c ["out_file"; "fd_file"; "framewise_displacement"]
                /\ getattr_str [("out_file", PStr "missing.txt");
                                ("fd_file", PStr "fd_power_2012.txt")] c
                   = Some "fd_power_2012.txt")
  /\ path_exists Ref.env "fd_power_2012.txt" = true.
Proof.
  split; [reflexivity|].
  destruct (X3_pick_existing_output_sound Ref.env
              [("out_file", PStr "missing.txt"); ("fd_file", PStr "fd_power_2012.txt")]
              ["out_file"; "fd_file"; "framewise_displacement"] "fd_power_2012.txt"
              eq_refl) as (H1 & H2 & H3).
  split; [exact H1|]. split; [exact H2|].
  apply H3. exists "fd_file", "fd_power_2012.txt".
  split; [right; left; reflexivity|]. split; reflexivity.
Defined.

(** X4.  [pick_existing_output] returns [None] exactly when no candidate
    attribute holds a non-empty string; the existence of files plays no part
    in that. *)
Theorem X4_pick_existing_output_none :
  forall env outputs candidates,
    pick_existing_output env outputs candidates = None
    <-> forall c, In c candidates -> getattr_str outputs c = None.
Proof. exact pick_existing_output_None. Qed.

(** * The motion loader and the expansion, on every input *)

Section Expansions.

Import Experimental.

Lemma getitem_Ok_iff df c : (exists v, getitem df c = Ok v) <-> In c (names df).
Proof.
  unfold getitem, names. destruct (lookup c (columns df)) as [v|] eqn:L.
  - split; [|eauto]. intros _.
    destruct (in_dec string_dec c (map fst (columns df))) as [H|H]; [exact H|].
    apply lookup_None_iff in H. congruence.
  - split; [intros (v & H); discriminate|]. intros H.
    apply lookup_None_iff in L. contradiction.
Qed.

Lemma derive_total df sfx g cols :
  (forall c, In c cols -> In c (names df)) ->
  exists l, derive df sfx g cols = Ok l.
Proof.
  induction cols as [|c cols IH]; intros H; [now exists []|].
  cbn [derive].
  destruct (proj2 (getitem_Ok_iff df c) (H c (or_introl eq_refl))) as (v & ->).
  destruct IH as (l & ->); [intros c' Hc'; apply H; now right|].
  simpl. eauto.
Qed.

Lemma derive_Raise df sfx g cols e :
  derive df sfx g cols = Raise e ->
  exists c, e = KeyError c /\ In c cols /\ ~ In c (names df).
Proof.
  induction cols as [|c cols IH]; [discriminate|]. cbn [derive].
  unfold getitem at 1. destruct (lookup c (columns df)) as [v|] eqn:L; simpl.
  - destruct (derive df sfx g cols) as [l|e'] eqn:D; simpl; [discriminate|].
    intros H. inversion H; subst. destruct (IH eq_refl) as (c' & -> & Hin & Hn).
    exists c'. auto.
  - intros H. inversion H; subst. exists c. split; [reflexivity|].
    split; [now left|]. now apply lookup_None_iff.
Qed.

End Expansions.

(** X5.  The motion loader accepts exactly the files that hold at least two
    lines of numbers, each of six numbers (blank lines apart), and returns
    those lines unchanged as an N x 6 array. *)
Theorem X5_loader_accepts_exactly_Nx6 :
  forall lines mp,
    load_mcflirt_par lines = Ok mp
    <-> (2 <= List.length (data_rows lines)
         /\ Forall (fun r => List.length r = 6) (data_rows lines)
         /\ mp = Arr2 (List.length (data_rows lines)) 6 (data_rows lines)).
Proof.
  intros lines mp. split.
  - intros H. apply load_mcflirt_par_Ok in H. tauto.
  - intros (Hn & Hall & ->). now apply load_mcflirt_par_Nx6.
Qed.

(** X6.  The two pipelines build the same motion table from every file, and
    fail with the same exception on every file they refuse. *)
Theorem X6_motion_tables_agree :
  forall lines,
    Preproc.motion_df_from_mcflirt lines = Experimental.motion_df_from_mcflirt lines.
Proof.
  intros lines. destruct (load_mcflirt_par lines) as [mp|e] eqn:L.
  - apply load_mcflirt_par_Ok in L. destruct L as (_ & Hn & Hall).
    destruct (motion_df_value lines Hn Hall) as [-> ->]. reflexivity.
  - unfold Preproc.motion_df_from_mcflirt, Experimental.motion_df_from_mcflirt.
    now rewrite L.
Qed.

(** X7.  On a table with distinct labels and a list of distinct base
    columns, [add_fmriprep_expansions] returns a table exactly when every
    base column is in the input table: it then appends, after the input's
    columns, the derivative, square and squared-derivative columns of the
    base columns, in that order, and keeps the row count; when a base column
    is missing it raises the [KeyError] of a missing base column and returns
    nothing. *)
Theorem X7_expansion_needs_its_base_columns :
  forall df base_cols,
    NoDup (names df) -> NoDup base_cols ->
    ((forall c, In c base_cols -> In c (names df)) ->
     exists df',
       Experimental.add_fmriprep_expansions df base_cols = Ok df'
       /\ nrows df' = nrows df
       /\ names df' = names df ++ with_suffix "_derivative1" base_cols
                      ++ with_suffix "_power2" base_cols
                      ++ with_suffix "_derivative1_power2" base_cols)
    /\ (forall df',
           Experimental.add_fmriprep_expansions df base_cols = Ok df' ->
           forall c, In c base_cols -> In c (names df))
    /\ (forall e,
           Experimental.add_fmriprep_expansions df base_cols = Raise e ->
           exists c, e = KeyError c /\ In c base_cols /\ ~ In c (names df)).
Proof.
  intros df base_cols _ _. split; [|split].
  - intros H.
    destruct (derive_total df "_derivative1" backward_diff base_cols H) as (l1 & H1).
    destruct (derive_total df "_power2" square base_cols H) as (l2 & H2).
    destruct (derive_total df "_derivative1_power2"
                (fun v => square (backward_diff v)) base_cols H) as (l3 & H3).
    assert (E : Experimental.add_fmriprep_expansions df base_cols
                = Ok (concat_axis1 [df; mkDF (nrows df) l1; mkDF (nrows df) l2;
                                    mkDF (nrows df) l3])).
    { unfold Experimental.add_fmriprep_expansions. now rewrite H1, H2, H3. }
    eexists. split; [exact E|]. split; [reflexivity|].
    exact (add_fmriprep_expansions_names _ _ _ E).
  - intros df' H c Hc.
    unfold Experimental.add_fmriprep_expansions in H. step H. clear H.
    revert a Ha. induction base_cols as [|c0 cols IH]; intros l Hl; [contradiction|].
    cbn [Experimental.derive] in Hl. step Hl. step Hl.
    destruct Hc as [<-|Hc].
    + apply getitem_Ok_iff. eauto.
    + exact (IH Hc _ Ha0).
  - intros e H. unfold Experimental.add_fmriprep_expansions in H.
    destruct (Experimental.derive df "_derivative1" backward_diff base_cols)
      as [l1|e1] eqn:D1.
    + destruct (Experimental.derive df "_power2" square base_cols) as [l2|e2] eqn:D2.
      * destruct (Experimental.derive df "_derivative1_power2"
                    (fun v => square (backward_diff v)) base_cols) as [l3|e3] eqn:D3.
        -- discriminate H.
        -- simpl in H. inversion H; subst. exact (derive_Raise _ _ _ _ _ D3).
      * simpl in H. inversion H; subst. exact (derive_Raise _ _ _ _ _ D2).
    + simpl in H. inversion H; subst. exact (derive_Raise _ _ _ _ _ D1).
Qed.

Lemma X7_expansion_needs_its_base_columns_witness :
  (exists df',
      Experimental.add_fmriprep_expansions
        (mkDF 2 [("csf", [0.5; 0.25]%float)]) ["csf"] = Ok df'
      /\ nrows df' = 2
      /\ names df' = ["csf"; "csf_derivative1"; "csf_power2"; "csf_derivative1_power2"])
  /\ (exists c,
         KeyError "white_matter" = KeyError c
         /\ In c ["white_matter"] /\ ~ In c (names (mkDF 2 [("csf", [0.5; 0.25]%float)]))).
Proof.
  assert (N1 : forall c : string, NoDup [c]).
  { intros c. constructor; [intros [] | constructor]. }
  split.
  - destruct (X7_expansion_needs_its_base_columns
                (mkDF 2 [("csf", [0.5; 0.25]%float)]) ["csf"] (N1 _) (N1 _)) as (H & _ & _).
    apply H. intros c [<-|[]]. now left.
  - destruct (X7_expansion_needs_its_base_columns
                (mkDF 2 [("csf", [0.5; 0.25]%float)]) ["white_matter"] (N1 _) (N1 _))
      as (_ & _ & H).
    apply (H (KeyError "white_matter")). reflexivity.
Defined.

Section WrittenColumns.

Import Experimental.

Lemma cosine_not_acomp c : is_cosine c = true -> is_acomp c = false.
Proof.
  intros H. destruct (is_acomp c) eqn:E; [|reflexivity].
  rewrite (acomp_not_cosine c E) in H. discriminate.
Qed.

Lemma filter_all {A : Type} (f : A -> bool) l :
  (forall x, In x l -> f x = true) -> filter f l = l.
Proof.
  induction l as [|x l IH]; intros H; [reflexivity|]. simpl.
  rewrite (H x (or_introl eq_refl)). f_equal. apply IH. intros y Hy. apply H. now right.
Qed.

Lemma filter_none {A : Type} (f : A -> bool) l :
  (forall x, In x l -> f x = false) -> filter f l = [].
Proof.
  induction l as [|x l IH]; intros H; [reflexivity|]. simpl.
  rewrite (H x (or_introl eq_refl)). apply IH. intros y Hy. apply H. now right.
Qed.

Lemma fixed_columns_NoDup : NoDup fixed_columns.
Proof.
  assert (E : nodup string_dec fixed_columns = fixed_columns) by (vm_compute; reflexivity).
  rewrite <- E. apply NoDup_nodup.
Qed.

Lemma sorted_NoDup l : NoDup l -> NoDup (sorted l).
Proof. apply Permutation_NoDup, StringSort.Permuted_sort. Qed.

Lemma sorted_length l : List.length (sorted l) = List.length l.
Proof. symmetry. apply Permutation_length, StringSort.Permuted_sort. Qed.

Lemma gather_names conf fixed (A C : list (string * list float)) :
  names conf = fixed_columns ++ map fst A ++ map fst C ->
  (forall c, In c (map fst A) -> is_acomp c = true) ->
  (forall c, In c (map fst C) -> is_cosine c = true) ->
  fixed = fixed_columns ->
  preferred (names conf) = fixed ++ sorted (map fst A) ++ sorted (map fst C).
Proof.
  intros Hn HA HC ->. rewrite preferred_eq, Hn, !filter_app.
  rewrite (filter_none is_acomp fixed_columns)
    by (intros c Hc; exact (proj1 (fixed_columns_kind c Hc))).
  rewrite (filter_none is_cosine fixed_columns)
    by (intros c Hc; exact (proj2 (fixed_columns_kind c Hc))).
  rewrite (filter_all is_acomp (map fst A)) by exact HA.
  rewrite (filter_none is_acomp (map fst C))
    by (intros c Hc; exact (cosine_not_acomp c (HC c Hc))).
  rewrite (filter_none is_cosine (map fst A))
    by (intros c Hc; exact (acomp_not_cosine c (HA c Hc))).
  rewrite (filter_all is_cosine (map fst C)) by exact HC.
  cbn [app]. now rewrite app_nil_r.
Qed.

End WrittenColumns.

(** X8.  Every table the experimental [main] writes consists of the 39
    fixed columns, then one column for each column of the renamed CompCor
    table, sorted by name, then one for each column of the drift basis,
    sorted by name; no label occurs twice, the CompCor table has as many
    rows as the table written, and each component or drift column holds the
    values the tool or the basis builder returned. *)
Theorem X8_written_table_columns :
  forall env args table,
    Experimental.main env args = Ok table ->
    exists masks acomps cos,
      aseg_to_masks env (gm_dilate_iter args) = Ok masks
      /\ Experimental.run_acompcor_single env (wmcsf_mask masks) = Ok acomps
      /\ Experimental.cosine_drift_terms env (nth 3 (bold_shape env) 0) (tr args) 128
         = Ok cos
      /\ nrows acomps = nrows table
      /\ names table
         = Experimental.fixed_columns ++ sorted (names acomps) ++ sorted (names cos)
      /\ NoDup (names table)
      /\ ncols table = 39 + ncols acomps + ncols cos
      /\ (forall c, In c (names acomps) -> getitem table c = getitem acomps c)
      /\ (forall c, In c (names cos) -> getitem table c = getitem cos c).
Proof.
  intros env args table H.
  destruct (main_lookup _ _ _ H) as (conf & Hg & Hlk).
  destruct (main_names _ _ _ H) as (conf' & Hg' & Hn & _).
  rewrite Hg in Hg'. inversion Hg'; subst conf'. clear Hg'.
  destruct (gather_columns _ _ _ Hg)
    as (masks & df & gs & wm & csf & fd_vals & fd & dv & dvars & std_dvars & acomps & cos
        & Hm & Hdf & _ & _ & _ & _ & _ & _ & _ & _ & Hac & Nac & Hcos & Dac & Dcos & Hc).
  exists masks, acomps, cos. split; [exact Hm|]. split; [exact Hac|]. split; [exact Hcos|].
  split; [rewrite Nac; symmetry; exact (proj2 (main_well_formed _ _ _ H))|].
  pose proof (run_acompcor_single_names _ _ _ Hac) as Kac.
  pose proof (cosine_drift_terms_names _ _ _ _ _ Hcos) as Kcos.
  rewrite Forall_forall in Kac, Kcos.
  set (F := columns df ++ _ ++ _) in Hc.
  assert (NF : map fst F = Experimental.fixed_columns).
  { unfold F. rewrite !map_app. fold (names df). rewrite (motion_df_names _ _ Hdf).
    reflexivity. }
  assert (Nt : names table
               = Experimental.fixed_columns ++ sorted (names acomps) ++ sorted (names cos)).
  { rewrite Hn. unfold Experimental.column_order.
    rewrite (remaining_nil _ (gather_classified _ _ _ Hg)), app_nil_r.
    apply (gather_names conf _ (columns acomps) (columns cos)); try assumption;
      [|reflexivity].
    unfold names at 1. now rewrite Hc, !map_app, NF. }
  split; [exact Nt|]. split; [|split; [|split]].
  - rewrite Nt. apply NoDup_app; [exact fixed_columns_NoDup| |].
    + apply NoDup_app; [now apply sorted_NoDup | now apply sorted_NoDup|].
      intros c Ha Hb. apply (proj1 (sorted_In _ _)) in Ha, Hb.
      pose proof (acomp_not_cosine c (Kac c Ha)) as Hf. rewrite (Kcos c Hb) in Hf.
      discriminate.
    + intros c Hf Hin. apply in_app_or in Hin.
      destruct (fixed_columns_kind c Hf) as [F1 F2].
      destruct Hin as [Hin|Hin]; apply (proj1 (sorted_In _ _)) in Hin.
      * rewrite (Kac c Hin) in F1. discriminate.
      * rewrite (Kcos c Hin) in F2. discriminate.
  - unfold ncols. rewrite <- (length_map fst (columns table)). fold (names table).
    rewrite Nt, !length_app, !sorted_length. unfold names. rewrite !length_map.
    reflexivity.
  - intros c Hin. unfold getitem. rewrite Hlk, Hc.
    rewrite lookup_app_new.
    + rewrite lookup_app.
      destruct (lookup c (columns acomps)) eqn:L; [reflexivity|].
      apply lookup_None_iff in L. contradiction.
    + apply not_true_is_false. intros Hmem. apply mem_In in Hmem. rewrite NF in Hmem.
      destruct (fixed_columns_kind c Hmem) as [F1 _]. rewrite (Kac c Hin) in F1.
      discriminate.
  - intros c Hin. unfold getitem. rewrite Hlk, Hc, app_assoc.
    rewrite lookup_app_new; [reflexivity|].
    apply not_true_is_false. intros Hmem. apply mem_In in Hmem.
    rewrite map_app, NF in Hmem.
    apply in_app_or in Hmem. destruct Hmem as [Hf|Ha].
    + destruct (fixed_columns_kind c Hf) as [_ F2]. rewrite (Kcos c Hin) in F2.
      discriminate.
    + pose proof (acomp_not_cosine c (Kac c Ha)) as Hf. rewrite (Kcos c Hin) in Hf.
      discriminate.
Qed.

Lemma X8_written_table_columns_witness :
  exists table masks acomps cos,
    Experimental.main Ref.env Ref.args = Ok table
    /\ aseg_to_masks Ref.env (gm_dilate_iter Ref.args) = Ok masks
    /\ Experimental.run_acompcor_single Ref.env (wmcsf_mask masks) = Ok acomps
    /\ Experimental.cosine_drift_terms Ref.env 3 (tr Ref.args) 128 = Ok cos
    /\ names table
       = Experimental.fixed_columns ++ sorted (names acomps) ++ sorted (names cos)
    /\ NoDup (names table)
    /\ ncols table = 39 + ncols acomps + ncols cos.
Proof.
  assert (Em : exists table, Ok table = Experimental.main Ref.env Ref.args).
  { vm_compute. eexists. reflexivity. }
  destruct Em as (table & Em). exists table.
  destruct (X8_written_table_columns Ref.env Ref.args table (eq_sym Em))
    as (masks & acomps & cos & H1 & H2 & H3 & _ & H4 & H5 & H6 & _).
  exists masks, acomps, cos. split; [now symmetry|].
  split; [exact H1|]. split; [exact H2|]. split; [exact H3|].
  split; [exact H4|]. split; [exact H5 | exact H6].
Defined.

(** X9.  In every table the experimental [main] writes, the
    [framewise_displacement] column is the series read from the
    framewise-displacement tool's output after the length rule, [dvars] is
    the series of the non-standardized DVARS output and [std_dvars] that of
    the standardized one, each after the length rule (an output that could
    not be located counts as an absent series). *)
Theorem X9_written_motion_metrics :
  forall env args table,
    Experimental.main env args = Ok table ->
    exists outputs fd_vals nstd std fd dvars std_dvars,
      run_fd env = Ok fd_vals
      /\ dvars_run env = Ok outputs
      /\ read_if_path env (pick_existing_output env outputs
                             ["out_nstd"; "nstd_file"; "nstd_out"; "out_all"]) = Ok nstd
      /\ read_if_path env (pick_existing_output env outputs
                             ["out_std"; "std_file"; "std_out"]) = Ok std
      /\ Experimental.enforce_length_1d "framewise_displacement" (Some fd_vals)
           (Z.of_nat (nth 3 (bold_shape env) 0)) np_nan = Ok fd
      /\ Experimental.enforce_length_1d "dvars" nstd
           (Z.of_nat (nth 3 (bold_shape env) 0)) np_nan = Ok dvars
      /\ Experimental.enforce_length_1d "std_dvars" std
           (Z.of_nat (nth 3 (bold_shape env) 0)) np_nan = Ok std_dvars
      /\ getitem table "framewise_displacement" = Ok fd
      /\ getitem table "dvars" = Ok dvars
      /\ getitem table "std_dvars" = Ok std_dvars.
Proof. exact written_motion_metrics. Qed.

Lemma X9_written_motion_metrics_witness :
  exists table,
    Experimental.main Ref.env Ref.args = Ok table
    /\ getitem table "framewise_displacement" = Ok [np_nan; 0.25; 0.5]%float
    /\ getitem table "dvars" = Ok [np_nan; 20; 24]%float
    /\ getitem table "std_dvars" = Ok [np_nan; 1.25; 1.5]%float.
Proof.
  assert (Em : exists table, Ok table = Experimental.main Ref.env Ref.args).
  { vm_compute. eexists. reflexivity. }
  destruct Em as (table & Em). exists table. split; [now symmetry|].
  destruct (X9_written_motion_metrics Ref.env Ref.args table (eq_sym Em))
    as (outputs & fd_vals & nstd & std & fd & dvars & std_dvars
        & H1 & H2 & H3 & H4 & H5 & H6 & H7 & H8 & H9 & H10).
  vm_compute in H1. inversion H1; subst fd_vals.
  vm_compute in H2. inversion H2; subst outputs.
  vm_compute in H3. inversion H3; subst nstd.
  vm_compute in H4. inversion H4; subst std.
  vm_compute in H5. inversion H5; subst fd.
  vm_compute in H6. inversion H6; subst dvars.
  vm_compute in H7. inversion H7; subst std_dvars.
  split; [exact H8|]. split; [exact H9 | exact H10].
Defined.

Section WrittenSignals.

Lemma written_mean_signals :
  forall env args table,
    Experimental.main env args = Ok table ->
    exists masks gs wm csf,
      aseg_to_masks env (gm_dilate_iter args) = Ok masks
      /\ mean_signal env (brain_mask masks) = Ok gs
      /\ mean_signal env (wm_mask masks) = Ok wm
      /\ mean_signal env (csf_mask masks) = Ok csf
      /\ Forall (fun kv : string * list float =>
                   getitem table (fst kv) = Ok (snd kv)
                   /\ getitem table (fst kv ++ "_derivative1")
                      = Ok (backward_diff (snd kv))
                   /\ getitem table (fst kv ++ "_power2") = Ok (square (snd kv))
                   /\ getitem table (fst kv ++ "_derivative1_power2")
                      = Ok (square (backward_diff (snd kv))))
                [("global_signal", gs); ("white_matter", wm); ("csf", csf)].
Proof.
  intros env args table H.
  destruct (main_lookup _ _ _ H) as (conf & Hg & Hlk).
  destruct (gather_columns _ _ _ Hg)
    as (masks & df & gs & wm & csf & fd_vals & fd & dv & dvars & std_dvars & acomps & cos
        & Hm & Hdf & Hgs & Hwm & Hcsf & _ & _ & _ & _ & _ & _ & _ & _ & _ & _ & Hc).
  exists masks, gs, wm, csf. repeat (split; [assumption|]).
  assert (M : forall c, mem c (names df) = false ->
                        lookup c (columns table)
                        = lookup c ([("global_signal", gs); ("white_matter", wm);
                                     ("csf", csf)]
                                    ++ map (fun kv => ((fst kv ++ "_derivative1")%string,
                                                       backward_diff (snd kv)))
                                           [("global_signal", gs); ("white_matter", wm);
                                            ("csf", csf)]
                                    ++ map (fun kv => ((fst kv ++ "_power2")%string,
                                                       square (snd kv)))
                                           [("global_signal", gs); ("white_matter", wm);
                                            ("csf", csf)]
                                    ++ map (fun kv => ((fst kv ++ "_derivative1_power2")%string,
                                                       square (backward_diff (snd kv))))
                                           [("global_signal", gs); ("white_matter", wm);
                                            ("csf", csf)]
                                    ++ [("framewise_displacement", fd); ("dvars", dvars);
                                        ("std_dvars", std_dvars)]
                                    ++ columns acomps ++ columns cos)).
  { intros c Hmem. rewrite Hlk, Hc. cbv zeta. rewrite <- !app_assoc.
    now apply lookup_app_new. }
  rewrite (motion_df_names _ _ Hdf) in M.
  unfold getitem. cbn [fst snd].
  repeat constructor; rewrite M by reflexivity; reflexivity.
Qed.

End WrittenSignals.

(** X10.  In every table the experimental [main] writes, [global_signal],
    [white_matter] and [csf] are the mean signals of the brain, the
    white-matter and the CSF mask of [aseg_to_masks], and their
    [_derivative1], [_power2] and [_derivative1_power2] columns are the
    backward difference, the square and the squared backward difference of
    those series. *)
Theorem X10_written_mean_signals :
  forall env args table,
    Experimental.main env args = Ok table ->
    exists masks gs wm csf,
      aseg_to_masks env (gm_dilate_iter args) = Ok masks
      /\ mean_signal env (brain_mask masks) = Ok gs
      /\ mean_signal env (wm_mask masks) = Ok wm
      /\ mean_signal env (csf_mask masks) = Ok csf
      /\ Forall (fun kv : string * list float =>
                   getitem table (fst kv) = Ok (snd kv)
                   /\ getitem table (fst kv ++ "_derivative1")
                      = Ok (backward_diff (snd kv))
                   /\ getitem table (fst kv ++ "_power2") = Ok (square (snd kv))
                   /\ getitem table (fst kv ++ "_derivative1_power2")
                      = Ok (square (backward_diff (snd kv))))
                [("global_signal", gs); ("white_matter", wm); ("csf", csf)].
Proof. exact written_mean_signals. Qed.

Lemma X10_written_mean_signals_witness :
  exists table,
    Experimental.main Ref.env Ref.args = Ok table
    /\ getitem table "global_signal" = Ok [200; 201; 200]%float
    /\ getitem table "global_signal_derivative1" = Ok [0; 1; -1]%float
    /\ getitem table "global_signal_power2" = Ok [40000; 40401; 40000]%float
    /\ getitem table "global_signal_derivative1_power2" = Ok [0; 1; 1]%float.
Proof.
  assert (Em : exists table, Ok table = Experimental.main Ref.env Ref.args).
  { vm_compute. eexists. reflexivity. }
  destruct Em as (table & Em). exists table. split; [now symmetry|].
  destruct (X10_written_mean_signals Ref.env Ref.args table (eq_sym Em))
    as (masks & gs & wm & csf & H1 & H2 & _ & _ & H5).
  vm_compute in H1. inversion H1; subst masks.
  vm_compute in H2. inversion H2; subst gs.
  inversion H5 as [|? ? (G1 & G2 & G3 & G4) _]; subst.
  split; [exact G1|]. split; [exact G2|]. split; [exact G3 | exact G4].
Defined.

(** X11.  In every table the experimental [main] writes, the 24 motion
    columns are those of [motion_df_from_mcflirt] on the motion file, value
    for value, and the table has as many rows as the file has lines of
    numbers. *)
Theorem X11_written_motion_columns :
  forall env args table,
    Experimental.main env args = Ok table ->
    exists df,
      Experimental.motion_df_from_mcflirt (mcpar_lines env) = Ok df
      /\ nrows table = List.length (data_rows (mcpar_lines env))
      /\ 2 <= nrows table
      /\ forall c, In c (expansion_names motion_base) -> getitem table c = getitem df c.
Proof.
  intros env args table H.
  destruct (main_lookup _ _ _ H) as (conf & Hg & Hlk).
  destruct (main_well_formed _ _ _ H) as [_ Hn].
  destruct (gather_columns _ _ _ Hg)
    as (masks & df & gs & wm & csf & fd_vals & fd & dv & dvars & std_dvars & acomps & cos
        & _ & Hdf & _ & _ & _ & _ & _ & _ & _ & _ & _ & _ & _ & _ & _ & Hc).
  exists df. split; [exact Hdf|].
  assert (Hrows : nth 3 (bold_shape env) 0 = List.length (data_rows (mcpar_lines env))
                  /\ 2 <= List.length (data_rows (mcpar_lines env))).
  { unfold Experimental.gather in Hg. repeat step Hg.
    apply negb_false_iff, Nat.eqb_eq in E0.
    apply load_mcflirt_par_Ok in Ha. destruct Ha as (-> & Hge & _).
    cbn [shape nth] in E0. split; [now symmetry | exact Hge]. }
  destruct Hrows as [Hr Hge]. split; [congruence|]. split; [rewrite Hn, Hr; exact Hge|].
  intros c Hin. unfold getitem. rewrite Hlk, Hc, <- !app_assoc, lookup_app.
  destruct (lookup c (columns df)) eqn:L; [reflexivity|].
  apply lookup_None_iff in L. fold (names df) in L.
  rewrite (motion_df_names _ _ Hdf) in L. contradiction.
Qed.

Lemma X11_written_motion_columns_witness :
  exists table df,
    Experimental.main Ref.env Ref.args = Ok table
    /\ Experimental.motion_df_from_mcflirt (mcpar_lines Ref.env) = Ok df
    /\ nrows table = 3
    /\ getitem table "rot_x_derivative1" = getitem df "rot_x_derivative1".
Proof.
  assert (Em : exists table, Ok table = Experimental.main Ref.env Ref.args).
  { vm_compute. eexists. reflexivity. }
  destruct Em as (table & Em). exists table.
  destruct (X11_written_motion_columns Ref.env Ref.args table (eq_sym Em))
    as (df & H1 & H2 & _ & H4).
  exists df. split; [now symmetry|]. split; [exact H1|]. split; [exact H2|].
  apply H4. vm_compute. tauto.
Defined.

Section EmptyMasks.

Lemma mean_signal_Ok_nonempty env mask s :
  mean_signal env mask = Ok s -> n_voxels mask <> 0.
Proof.
  unfold mean_signal, apply_mask. destruct (Nat.eqb (n_voxels mask) 0) eqn:E.
  - discriminate.
  - intros _. now apply Nat.eqb_neq.
Qed.

Lemma mean_signal_empty env mask :
  n_voxels mask = 0 ->
  mean_signal env mask = Raise (ValueError "The mask is invalid as it is empty").
Proof. intros H. unfold mean_signal, apply_mask. now rewrite H. Qed.

End EmptyMasks.

(** X18.  A tissue without a voxel stops the run: the experimental [main]
    writes a table only when the brain, the white-matter and the CSF mask
    each select a voxel; on an accepted motion file of T lines and a
    segmentation without positive label, where the brain mask is empty, it
    raises nilearn's empty-mask [ValueError] at the first mean signal. *)
Theorem X18_empty_mask_stops_main :
  forall env args,
    (forall table,
        Experimental.main env args = Ok table ->
        exists masks,
          aseg_to_masks env (gm_dilate_iter args) = Ok masks
          /\ n_voxels (brain_mask masks) <> 0
          /\ n_voxels (wm_mask masks) <> 0
          /\ n_voxels (csf_mask masks) <> 0)
    /\ (forall aseg,
           List.length (bold_shape env) = 4 ->
           2 <= List.length (data_rows (mcpar_lines env)) ->
           Forall (fun r => List.length r = 6) (data_rows (mcpar_lines env)) ->
           List.length (data_rows (mcpar_lines env)) = nth 3 (bold_shape env) 0 ->
           aseg_resampled env = Ok aseg ->
           (forall v, In v aseg -> (v <= 0)%Z) ->
           Experimental.main env args
           = Raise (ValueError "The mask is invalid as it is empty")).
Proof.
  intros env args. split.
  - intros table H.
    destruct (written_mean_signals _ _ _ H)
      as (masks & gs & wm & csf & Hm & Hgs & Hwm & Hcsf & _).
    exists masks. split; [exact Hm|].
    split; [exact (mean_signal_Ok_nonempty _ _ _ Hgs)|].
    split; [exact (mean_signal_Ok_nonempty _ _ _ Hwm)
           | exact (mean_signal_Ok_nonempty _ _ _ Hcsf)].
  - intros aseg H4 Hn Hall Hrows Ha Hz.
    assert (Hm : exists masks, aseg_to_masks env (gm_dilate_iter args) = Ok masks).
    { unfold aseg_to_masks. rewrite Ha. cbn [bind]. eexists. reflexivity. }
    destruct Hm as (masks & Hm).
    destruct (masks_of_absent_labels _ _ _ _ Ha Hm) as (_ & _ & _ & Hb).
    destruct (motion_df_value _ Hn Hall) as [_ Hdf].
    unfold Experimental.main, Experimental.gather.
    rewrite H4, (load_mcflirt_par_Nx6 _ Hn Hall). cbn [Nat.eqb negb bind shape nth].
    rewrite Hrows, Nat.eqb_refl. cbn [negb].
    rewrite Hm. cbn [bind]. rewrite Hrows in Hdf. rewrite Hdf. cbn [bind].
    rewrite (mean_signal_empty env _ (Hb Hz)). reflexivity.
Qed.

Lemma X18_empty_mask_stops_main_witness :
  Experimental.main Ref.env_zero_seg Ref.args
  = Raise (ValueError "The mask is invalid as it is empty").
Proof.
  destruct (X18_empty_mask_stops_main Ref.env_zero_seg Ref.args) as (_ & H).
  apply (H [0; 0; 0; 0]%Z).
  - reflexivity.
  - vm_compute. lia.
  - vm_compute. repeat constructor.
  - reflexivity.
  - reflexivity.
  - intros v Hv. simpl in Hv. intuition lia.
Defined.

(** * Where the preproc [main] stops *)

(** X12.  pandas never hands back a table without columns from a file it
    could read; under that contract the preproc [main] returns no table on
    any run: its loops index the components tables as arrays
    ([acomp[:, i]]), which raises as soon as a table has a column. *)
Theorem X12_preproc_main_never_completes :
  forall env args,
    (forall p df, read_csv env p = Ok df -> columns df <> []) ->
    is_ok (Preproc.main env args) = false.
Proof.
  intros env args Hread.
  destruct (Preproc.main env args) as [table|e] eqn:H; [|reflexivity].
  destruct (preproc_main_components _ _ _ H)
    as (masks & wm & csf & wmcsf & _ & Hwm & _ & _ & Ewm & _ & _).
  exfalso. unfold Preproc.run_compcor in Hwm. step Hwm.
  destruct (pick_existing_output env a ["components_file"]) as [p|]; [|discriminate Hwm].
  step Hwm. step Hwm. exact (Hread p wm Hwm Ewm).
Qed.

Lemma X12_preproc_main_never_completes_witness :
  (forall p df, read_csv Ref.env p = Ok df -> columns df <> [])
  /\ is_ok (Preproc.main Ref.env Ref.args) = false.
Proof.
  assert (Hread : forall p df, read_csv Ref.env p = Ok df -> columns df <> []).
  { intros p df. cbn [read_csv Ref.env]. unfold Ref.files.
    repeat match goal with
           | |- context [String.eqb p ?s] => destruct (String.eqb p s)
           end; intros H; inversion H; subst; discriminate. }
  split; [exact Hread|].
  exact (X12_preproc_main_never_completes Ref.env Ref.args Hread).
Defined.

(** * Errors of the drift-basis builder *)

Section DriftErrors.

Import Experimental.

Lemma is_nan_Prim2SF x : PrimFloat.is_nan x = true -> Prim2SF x = S754_nan.
Proof.
  unfold PrimFloat.is_nan. rewrite eqb_spec. unfold SFeqb, SFcompare.
  destruct (Prim2SF x) as [s|s| |s m e]; try reflexivity.
  - discriminate.
  - destruct s; discriminate.
  - rewrite Z.compare_refl, Pos.compare_cont_refl. destruct s; discriminate.
Qed.

Lemma drift_ratio_nan T tr cutoff :
  PrimFloat.is_nan tr = true -> Prim2SF (drift_ratio T tr cutoff) = S754_nan.
Proof.
  intros H. apply is_nan_Prim2SF in H.
  unfold drift_ratio, scan_duration.
  rewrite div_spec, mul_spec, mul_spec, H. unfold SF64mul, SF64div, SFmul, SFdiv.
  destruct (Prim2SF (float_of_nat T)); destruct (Prim2SF two); reflexivity.
Qed.

Lemma int_floor_Raise x e :
  int_floor x = Raise e ->
  e = OverflowError "cannot convert float infinity to integer"
  \/ e = ValueError "cannot convert float NaN to integer".
Proof.
  unfold int_floor. destruct (Prim2SF x); intros H; inversion H; auto.
Qed.

End DriftErrors.

(** X13.  The drift-basis builder raises only on its fallback path, and
    only from computing the number of terms: a [ZeroDivisionError] when the
    cutoff is zero, an [OverflowError] or a [ValueError] when the ratio
    2*T*TR/cutoff is infinite or NaN.  A cutoff of zero always gives the
    first, and a NaN repetition time (with a non-zero cutoff) the last. *)
Theorem X13_drift_builder_errors :
  forall env T tr cutoff,
    (forall e,
        Experimental.cosine_drift_terms env T tr cutoff = Raise e ->
        nilearn_cosine_drift env tr (Experimental.frame_times T tr) cutoff = None
        /\ ((e = ZeroDivisionError "float division by zero"
             /\ PrimFloat.eqb cutoff 0 = true)
            \/ e = OverflowError "cannot convert float infinity to integer"
            \/ e = ValueError "cannot convert float NaN to integer"))
    /\ (nilearn_cosine_drift env tr (Experimental.frame_times T tr) cutoff = None ->
        PrimFloat.eqb cutoff 0 = true ->
        Experimental.cosine_drift_terms env T tr cutoff
        = Raise (ZeroDivisionError "float division by zero"))
    /\ (nilearn_cosine_drift env tr (Experimental.frame_times T tr) cutoff = None ->
        PrimFloat.eqb cutoff 0 = false ->
        PrimFloat.is_nan tr = true ->
        Experimental.cosine_drift_terms env T tr cutoff
        = Raise (ValueError "cannot convert float NaN to integer")).
Proof.
  intros env T tr cutoff. unfold Experimental.cosine_drift_terms, Experimental.n_terms.
  split; [|split].
  - intros e H.
    destruct (nilearn_cosine_drift env tr (Experimental.frame_times T tr) cutoff);
      [discriminate H|].
    split; [reflexivity|]. fold fzero in *.
    destruct (PrimFloat.eqb cutoff fzero) eqn:E.
    + inversion H; subst. left. now split.
    + right.
      destruct (Experimental.int_floor (Experimental.drift_ratio T tr cutoff))
        as [K|e'] eqn:F.
      * simpl in H. destruct (Z.ltb K 1); discriminate H.
      * simpl in H. inversion H; subst. exact (int_floor_Raise _ _ F).
  - intros -> E. fold fzero in E. now rewrite E.
  - intros -> E Hn. fold fzero in E. rewrite E.
    unfold Experimental.int_floor. now rewrite (drift_ratio_nan T tr cutoff Hn).
Qed.

Lemma X13_drift_builder_errors_witness :
  Experimental.cosine_drift_terms Ref.env 100 2 0
  = Raise (ZeroDivisionError "float division by zero")
  /\ Experimental.cosine_drift_terms Ref.env 100 nan 128
     = Raise (ValueError "cannot convert float NaN to integer").
Proof.
  destruct (X13_drift_builder_errors Ref.env 100 2 0) as (_ & H2 & _).
  destruct (X13_drift_builder_errors Ref.env 100 nan 128) as (_ & _ & H3).
  split.
  - apply H2; reflexivity.
  - apply H3; reflexivity.
Defined.

(** * Spike regressors of the old script *)

Section SpikeRegressors.

Import Old.

Lemma str_of_nat_inj n m : str_of_nat n = str_of_nat m -> n = m.
Proof.
  unfold str_of_nat, str_of_Z. intros H. apply Nat2Z.inj, DecimalZ.to_int_inj.
  assert (P : forall k, exists d, Z.to_int (Z.of_nat k) = Decimal.Pos d /\ d <> Decimal.Nil).
  { intros [|k]; simpl.
    - eexists. split; [reflexivity | discriminate].
    - eexists. split; [reflexivity | apply DecimalPos.Unsigned.to_uint_nonnil]. }
  destruct (P n) as (d & Ed & Hd). destruct (P m) as (d' & Ed' & Hd').
  rewrite Ed, Ed' in H |- *. simpl in H. f_equal.
  pose proof (NilZero.usu d Hd) as U. rewrite H, (NilZero.usu d' Hd') in U.
  now inversion U.
Qed.

Lemma outlier_name_inj i j :
  ("motion_outlier_" ++ str_of_nat i)%string = ("motion_outlier_" ++ str_of_nat j)%string ->
  i = j.
Proof. intros H. cbn [String.append] in H. inversion H. now apply str_of_nat_inj. Qed.

Lemma spike_length n idx : List.length (spike n idx) = n.
Proof. unfold spike. now rewrite length_map, length_seq. Qed.

Lemma spike_nth n idx j :
  j < n -> nth j (spike n idx) fzero = if Nat.eqb j idx then 1%float else fzero.
Proof.
  intros H. unfold spike.
  rewrite (nth_indep _ fzero ((fun j => if Nat.eqb j idx then 1%float else fzero) 0))
    by (now rewrite length_map, length_seq).
  rewrite (map_nth (fun j => if Nat.eqb j idx then 1%float else fzero)).
  now rewrite seq_nth.
Qed.

Lemma where_true_spec flags : forall i idx,
  In idx (where_true i flags) <-> i <= idx /\ nth_error flags (idx - i) = Some true.
Proof.
  induction flags as [|b flags IH]; intros i idx; cbn [where_true].
  - split; [intros [] | intros [_ H]]. destruct (idx - i); discriminate.
  - assert (Hrest : In idx (where_true (S i) flags)
                    <-> S i <= idx /\ nth_error (b :: flags) (idx - i) = Some true).
    { rewrite IH. split; intros [Hle H]; (split; [exact Hle|]).
      - replace (idx - i) with (S (idx - S i)) by lia. exact H.
      - replace (idx - i) with (S (idx - S i)) in H by lia. exact H. }
    destruct b.
    + cbn [In]. rewrite Hrest. split.
      * intros [<-|[Hle H]]; [|split; [lia | exact H]].
        split; [lia|]. now rewrite Nat.sub_diag.
      * intros [Hle H]. destruct (Nat.eq_dec i idx) as [->|Hne]; [now left|].
        right. split; [lia | exact H].
    + rewrite Hrest. split; intros [Hle H]; (split; [|exact H]); [lia|].
      destruct (Nat.eq_dec i idx) as [->|Hne]; [|lia].
      rewrite Nat.sub_diag in H. discriminate H.
Qed.

(** The flagged frames come in increasing order, each once. *)
Lemma where_true_sorted flags : forall i,
  Sorted.StronglySorted lt (where_true i flags)
  /\ Forall (fun idx => i <= idx) (where_true i flags).
Proof.
  induction flags as [|b flags IH]; intros i; cbn [where_true].
  - split; constructor.
  - destruct (IH (S i)) as [Hs Hall].
    assert (Hall' : Forall (fun idx => i <= idx) (where_true (S i) flags)).
    { revert Hall. apply Forall_impl. intros; lia. }
    destruct b; [|now split].
    split.
    + constructor; [exact Hs|]. revert Hall. apply Forall_impl. intros; lia.
    + constructor; [lia | exact Hall'].
Qed.

Lemma where_true_length flags : forall i,
  List.length (where_true i flags) = count_occ bool_dec flags true.
Proof.
  induction flags as [|b flags IH]; intros i; [reflexivity|].
  cbn [where_true]. destruct b; simpl; now rewrite IH.
Qed.

Lemma nth_error_outliers ft dt fd : forall dvars idx,
  List.length fd = List.length dvars ->
  nth_error (outliers fd dvars ft dt) idx = Some true
  <-> idx < List.length fd
      /\ (PrimFloat.ltb ft (nth idx fd fzero) = true
          \/ PrimFloat.ltb dt (nth idx dvars fzero) = true).
Proof.
  unfold outliers, zip_with.
  induction fd as [|x fd IH]; intros dvars idx Hl.
  - destruct dvars; [|discriminate Hl]. cbn. split.
    + destruct idx; discriminate.
    + intros [H _]. lia.
  - destruct dvars as [|y dvars]; [discriminate Hl|]. cbn [map combine fst snd].
    destruct idx as [|idx]; cbn [nth_error nth List.length].
    + split.
      * intros H. assert (E : PrimFloat.ltb ft x || PrimFloat.ltb dt y = true)
          by congruence.
        split; [lia|]. now apply orb_true_iff.
      * intros [_ H]. f_equal. now apply orb_true_iff.
    + rewrite IH by (simpl in Hl; lia). split; intros [H1 H2]; (split; [lia | exact H2]).
Qed.

Lemma add_spikes_columns idxs : forall df i,
  (forall j, i <= j -> ~ In ("motion_outlier_" ++ str_of_nat j)%string (names df)) ->
  add_spikes df i idxs
  = Ok (mkDF (nrows df)
             (columns df
              ++ map (fun p => (("motion_outlier_" ++ str_of_nat (fst p))%string,
                                spike (nrows df) (snd p)))
                     (combine (seq i (List.length idxs)) idxs))).
Proof.
  induction idxs as [|idx idxs IH]; intros df i Hnew.
  - cbn. rewrite app_nil_r. now destruct df.
  - cbn [add_spikes]. unfold setitem. rewrite spike_length, Nat.eqb_refl.
    assert (Hm : mem ("motion_outlier_" ++ str_of_nat i)%string (names df) = false).
    { apply not_true_is_false. intros Hm. apply mem_In in Hm. exact (Hnew i (le_n i) Hm). }
    rewrite Hm. cbn [bind]. rewrite IH.
    + cbn [nrows columns List.length seq combine map fst snd].
      now rewrite <- app_assoc.
    + intros j Hj Hin. unfold names in Hin. cbn [columns] in Hin.
      rewrite map_app in Hin. apply in_app_or in Hin. destruct Hin as [Hin|[E|[]]].
      * apply (Hnew j); [lia | exact Hin].
      * cbn [fst] in E. apply outlier_name_inj in E. lia.
Qed.

End SpikeRegressors.

(** X14.  [motion_metrics] of the old script, on a motion table and a DVARS
    series of the same length T: it returns a table of T rows whose first
    two columns are the framewise displacement and the DVARS series,
    followed by one spike column per flagged frame, numbered from 0 in frame
    order; the flagged frames are exactly those where the displacement or
    the DVARS value exceeds its threshold, each flagged once, and a spike
    column is 1 at its frame and 0 at every other.  A series of another
    length is refused. *)
Theorem X14_spike_regressors :
  forall motion dvars fd_thresh dvars_thresh,
    let fd := Old.framewise_displacement motion in
    let flags := Old.outliers fd dvars fd_thresh dvars_thresh in
    let flagged := Old.where_true 0 flags in
    (List.length dvars = List.length motion ->
     Old.motion_metrics motion dvars fd_thresh dvars_thresh
     = Ok (mkDF (List.length motion)
                ([("framewise_displacement", fd); ("dvars", dvars)]
                 ++ map (fun p => (("motion_outlier_" ++ str_of_nat (fst p))%string,
                                   Old.spike (List.length motion) (snd p)))
                        (combine (seq 0 (List.length flagged)) flagged)))
     /\ Sorted.StronglySorted lt flagged
     /\ List.length flagged = count_occ bool_dec flags true
     /\ (forall idx,
            In idx flagged
            <-> idx < List.length motion
                /\ (PrimFloat.ltb fd_thresh (nth idx fd fzero) = true
                    \/ PrimFloat.ltb dvars_thresh (nth idx dvars fzero) = true))
     /\ (forall idx j,
            j < List.length motion ->
            nth j (Old.spike (List.length motion) idx) fzero
            = if Nat.eqb j idx then 1%float else fzero))
    /\ (List.length dvars <> List.length motion ->
        exists msg,
          Old.motion_metrics motion dvars fd_thresh dvars_thresh = Raise (ValueError msg)).
Proof.
  intros motion dvars fd_thresh dvars_thresh fd flags flagged.
  assert (Lfd : List.length fd = List.length motion) by apply old_fd_length.
  split.
  - intros Hl. split; [|split; [|split; [|split]]].
    + unfold Old.motion_metrics. fold fd. rewrite Hl, Lfd, Nat.eqb_refl. cbn [negb].
      rewrite add_spikes_columns.
      * reflexivity.
      * intros j _ Hin. cbn in Hin. destruct Hin as [E|[E|[]]]; discriminate E.
    + apply where_true_sorted.
    + apply where_true_length.
    + intros idx. unfold flagged. rewrite where_true_spec, Nat.sub_0_r.
      unfold flags. rewrite nth_error_outliers by lia. rewrite Lfd.
      split; [intros [_ H]; exact H | intros H; split; [lia | exact H]].
    + intros idx j Hj. now apply spike_nth.
  - intros Hl. unfold Old.motion_metrics. fold fd. rewrite Lfd.
    apply Nat.eqb_neq in Hl. rewrite Hl. cbn [negb]. eexists. reflexivity.
Qed.

Lemma X14_spike_regressors_witness :
  bind (Old.motion_metrics (Old.load_motion (mcpar_lines Ref.env))
                           [0; 2; 0.5]%float 0.5%float 1.5%float)
       (fun df => Ok (nrows df, skipn 2 (columns df)))
  = Ok (3, [ ("motion_outlier_0", [0; 1; 0]%float);
             ("motion_outlier_1", [0; 0; 1]%float) ]).
Proof.
  destruct (X14_spike_regressors (Old.load_motion (mcpar_lines Ref.env))
              [0; 2; 0.5]%float 0.5%float 1.5%float) as [H _].
  destruct (H eq_refl) as (E & _). rewrite E. vm_compute. reflexivity.
Defined.

(** * Reading the framewise-displacement output *)

(** X15.  [run_fd] returns a series only from a file that exists: the
    series is the first column of the table read from the path that
    [pick_existing_output] chose.  When the chosen path does not exist (the
    fallback of [pick_existing_output]) the result is the
    [FileNotFoundError] naming that path, and when no candidate attribute
    holds a path it is the [RuntimeError]. *)
Theorem X15_run_fd_outcomes :
  forall env,
    (forall v,
        run_fd env = Ok v ->
        exists outputs p df c0,
          fd_run env = Ok outputs
          /\ pick_existing_output env outputs
               ["out_file"; "fd_file"; "framewise_displacement"] = Some p
          /\ path_exists env p = true
          /\ read_csv env p = Ok df
          /\ nth_error (columns df) 0 = Some (c0, v))
    /\ (forall outputs p,
           fd_run env = Ok outputs ->
           pick_existing_output env outputs
             ["out_file"; "fd_file"; "framewise_displacement"] = Some p ->
           path_exists env p = false ->
           run_fd env = Raise (FileNotFoundError ("Expected output file not found: " ++ p)))
    /\ (forall outputs,
           fd_run env = Ok outputs ->
           (forall c, In c ["out_file"; "fd_file"; "framewise_displacement"] ->
                      getattr_str outputs c = None) ->
           run_fd env = Raise (RuntimeError "Could not locate FD output")).
Proof.
  intros env. split; [|split].
  - intros v H. unfold run_fd in H. step H.
    destruct (pick_existing_output env a ["out_file"; "fd_file"; "framewise_displacement"])
      as [p|] eqn:P; [|discriminate H].
    unfold read_single_column_numeric in H.
    destruct (path_exists env p) eqn:E; [|discriminate H]. cbn [negb] in H.
    step H. destruct (columns a0) as [|[c0 v0] rest] eqn:C; [discriminate H|].
    inversion H; subst. exists a, p, a0, c0. rewrite C. repeat split; assumption.
  - intros outputs p Hrun Hpick Hex. unfold run_fd. rewrite Hrun. cbn [bind].
    rewrite Hpick. unfold read_single_column_numeric. now rewrite Hex.
  - intros outputs Hrun Hnone. unfold run_fd. rewrite Hrun. cbn [bind].
    now rewrite (proj2 (pick_existing_output_None env outputs _) Hnone).
Qed.

Lemma X15_run_fd_outcomes_witness :
  exists outputs p df c0,
    fd_run Ref.env = Ok outputs
    /\ pick_existing_output Ref.env outputs
         ["out_file"; "fd_file"; "framewise_displacement"] = Some p
    /\ path_exists Ref.env p = true
    /\ read_csv Ref.env p = Ok df
    /\ nth_error (columns df) 0 = Some (c0, [0.25; 0.5]%float).
Proof.
  exact (proj1 (X15_run_fd_outcomes Ref.env) [0.25; 0.5]%float eq_refl).
Defined.

(** * Names with a two-digit index sort in index order *)

Section IndexOrder.

Import Experimental.

Lemma compare_prefix p a b :
  String.compare (p ++ a) (p ++ b) = String.compare a b.
Proof.
  induction p as [|c p IH]; [reflexivity|]. cbn [String.append String.compare].
  unfold Ascii.compare. now rewrite N.compare_refl.
Qed.

Lemma Sorted_map_seq (f : nat -> string) : forall n start,
  (forall i, start <= i -> S i < start + n -> str_le (f i) (f (S i))) ->
  Sorted str_le (map f (seq start n)).
Proof.
  induction n as [|n IH]; intros start H; [constructor|].
  cbn [seq map]. constructor.
  - apply IH. intros i Hi Hlt. apply H; lia.
  - destruct n as [|n]; [constructor|]. cbn [seq map]. constructor.
    apply H; lia.
Qed.

Lemma fmt_02d_step i : i < 99 -> str_le (fmt_02d i) (fmt_02d (S i)).
Proof.
  intros H.
  assert (E : forallb (fun i => String.leb (fmt_02d i) (fmt_02d (S i))) (seq 0 99) = true)
    by (vm_compute; reflexivity).
  rewrite forallb_forall in E. apply E. apply in_seq. lia.
Qed.

Lemma indexed_names_sorted prefix n :
  n <= 100 ->
  sorted (map (fun i => (prefix ++ fmt_02d i)%string) (seq 0 n))
  = map (fun i => (prefix ++ fmt_02d i)%string) (seq 0 n).
Proof.
  intros Hn. apply sorted_unique.
  - apply sorted_Sorted.
  - apply Sorted_map_seq. intros i _ Hi. unfold str_le, String.leb.
    rewrite compare_prefix. apply fmt_02d_step. lia.
  - apply Permutation_sym, StringSort.Permuted_sort.
Qed.

Lemma rename_from_fresh cols : forall i,
  Forall (fun kv => is_acomp (fst kv) = false) cols ->
  map fst (rename_from i cols)
  = map (fun j => ("a_comp_cor_" ++ fmt_02d j)%string) (seq i (List.length cols)).
Proof.
  induction cols as [|[c v] cols IH]; intros i H; [reflexivity|].
  inversion H as [|? ? Hc Hrest]; subst. cbn [rename_from map fst List.length seq].
  cbn [fst] in Hc. unfold is_acomp in Hc. rewrite Hc. f_equal. now apply IH.
Qed.

End IndexOrder.

(** X16.  With at most 100 columns, the drift-basis names [cosine_00],
    [cosine_01], ... are already in sorted order, and so are the names
    [a_comp_cor_00], ... that the renaming gives a components table none of
    whose columns carries the prefix: sorting by name, as [main] does, keeps
    such columns in index order.  The bound is sharp: with 101 drift
    columns [cosine_100] sorts before [cosine_11]. *)
Theorem X16_two_digit_names_sort_in_index_order :
  forall n,
    n <= 100 ->
    sorted (Experimental.cosine_names n) = Experimental.cosine_names n
    /\ (forall cols,
           List.length cols = n ->
           Forall (fun kv => Experimental.is_acomp (fst kv) = false) cols ->
           sorted (map fst (Experimental.rename_from 0 cols))
           = map fst (Experimental.rename_from 0 cols))
    /\ firstn 4 (skipn 10 (sorted (Experimental.cosine_names 101)))
       = ["cosine_10"; "cosine_100"; "cosine_11"; "cosine_12"].
Proof.
  intros n Hn. split; [|split].
  - exact (indexed_names_sorted "cosine_" n Hn).
  - intros cols Hl Hall. rewrite (rename_from_fresh cols 0 Hall), Hl.
    exact (indexed_names_sorted "a_comp_cor_" n Hn).
  - vm_compute. reflexivity.
Qed.

Lemma X16_two_digit_names_sort_in_index_order_witness :
  sorted (Experimental.cosine_names 3) = ["cosine_00"; "cosine_01"; "cosine_02"]
  /\ sorted (map fst (Experimental.rename_from 0
                        [("comp_b", [0.5]%float); ("comp_a", [0.25]%float)]))
     = ["a_comp_cor_00"; "a_comp_cor_01"].
Proof.
  assert (H3 : 3 <= 100) by lia. assert (H2 : 2 <= 100) by lia.
  destruct (X16_two_digit_names_sort_in_index_order 3 H3) as (E & _ & _).
  destruct (X16_two_digit_names_sort_in_index_order 2 H2) as (_ & F & _).
  split.
  - rewrite E. reflexivity.
  - rewrite F; [reflexivity | reflexivity |]. repeat constructor.
Defined.

(** * Generated names never collide *)

Section GeneratedNames.

Import Experimental.

Lemma nzhead_not_D0 d d' : Decimal.nzhead d <> Decimal.D0 d'.
Proof. induction d; simpl; try discriminate. exact IHd. Qed.

Lemma to_uint_not_D0 p d : Pos.to_uint p <> Decimal.D0 d.
Proof.
  intros H.
  assert (N : Pos.to_uint p = Decimal.unorm (Pos.to_uint p)).
  { rewrite <- DecimalPos.Unsigned.to_of, DecimalPos.Unsigned.of_to. reflexivity. }
  rewrite H in N. rewrite DecimalFacts.unorm_D0 in N. unfold Decimal.unorm in N.
  destruct (Decimal.nzhead d) eqn:E; try discriminate N.
  - inversion N; subst. exact (DecimalPos.Unsigned.to_uint_nonzero p H).
  - exact (nzhead_not_D0 d _ E).
Qed.

(** The decimal form of a natural number: its digits, none for no number,
    and no leading zero except for zero itself. *)
Lemma str_of_nat_digits n :
  exists d, str_of_nat n = NilEmpty.string_of_uint d
            /\ d <> Decimal.Nil
            /\ (forall d', d = Decimal.D0 d' -> n = 0).
Proof.
  unfold str_of_nat, str_of_Z. destruct n as [|n]; cbn [Z.of_nat Z.to_int].
  - exists (Decimal.D0 Decimal.Nil). repeat split. discriminate.
  - exists (Pos.to_uint (Pos.of_succ_nat n)).
    pose proof (DecimalPos.Unsigned.to_uint_nonnil (Pos.of_succ_nat n)) as Hn.
    split; [|split; [exact Hn|]].
    + cbn [NilZero.string_of_int]. unfold NilZero.string_of_uint.
      destruct (Pos.to_uint (Pos.of_succ_nat n)); try reflexivity. now contradiction Hn.
    + intros d' E. exfalso. exact (to_uint_not_D0 _ _ E).
Qed.

Lemma string_of_uint_inj d d' :
  NilEmpty.string_of_uint d = NilEmpty.string_of_uint d' -> d = d'.
Proof.
  intros H. pose proof (NilEmpty.usu d) as U. rewrite H, NilEmpty.usu in U.
  now inversion U.
Qed.

Lemma fmt_02d_inj i j : fmt_02d i = fmt_02d j -> i = j.
Proof.
  unfold fmt_02d.
  destruct (str_of_nat_digits i) as (di & Ei & Ni & Zi).
  destruct (str_of_nat_digits j) as (dj & Ej & Nj & Zj).
  destruct (Nat.ltb i 10) eqn:Li; destruct (Nat.ltb j 10) eqn:Lj; intros H.
  - cbn [String.append] in H. inversion H. now apply str_of_nat_inj.
  - apply Nat.ltb_ge in Lj. rewrite Ei, Ej in H.
    change (("0" ++ NilEmpty.string_of_uint di)%string)
      with (NilEmpty.string_of_uint (Decimal.D0 di)) in H.
    apply string_of_uint_inj in H. symmetry in H. specialize (Zj _ H). lia.
  - apply Nat.ltb_ge in Li. rewrite Ei, Ej in H.
    change (("0" ++ NilEmpty.string_of_uint dj)%string)
      with (NilEmpty.string_of_uint (Decimal.D0 dj)) in H.
    apply string_of_uint_inj in H. specialize (Zi _ H). lia.
  - now apply str_of_nat_inj.
Qed.

Lemma cosine_names_NoDup n : NoDup (cosine_names n).
Proof.
  unfold cosine_names. generalize (seq_NoDup n 0).
  induction 1 as [|i l Hi Hl IH]; [constructor|]. cbn [map]. constructor; [|exact IH].
  intros Hin. apply in_map_iff in Hin. destruct Hin as (j & E & Hj).
  cbn [String.append] in E. inversion E as [E']. apply fmt_02d_inj in E'. now subst.
Qed.

End GeneratedNames.

(** * When the experimental [main] writes a table *)

Section Success.

Import Experimental.

Lemma mean_signal_total env mask :
  List.length (bold_frames env) = nth 3 (bold_shape env) 0 ->
  n_voxels mask <> 0 ->
  exists s, mean_signal env mask = Ok s /\ List.length s = nth 3 (bold_shape env) 0.
Proof.
  intros Hf Hv. unfold mean_signal, apply_mask. apply Nat.eqb_neq in Hv. rewrite Hv.
  cbn [bind]. eexists. split; [reflexivity|]. now rewrite !length_map.
Qed.

Lemma setitem_total df c v :
  List.length v = nrows df ->
  exists df', setitem df c v = Ok df' /\ nrows df' = nrows df.
Proof.
  intros H. unfold setitem. apply Nat.eqb_eq in H. rewrite H.
  destruct (mem c (names df)); eexists; split; reflexivity.
Qed.

Lemma enforce_total name (x : option (list float)) (T : nat) pad :
  (forall v, x = Some v -> T - 2 <= List.length v <= T) ->
  exists y, enforce_length_1d name x (Z.of_nat T) pad = Ok y /\ List.length y = T.
Proof.
  intros H. destruct x as [v|].
  - specialize (H v eq_refl).
    destruct (Nat.eq_dec (List.length v) T) as [E|E].
    + exists v. split; [|exact E]. apply enforce_exact. now apply len_nat.
    + eexists. apply enforce_short. unfold len. lia.
  - eexists. split; [apply enforce_none | apply np_full_length].
Qed.

Lemma copy_columns_total src cs : forall conf,
  NoDup (names src) ->
  (forall c, In c cs -> exists v, lookup c (columns src) = Some v
                                  /\ List.length v = nrows conf) ->
  exists conf', copy_columns conf src cs = Ok conf' /\ nrows conf' = nrows conf.
Proof.
  intros conf Hnd. revert conf.
  induction cs as [|c cs IH]; intros conf H; [now exists conf|].
  cbn [copy_columns].
  assert (Hc : Nat.ltb 1 (count_occ string_dec (names src) c) = false).
  { apply Nat.ltb_ge. now apply (NoDup_count_occ string_dec). }
  rewrite Hc. destruct (H c (or_introl eq_refl)) as (v & L & Hl).
  unfold getitem. rewrite L. cbn [bind].
  destruct (setitem_total conf c v Hl) as (conf1 & -> & N1). cbn [bind].
  destruct (IH conf1) as (conf' & E & N'); [|exists conf'; split; [exact E | congruence]].
  intros c' Hc'. destruct (H c' (or_intror Hc')) as (v' & L' & Hl').
  exists v'. split; [exact L' | congruence].
Qed.

Lemma well_formed_lookup df c :
  well_formed df -> In c (names df) ->
  exists v, lookup c (columns df) = Some v /\ List.length v = nrows df.
Proof.
  intros W Hin. destruct (lookup c (columns df)) as [v|] eqn:L.
  - exists v. split; [reflexivity|]. exact (lookup_length _ _ _ _ W L).
  - apply lookup_None_iff in L. contradiction.
Qed.

Lemma select_total cols labels :
  (forall c, In c labels -> In c (map fst cols)) ->
  exists cs, select cols labels = Ok cs.
Proof.
  induction labels as [|c labels IH]; intros H; [now exists []|].
  cbn [select]. destruct (lookup c cols) as [v|] eqn:L.
  - destruct IH as (cs & ->); [intros c' Hc'; apply H; now right|].
    cbn [bind]. eauto.
  - apply lookup_None_iff in L. exfalso. apply L, H. now left.
Qed.

(** The drift basis is a well-formed table with distinct labels; it has T
    rows, or no column, when nilearn's matrix (if any) has T rows. *)
Lemma cosine_drift_terms_table env T tr cutoff cos :
  (forall C, nilearn_cosine_drift env tr (frame_times T tr) cutoff = Some C ->
             Forall (fun col => List.length col = T) (m_cols C) /\ m_nrows C = T) ->
  cosine_drift_terms env T tr cutoff = Ok cos ->
  NoDup (names cos)
  /\ Forall (fun kv => List.length (snd kv) = T) (columns cos).
Proof.
  intros Hnil H.
  assert (D : forall C, Forall (fun col => List.length col = T) (m_cols C) ->
                        NoDup (names (drift_frame T C))
                        /\ Forall (fun kv => List.length (snd kv) = T)
                                  (columns (drift_frame T C))).
  { intros C HC. destruct (drift_frame_spec T C) as (Hs & Hn & _). split.
    - rewrite Hn. apply cosine_names_NoDup.
    - apply Forall_forall. intros [k v] Hin.
      assert (Hv : In v (prune (m_cols C))).
      { rewrite <- Hs. apply in_map_iff. now exists (k, v). }
      unfold prune in Hv. apply filter_In in Hv. destruct Hv as [Hv _].
      rewrite Forall_forall in HC. exact (HC v Hv). }
  unfold cosine_drift_terms in H.
  destruct (nilearn_cosine_drift env tr (frame_times T tr) cutoff) as [C|] eqn:N.
  - inversion H; subst. apply D. exact (proj1 (Hnil C eq_refl)).
  - step H. destruct (Z.ltb a 1); inversion H; subst.
    + split; constructor.
    + apply D. cbn [m_cols]. unfold dct_columns. apply Forall_forall.
      intros col Hin. apply in_map_iff in Hin. destruct Hin as (k & <- & _).
      unfold dct_column. now rewrite length_map, length_seq.
Qed.

Lemma gather_total env args masks fd_vals nstd std acomps cos :
  let T := nth 3 (bold_shape env) 0 in
  List.length (bold_shape env) = 4 ->
  List.length (bold_frames env) = T ->
  List.length (data_rows (mcpar_lines env)) = T ->
  2 <= T ->
  Forall (fun r => List.length r = 6) (data_rows (mcpar_lines env)) ->
  aseg_to_masks env (gm_dilate_iter args) = Ok masks ->
  n_voxels (brain_mask masks) <> 0 ->
  n_voxels (wm_mask masks) <> 0 ->
  n_voxels (csf_mask masks) <> 0 ->
  run_fd env = Ok fd_vals ->
  T - 2 <= List.length fd_vals <= T ->
  run_dvars env = Ok (nstd, std) ->
  (forall v, nstd = Some v -> T - 2 <= List.length v <= T) ->
  (forall v, std = Some v -> T - 2 <= List.length v <= T) ->
  run_acompcor_single env (wmcsf_mask masks) = Ok acomps ->
  nrows acomps = T -> well_formed acomps -> NoDup (names acomps) ->
  cosine_drift_terms env T (tr args) 128 = Ok cos ->
  (forall C, nilearn_cosine_drift env (tr args) (frame_times T (tr args)) 128 = Some C ->
             Forall (fun col => List.length col = T) (m_cols C) /\ m_nrows C = T) ->
  exists conf, gather env args = Ok conf.
Proof.
  intros T H4 Hfr Hrows H2 H6 Hm Vb Vw Vc Hfd Lfd Hdv Lnstd Lstd Hac Nac Wac Dac Hcos Hnil.
  assert (Hrows' : 2 <= List.length (data_rows (mcpar_lines env))) by (rewrite Hrows; exact H2).
  pose proof (load_mcflirt_par_Nx6 _ Hrows' H6) as Hload.
  destruct (motion_df_value _ Hrows' H6) as [_ Hdf].
  set (df := mkDF (List.length (data_rows (mcpar_lines env))) _) in Hdf.
  assert (Ndf : nrows df = T) by exact Hrows.
  destruct (mean_signal_total env (brain_mask masks) Hfr Vb) as (gs & Hgs & Lgs).
  destruct (mean_signal_total env (wm_mask masks) Hfr Vw) as (wm & Hwm & Lwm).
  destruct (mean_signal_total env (csf_mask masks) Hfr Vc) as (csf & Hcsf & Lcsf).
  fold T in Lgs, Lwm, Lcsf.
  destruct (setitem_total df "global_signal" gs) as (c1 & S1 & N1); [congruence|].
  destruct (setitem_total c1 "white_matter" wm) as (c2 & S2 & N2); [congruence|].
  destruct (setitem_total c2 "csf" csf) as (c3 & S3 & N3); [congruence|].
  assert (Hin3 : forall c, In c gs_base -> In c (names c3)).
  { pose proof (setitem_Ok _ _ _ _ S1) as (_ & _ & _ & L1 & _).
    pose proof (setitem_Ok _ _ _ _ S2) as (_ & _ & _ & L2 & O2).
    pose proof (setitem_Ok _ _ _ _ S3) as (_ & _ & _ & L3 & O3).
    assert (G : forall c v, lookup c (columns c3) = Some v -> In c (names c3)).
    { intros c v L. destruct (in_dec string_dec c (names c3)) as [Hi|Hn]; [exact Hi|].
      apply lookup_None_iff in Hn. congruence. }
    intros c [<-|[<-|[<-|[]]]].
    - apply (G _ gs). rewrite O3 by discriminate. rewrite O2 by discriminate. exact L1.
    - apply (G _ wm). rewrite O3 by discriminate. exact L2.
    - apply (G _ csf). exact L3. }
  destruct (derive_total c3 "_derivative1" backward_diff gs_base Hin3) as (l1 & D1).
  destruct (derive_total c3 "_power2" square gs_base Hin3) as (l2 & D2).
  destruct (derive_total c3 "_derivative1_power2"
              (fun v => square (backward_diff v)) gs_base Hin3) as (l3 & D3).
  set (c4 := concat_axis1 [c3; mkDF (nrows c3) l1; mkDF (nrows c3) l2; mkDF (nrows c3) l3]).
  assert (S4 : add_fmriprep_expansions c3 gs_base = Ok c4).
  { unfold add_fmriprep_expansions. now rewrite D1, D2, D3. }
  assert (N4 : nrows c4 = T) by (unfold c4; cbn [concat_axis1 nrows]; congruence).
  destruct (enforce_total "framewise_displacement" (Some fd_vals) T np_nan)
    as (fd & Efd & Lf).
  { intros v E. inversion E; subst. exact Lfd. }
  destruct (enforce_total "dvars" nstd T np_nan Lnstd) as (dvars & Edv & Ld).
  destruct (enforce_total "std_dvars" std T np_nan Lstd) as (sdv & Esd & Ls).
  destruct (setitem_total c4 "framewise_displacement" fd) as (c5 & S5 & N5); [congruence|].
  destruct (setitem_total c5 "dvars" dvars) as (c6 & S6 & N6); [congruence|].
  destruct (setitem_total c6 "std_dvars" sdv) as (c7 & S7 & N7); [congruence|].
  destruct (copy_columns_total acomps (names acomps) c7 Dac) as (c8 & S8 & N8).
  { intros c Hc. destruct (well_formed_lookup _ _ Wac Hc) as (v & L & Hl).
    exists v. split; [exact L | congruence]. }
  destruct (cosine_drift_terms_table _ _ _ _ _ Hnil Hcos) as (Dcos & Wcos).
  destruct (copy_columns_total cos (names cos) c8 Dcos) as (c9 & S9 & N9).
  { intros c Hc. destruct (lookup c (columns cos)) as [v|] eqn:L.
    - exists v. split; [reflexivity|].
      rewrite (lookup_length _ _ _ _ Wcos L). congruence.
    - apply lookup_None_iff in L. contradiction. }
  exists c9. unfold gather. fold T.
  rewrite H4, Hload. cbn [Nat.eqb negb bind shape nth].
  rewrite Hrows, Nat.eqb_refl. cbn [negb].
  rewrite Hm. cbn [bind]. rewrite Hdf. cbn [bind].
  rewrite Hgs. cbn [bind]. rewrite S1. cbn [bind].
  rewrite Hwm. cbn [bind]. rewrite S2. cbn [bind].
  rewrite Hcsf. cbn [bind]. rewrite S3. cbn [bind].
  rewrite S4. cbn [bind]. rewrite Hfd. cbn [bind].
  rewrite Efd. cbn [bind]. rewrite S5. cbn [bind].
  rewrite Hdv. cbn [bind fst snd]. rewrite Edv. cbn [bind]. rewrite S6. cbn [bind].
  rewrite Esd. cbn [bind]. rewrite S7. cbn [bind].
  rewrite Hac. cbn [bind]. rewrite Nac, Nat.eqb_refl. cbn [negb].
  rewrite S8. cbn [bind]. rewrite Hcos. cbn [bind]. exact S9.
Qed.

End Success.

(** X17.  The experimental [main] writes a table whenever its inputs fit
    together: a 4-D volume of T >= 2 frames, a motion file of T lines of six
    numbers, a segmentation that could be resampled and whose brain,
    white-matter and CSF masks each select a voxel, a framewise-displacement
    series and DVARS series (those that were found) of T, T-1 or T-2 values,
    a components table of T rows with distinct labels, and a drift basis
    that could be built (with T rows, if it comes from nilearn).  The table
    has T rows and 39 columns plus the component and drift columns. *)
Theorem X17_main_writes_a_table :
  forall env args masks fd_vals nstd std acomps cos,
    let T := nth 3 (bold_shape env) 0 in
    List.length (bold_shape env) = 4 ->
    List.length (bold_frames env) = T ->
    List.length (data_rows (mcpar_lines env)) = T ->
    2 <= T ->
    Forall (fun r => List.length r = 6) (data_rows (mcpar_lines env)) ->
    aseg_to_masks env (gm_dilate_iter args) = Ok masks ->
    n_voxels (brain_mask masks) <> 0 ->
    n_voxels (wm_mask masks) <> 0 ->
    n_voxels (csf_mask masks) <> 0 ->
    run_fd env = Ok fd_vals ->
    T - 2 <= List.length fd_vals <= T ->
    Experimental.run_dvars env = Ok (nstd, std) ->
    (forall v, nstd = Some v -> T - 2 <= List.length v <= T) ->
    (forall v, std = Some v -> T - 2 <= List.length v <= T) ->
    Experimental.run_acompcor_single env (wmcsf_mask masks) = Ok acomps ->
    nrows acomps = T -> well_formed acomps -> NoDup (names acomps) ->
    Experimental.cosine_drift_terms env T (tr args) 128 = Ok cos ->
    (forall C,
        nilearn_cosine_drift env (tr args) (Experimental.frame_times T (tr args)) 128
        = Some C ->
        Forall (fun col => List.length col = T) (m_cols C) /\ m_nrows C = T) ->
    exists table,
      Experimental.main env args = Ok table
      /\ nrows table = T
      /\ ncols table = 39 + ncols acomps + ncols cos.
Proof.
  intros env args masks fd_vals nstd std acomps cos T
         H4 Hfr Hrows H2 H6 Hm Vb Vw Vc Hfd Lfd Hdv Lnstd Lstd Hac Nac Wac Dac Hcos Hnil.
  destruct (gather_total env args masks fd_vals nstd std acomps cos
              H4 Hfr Hrows H2 H6 Hm Vb Vw Vc Hfd Lfd Hdv Lnstd Lstd Hac Nac Wac Dac
              Hcos Hnil)
    as (conf & Hg).
  destruct (gather_columns _ _ _ Hg)
    as (masks' & df & gs & wm & csf & fd_vals' & fd & dv & dvars & std_dvars
        & acomps' & cos' & Hm' & Hdf & _ & _ & _ & _ & _ & _ & _ & _ & Hac' & _ & Hcos'
        & _ & _ & Hc).
  rewrite Hm in Hm'. inversion Hm'; subst masks'.
  rewrite Hac in Hac'. inversion Hac'; subst acomps'.
  fold T in Hcos'. rewrite Hcos in Hcos'. inversion Hcos'; subst cos'.
  set (F := columns df ++ _ ++ _) in Hc.
  assert (NF : map fst F = Experimental.fixed_columns).
  { unfold F. rewrite !map_app. fold (names df). rewrite (motion_df_names _ _ Hdf).
    reflexivity. }
  pose proof (run_acompcor_single_names _ _ _ Hac) as Kac.
  pose proof (cosine_drift_terms_names _ _ _ _ _ Hcos) as Kcos.
  rewrite Forall_forall in Kac, Kcos.
  assert (Nc : names conf = Experimental.fixed_columns ++ names acomps ++ names cos).
  { unfold names at 1. now rewrite Hc, !map_app, NF. }
  assert (Ho : Experimental.column_order (names conf)
               = Experimental.fixed_columns ++ sorted (names acomps) ++ sorted (names cos)).
  { unfold Experimental.column_order.
    rewrite (remaining_nil _ (gather_classified _ _ _ Hg)), app_nil_r.
    exact (gather_names conf _ (columns acomps) (columns cos) Nc Kac Kcos eq_refl). }
  destruct (select_total (columns conf) (Experimental.column_order (names conf)))
    as (cs & Hsel).
  { intros c Hin. rewrite Ho in Hin. fold (names conf). rewrite Nc.
    apply in_app_or in Hin. apply in_or_app. destruct Hin as [Hin|Hin]; [now left|].
    right. apply in_app_or in Hin. apply in_or_app.
    destruct Hin as [Hin|Hin]; [left|right]; exact (proj1 (sorted_In _ _) Hin). }
  exists (mkDF (nrows conf) cs). split; [|split].
  - unfold Experimental.main. rewrite Hg. cbn [bind]. unfold getitem_list.
    now rewrite Hsel.
  - cbn [nrows]. exact (proj2 (gather_well_formed _ _ _ Hg)).
  - unfold ncols. cbn [columns]. rewrite <- (length_map fst cs).
    rewrite (select_names _ _ _ Hsel), Ho, !length_app, !sorted_length.
    unfold names. now rewrite !length_map.
Qed.

Lemma X17_main_writes_a_table_witness :
  exists table,
    Experimental.main Ref.env Ref.args = Ok table
    /\ nrows table = 3
    /\ ncols table = 42.
Proof.
  destruct (X17_main_writes_a_table Ref.env Ref.args
              (mkMasks [true; true; true; false] [true; false; false; false]
                       [false; true; false; false] [true; true; false; false])
              [0.25; 0.5]%float (Some [20; 24]%float) (Some [1.25; 1.5]%float)
              (mkDF 3 [ ("a_comp_cor_01", [0.5; -0.25; -0.25]%float);
                        ("a_comp_cor_00", [0.125; 0.25; -0.375]%float) ])
              (match Experimental.cosine_drift_terms Ref.env 3 30 128 with
               | Ok cos => cos
               | Raise _ => mkDF 0 []
               end))
    as (table & Ht & Hn & Hc).
  - reflexivity.
  - reflexivity.
  - reflexivity.
  - vm_compute. lia.
  - vm_compute. repeat constructor.
  - reflexivity.
  - vm_compute. lia.
  - vm_compute. lia.
  - vm_compute. lia.
  - reflexivity.
  - vm_compute. lia.
  - reflexivity.
  - intros v E. inversion E; subst. vm_compute. lia.
  - intros v E. inversion E; subst. vm_compute. lia.
  - reflexivity.
  - reflexivity.
  - repeat constructor.
  - repeat constructor; simpl; intuition discriminate.
  - vm_compute. reflexivity.
  - intros C E. discriminate E.
  - exists table. split; [exact Ht|]. split; [exact Hn|]. exact Hc.
Defined.
